(** * The order-match transaction pipeline: bundle item builder and bundle encoder

    A shallow embedding of
      - [src/transaction/transaction.provider.abstract.ts]
        (class [FirestoreOrderTransactionProvider]), and
      - [src/infinity-exchange.ts] (class [InfinityExchange]),
    together with the properties of the builder, the verifier, the two asset
    passes and the bundle packer.

    Conventions of the embedding.
      - A JS number that holds a count, an index, a gas amount or a time is a
        [nat] or a [Z]; an ethers [BigNumber] is a [Z].
      - A promise is the value it settles to: [Fulfilled v] or [Rejected msg].
        The chain is read through the functions of an [Env] record, so one
        invocation observes one chain state.
      - Code that can throw returns a [Res]; the re-splitting recursion of the
        packer carries fuel and yields [None] when the fuel is exhausted.
      - A JS object used as a dictionary is the list of its properties in
        enumeration order. *)

From Stdlib Require Import ZArith List String Ascii Bool Lia Arith Permutation.
From Stdlib Require DecimalString HexadecimalString DecimalPos DecimalZ.
Import ListNotations.

#[local] Open Scope string_scope.
#[local] Open Scope list_scope.
#[local] Open Scope Z_scope.

Set Implicit Arguments.

(** ** Results of code that may throw *)

Inductive Res (A : Type) : Type :=
| Ok (a : A)
| Throw (message : string).

Arguments Ok {A} a.
Arguments Throw {A} message.

Definition bind {A B : Type} (r : Res A) (k : A -> Res B) : Res B :=
  match r with
  | Ok a => k a
  | Throw m => Throw m
  end.

Declare Scope res_scope.
Delimit Scope res_scope with res.
Notation "x <- c ;; k" := (bind c (fun x => k))
  (at level 61, c at next level, right associativity) : res_scope.
Notation "' p <- c ;; k" := (bind c (fun x => let 'p := x in k))
  (at level 61, p pattern, c at next level, right associativity) : res_scope.
#[local] Open Scope res_scope.

(** [Array.prototype.map] with a callback that may throw: the first throw
    aborts the whole map. *)
Fixpoint mapM {A B : Type} (f : A -> Res B) (l : list A) : Res (list B) :=
  match l with
  | [] => Ok []
  | x :: t => y <- f x ;; ys <- mapM f t ;; Ok (y :: ys)
  end.

(** A settled promise, as [Promise.allSettled] reports it. *)
Inductive Settled (A : Type) : Type :=
| Fulfilled (value : A)
| Rejected (reason : string).

Arguments Fulfilled {A} value.
Arguments Rejected {A} reason.

(** ** Strings *)

(** [String.prototype.toLowerCase] on the ASCII range (addresses are ASCII). *)
Definition lower_ascii (c : ascii) : ascii :=
  let n := nat_of_ascii c in
  if ((65 <=? n) && (n <=? 90))%nat then ascii_of_nat (n + 32) else c.

Fixpoint toLowerCase (s : string) : string :=
  match s with
  | EmptyString => EmptyString
  | String c t => String (lower_ascii c) (toLowerCase t)
  end.

(** ** Big numbers *)

(** The values a [constraints] slot can hold: [BigNumberish] restricted to
    the forms the pipeline handles, plus what reading a missing slot gives. *)
Inductive BigNumberish : Type :=
| JsNumber (n : Z)        (* an integral JS number *)
| JsString (s : string)   (* a decimal or 0x-prefixed hexadecimal string *)
| JsUndefined.            (* the value of an out-of-range index *)

Definition MAX_SAFE_INTEGER : Z := 2 ^ 53 - 1.

Definition parseDecimal (s : string) : option Z :=
  option_map Z.of_int (DecimalString.NilZero.int_of_string s).

Definition parseHexDigits (s : string) : option Z :=
  option_map Z.of_hex_uint (HexadecimalString.NilZero.uint_of_string (toLowerCase s)).

(** The hexadecimal strings [BigNumber.from] gives a value to: an optional
    sign, the prefix [0x] and hexadecimal digits of either case. Its test,
    /^-?0x[0-9a-f]+$/i, also lets the prefix [0X] through, but the big number
    made of such a string has no value: [toString], [toNumber] and the
    arithmetic all throw on it. The model has no such big number and gives
    the throw to [BigNumber.from] itself. *)
Definition parseHex (s : string) : option Z :=
  match s with
  | String "-" (String "0" (String "x" t)) => option_map Z.opp (parseHexDigits t)
  | String "0" (String "x" t) => parseHexDigits t
  | _ => None
  end.

(** [BigNumber.from(value)]: a number must lie strictly between
    [-MAX_SAFE_INTEGER] and [MAX_SAFE_INTEGER], a string must be hexadecimal
    or decimal; anything else throws. *)
Definition BigNumber_from (v : BigNumberish) : Res Z :=
  match v with
  | JsNumber n =>
      if (n <? MAX_SAFE_INTEGER) && (- MAX_SAFE_INTEGER <? n) then Ok n
      else Throw "overflow"
  | JsString s =>
      match parseHex s with
      | Some z => Ok z
      | None =>
          match parseDecimal s with
          | Some z => Ok z
          | None => Throw "invalid BigNumber string"
          end
      end
  | JsUndefined => Throw "invalid BigNumber value"
  end.

(** [BigNumber.prototype.toString]: the canonical decimal string. *)
Definition BigNumber_toString (z : Z) : string :=
  DecimalString.NilZero.string_of_int (Z.to_int z).

(** [BigNumber.prototype.toNumber]: throws outside the safe range. *)
Definition BigNumber_toNumber (z : Z) : Res Z :=
  if (z <=? MAX_SAFE_INTEGER) && (- MAX_SAFE_INTEGER <=? z) then Ok z
  else Throw "overflow".

(** [BigNumber.from(item).toString()] *)
Definition normalize (v : BigNumberish) : Res BigNumberish :=
  z <- BigNumber_from v ;; Ok (JsString (BigNumber_toString z)).

(** A slot is in canonical form when it is the decimal string that
    [BigNumber.prototype.toString] prints for the value it denotes. *)
Definition is_canonical (v : BigNumberish) : bool :=
  match v with
  | JsString s =>
      match parseDecimal s with
      | Some z => String.eqb (BigNumber_toString z) s
      | None => false
      end
  | _ => false
  end.

(** ** Orders and NFT sets *)

Record ChainNFTToken : Type := {
  tokenId : string;
  numTokens : Z
}.

Record ChainNFTs : Type := {
  collection : string;
  tokens : list ChainNFTToken
}.

(** A signed maker order ([ChainOBOrder], called [MakerOrder] by the
    exchange). *)
Record ChainOBOrder : Type := {
  isSellOrder : bool;
  signer : string;
  constraints : list BigNumberish;
  nfts : list ChainNFTs;
  execParams : list string;
  extraParams : string;
  sig : string
}.

(** [constraints[i]] *)
Definition constraint_at (o : ChainOBOrder) (i : nat) : BigNumberish :=
  nth i (constraints o) JsUndefined.

Definition with_constraints (o : ChainOBOrder) (cs : list BigNumberish) : ChainOBOrder :=
  {| isSellOrder := isSellOrder o; signer := signer o; constraints := cs;
     nfts := nfts o; execParams := execParams o; extraParams := extraParams o;
     sig := sig o |}.

(** ** Bundle items *)

Inductive BundleType : Type :=
| BundleType_MatchOrders
| BundleType_MatchOrdersOneToOne.

Record BaseBundleItem : Type := {
  id : string;
  chainId : string;
  exchangeAddress : string;
  sell : ChainOBOrder;
  buy : ChainOBOrder;
  buyOrderHash : string;
  sellOrderHash : string
}.

Record MatchOrdersOneToOneBundleItem : Type := {
  oneToOne_base : BaseBundleItem
}.

Record MatchOrdersBundleItem : Type := {
  matchOrders_base : BaseBundleItem;
  constructed : ChainOBOrder
}.

(** The union [BundleItem], discriminated by [bundleType]. *)
Inductive BundleItem : Type :=
| OfMatchOrders (item : MatchOrdersBundleItem)
| OfMatchOrdersOneToOne (item : MatchOrdersOneToOneBundleItem).

Definition bundleType (b : BundleItem) : BundleType :=
  match b with
  | OfMatchOrders _ => BundleType_MatchOrders
  | OfMatchOrdersOneToOne _ => BundleType_MatchOrdersOneToOne
  end.

Definition base (b : BundleItem) : BaseBundleItem :=
  match b with
  | OfMatchOrders i => matchOrders_base i
  | OfMatchOrdersOneToOne i => oneToOne_base i
  end.

(** [T extends BundleItem] *)
Class ExtendsBundleItem (T : Type) : Type := {
  toBundleItem : T -> BundleItem
}.

#[export] Instance MatchOrders_extends : ExtendsBundleItem MatchOrdersBundleItem :=
  {| toBundleItem := OfMatchOrders |}.

#[export] Instance OneToOne_extends : ExtendsBundleItem MatchOrdersOneToOneBundleItem :=
  {| toBundleItem := OfMatchOrdersOneToOne |}.

(** * Part I. The bundle item builder ([FirestoreOrderTransactionProvider]) *)

(** A JS object used as a dictionary: its properties in the order in which
    [Object.values] enumerates them. For keys that are not array indices, as
    the collection addresses of [orderItems], that is the insertion order. *)
Definition JsObject (V : Type) : Type := list (string * V).

Definition Object_values {V : Type} (o : JsObject V) : list V := map snd o.

Module OrderItem.
Record Token : Type := {
  tokenId : string;
  numTokens : Z
}.
Record Collection : Type := {
  collectionAddress : string;
  tokens : JsObject Token
}.
End OrderItem.

Module FirestoreOrder.
Record t : Type := {
  isSellOrder : bool;
  chainId : string;
  nonce : BigNumberish;
  complicationAddress : string;
  currencyAddress : string;
  signedOrder : ChainOBOrder
}.
Definition with_signedOrder (o : t) (s : ChainOBOrder) : t :=
  {| isSellOrder := isSellOrder o; chainId := chainId o; nonce := nonce o;
     complicationAddress := complicationAddress o;
     currencyAddress := currencyAddress o; signedOrder := s |}.
End FirestoreOrder.

Inductive FirestoreOrderMatchStatus : Type :=
| Status_Inactive
| Status_Active
| Status_Matched
| Status_Error.

Inductive FirestoreOrderMatchMethod : Type :=
| Method_MatchOrders
| Method_MatchOneToOneOrders
| Method_Other (name : string).   (* any value the switch sends to [default] *)

Inductive FirestoreOrderMatchErrorCode : Type :=
| OrderInvalid
| NotApprovedToTransferToken
| InsufficientTokenBalance
| InsufficientCurrencyAllowance
| InsufficientCurrencyBalance
| UnknownError.

Module OrderMatch.
Record t : Type := {
  ids : list string;
  orderItems : JsObject OrderItem.Collection;   (* matchData.orderItems *)
  type : FirestoreOrderMatchMethod;
  status : FirestoreOrderMatchStatus              (* state.status *)
}.
End OrderMatch.

(** What the provider does to the outside: events emitted to its listeners,
    lines written to the console, writes to the match collection. *)
Inductive TransactionProviderEvent : Type :=
| Update (id : string) (item : BundleItem)
| Remove (id : string).

Inductive Effect : Type :=
| Emit (event : TransactionProviderEvent)
| ConsoleError (message : string)
| SetOrderMatchState (id : string) (status : FirestoreOrderMatchStatus)
    (code : option FirestoreOrderMatchErrorCode)   (* updateOrderMatch *)
| DeleteOrderMatch (id : string).

Section Provider.

(** The orders collection: [doc(id).data()], [None] for a missing document. *)
Variable orders : string -> option FirestoreOrder.t.

(** [orderHash], from [utils/order-hash], and [getExchangeAddress], from the
    shared library. *)
Variable orderHash : ChainOBOrder -> string.
Variable getExchangeAddress : string -> string.

Definition is_listing (o : option FirestoreOrder.t) : bool :=
  match o with Some d => FirestoreOrder.isSellOrder d | None => false end.

Definition is_offer (o : option FirestoreOrder.t) : bool :=
  match o with Some d => negb (FirestoreOrder.isSellOrder d) | None => false end.

Definition OrderNotFound : string := "Order not found".
Definition MultipleOrders : string := "Multiple orders are not yet supported".
Definition NotActive : string := "Order match is not active".

Definition getOrders (m : OrderMatch.t) : Res (FirestoreOrder.t * FirestoreOrder.t) :=
  let orderSnaps := map orders (OrderMatch.ids m) in
  let listings := filter is_listing orderSnaps in
  let offers := filter is_offer orderSnaps in
  match nth_error listings 0, nth_error offers 0 with
  | Some (Some listing), Some (Some offer) =>
      if ((1 <? List.length listings) || (1 <? List.length offers))%nat
      then Throw MultipleOrders
      else Ok (listing, offer)
  | _, _ => Throw OrderNotFound
  end.

(** The two partitions of [getOrders], for the statements about it. *)
Definition listingsOf (m : OrderMatch.t) : list (option FirestoreOrder.t) :=
  filter is_listing (map orders (OrderMatch.ids m)).

Definition offersOf (m : OrderMatch.t) : list (option FirestoreOrder.t) :=
  filter is_offer (map orders (OrderMatch.ids m)).

(** The loop of [createBundleItem] over one collection's tokens: the
    accumulator is ([collectionChainNfts.tokens], [collectionNumMatches]). *)
Definition flattenToken (acc : list ChainNFTToken * Z) (token : OrderItem.Token)
  : list ChainNFTToken * Z :=
  (fst acc ++ [ {| tokenId := OrderItem.tokenId token;
                   numTokens := OrderItem.numTokens token |} ],
   snd acc + 1).

(** The outer loop: the accumulator is ([chainNfts], [numMatches]). *)
Definition flattenCollection (acc : list ChainNFTs * Z) (c : OrderItem.Collection)
  : list ChainNFTs * Z :=
  let '(collectionTokens, collectionNumMatches) :=
    fold_left flattenToken (Object_values (OrderItem.tokens c)) ([], 0) in
  let collectionChainNfts :=
    {| collection := OrderItem.collectionAddress c; tokens := collectionTokens |} in
  let collectionNumMatches :=
    if collectionNumMatches =? 0 then collectionNumMatches + 1 else collectionNumMatches in
  (fst acc ++ [collectionChainNfts], snd acc + collectionNumMatches).

Definition flatten (m : OrderMatch.t) : list ChainNFTs * Z :=
  fold_left flattenCollection (Object_values (OrderMatch.orderItems m)) ([], 0).

Definition getMatchOrdersBundle (id : string) (listing offer : FirestoreOrder.t)
    (numMatches : Z) (chainNfts : list ChainNFTs) : Res MatchOrdersBundleItem :=
  let listingOrder := FirestoreOrder.signedOrder listing in
  let offerOrder := FirestoreOrder.signedOrder offer in
  c1 <- normalize (constraint_at offerOrder 1) ;;
  c2 <- normalize (constraint_at offerOrder 2) ;;
  let constructed :=
    {| isSellOrder := false;
       signer := signer listingOrder;
       constraints :=
         [ JsNumber numMatches; c1; c2;
           constraint_at offerOrder 3; constraint_at offerOrder 4;
           FirestoreOrder.nonce offer ];
       nfts := chainNfts;
       execParams := [ FirestoreOrder.complicationAddress listing;
                       FirestoreOrder.currencyAddress listing ];
       extraParams := extraParams listingOrder;
       sig := sig listingOrder |} in
  listingConstraints <- mapM normalize (constraints listingOrder) ;;
  offerConstraints <- mapM normalize (constraints offerOrder) ;;
  (* both signed orders are updated in place before they are read below *)
  let listingOrder := with_constraints listingOrder listingConstraints in
  let offerOrder := with_constraints offerOrder offerConstraints in
  Ok {| matchOrders_base :=
          {| id := id;
             chainId := FirestoreOrder.chainId listing;
             exchangeAddress := getExchangeAddress (FirestoreOrder.chainId listing);
             sell := listingOrder;
             buy := offerOrder;
             buyOrderHash := orderHash offerOrder;
             sellOrderHash := orderHash listingOrder |};
        constructed := constructed |}.

Definition createBundleItem (id : string) (listing offer : FirestoreOrder.t)
    (m : OrderMatch.t) : Res BundleItem :=
  let '(chainNfts, numMatches) := flatten m in
  match OrderMatch.type m with
  | Method_MatchOrders =>
      item <- getMatchOrdersBundle id listing offer numMatches chainNfts ;;
      Ok (OfMatchOrders item)
  | Method_MatchOneToOneOrders =>
      Ok (OfMatchOrdersOneToOne
            {| oneToOne_base :=
                 {| id := id;
                    chainId := FirestoreOrder.chainId listing;
                    exchangeAddress := getExchangeAddress (FirestoreOrder.chainId listing);
                    sell := FirestoreOrder.signedOrder listing;
                    buy := FirestoreOrder.signedOrder offer;
                    buyOrderHash := orderHash (FirestoreOrder.signedOrder offer);
                    sellOrderHash := orderHash (FirestoreOrder.signedOrder listing) |} |})
  | Method_Other name => Throw ("Unknown match type: " ++ name)%string
  end.

(** [this.emit]. [TransactionProvider] declares [emitter], [on] and [off],
    and [FirestoreOrderTransactionProvider] adds no [emit]: the property is
    undefined, and calling it throws a [TypeError] before any listener is
    reached. *)
Definition EmitIsNotAFunction : string := "this.emit is not a function".

Definition emit (event : TransactionProviderEvent) : Res (list Effect) :=
  Throw EmitIsNotAFunction.

(** The statements of the [try] of [handleOrderMatchUpdate] that build the
    item. *)
Definition buildUpdate (id : string) (m : OrderMatch.t) : Res BundleItem :=
  match OrderMatch.status m with
  | Status_Active =>
      '(listing, offer) <- getOrders m ;;
      createBundleItem id listing offer m
  | _ => Throw NotActive
  end.

(** The [try] and its [catch]. *)
Definition handleOrderMatchUpdate (id : string) (m : OrderMatch.t) : list Effect :=
  match (bundleItem <- buildUpdate id m ;; emit (Update id bundleItem)) with
  | Ok effects => effects
  | Throw err => [ConsoleError err]
  end.

(** No [try] here: the throw of [this.emit] leaves the function. *)
Definition handleOrderMatchRemoved (id : string) : Res (list Effect) :=
  emit (Remove id).

(** [updateOrderMatch], [transactionReverted] and [transactionCompleted]:
    the writes the provider offers to its caller. *)
Definition updateOrderMatch (id : string) (status : FirestoreOrderMatchStatus)
    (code : option FirestoreOrderMatchErrorCode) : list Effect :=
  [SetOrderMatchState id status code].

Definition transactionReverted (id : string) : list Effect := [DeleteOrderMatch id].
Definition transactionCompleted (id : string) : list Effect := [DeleteOrderMatch id].

End Provider.

(** * Part II. The bundle encoder ([InfinityExchange]) *)

Inductive ErrorText : Type :=
| Text (message : string)
| OperatorNotApproved (operator collection : string)
| SignerDoesNotOwn (signer : string) (numTokens : Z) (tokenId collection : string)
| AllowanceTooLow (buyer currency : string) (allowance expected : Z)
| BalanceTooLow (buyer currency : string) (balance expected : Z).

Record OrderError : Type := {
  code : FirestoreOrderMatchErrorCode;
  error : ErrorText
}.

Record InvalidBundleItem (T : Type) : Type := {
  invalidItem : T;         (* bundleItem *)
  orderError : OrderError
}.

(** [BundleItemWithCurrentPrice]: the item with a [currentPrice] added. *)
Record WithCurrentPrice (T : Type) : Type := {
  bundleItem : T;
  currentPrice : Z
}.

Record TransactionRequest : Type := {
  to : string;
  gasLimit : Z;
  data : string;
  tx_chainId : Z;
  tx_type : Z
}.

(** The bucket built by the two transformers. *)
Record Bundle : Type := {
  sells : list ChainOBOrder;
  buys : list ChainOBOrder;
  constructeds : list (list ChainNFTs)   (* constructed *)
}.

Definition MatchOrdersArgs : Type :=
  (list ChainOBOrder * list ChainOBOrder * list (list ChainNFTs))%type.
Definition MatchOrdersOneToOneArgs : Type :=
  (list ChainOBOrder * list ChainOBOrder)%type.

(** [await p]: a rejection is thrown. *)
Definition await {A : Type} (p : Settled A) : Res A :=
  match p with
  | Fulfilled v => Ok v
  | Rejected reason => Throw reason
  end.

(** ** Arrays with holes *)

(** [acc[index] = v]: a write past the end extends the array and leaves
    holes in between. *)
Fixpoint set_at {A : Type} (l : list (option A)) (i : nat) (v : A) : list (option A) :=
  match i, l with
  | O, [] => [Some v]
  | O, _ :: t => Some v :: t
  | S i', [] => None :: set_at [] i' v
  | S i', h :: t => h :: set_at t i' v
  end.

(** [acc[index]], [undefined] for a hole or an index out of range. *)
Definition get_at {A : Type} (l : list (option A)) (i : nat) : option A :=
  match nth_error l i with
  | Some (Some v) => Some v
  | _ => None
  end.

(** [reduce] with the element's index. *)
Fixpoint reduce_indexed {A B : Type} (f : B -> A -> nat -> B) (l : list A)
    (currentIndex : nat) (acc : B) : B :=
  match l with
  | [] => acc
  | x :: t => reduce_indexed f t (S currentIndex) (f acc x currentIndex)
  end.

(** [map] over an array with holes skips the holes and keeps them. *)
Definition map_sparse {A B : Type} (f : A -> B) (l : list (option A)) : list (option B) :=
  map (option_map f) l.

(** [currentIndex % numBundles]: the remainder has the sign of the dividend;
    with [numBundles = 0] it is NaN, which names no slot of the array. *)
Definition bucketIndex (currentIndex : nat) (numBundles : Z) : option nat :=
  if numBundles =? 0 then None
  else Some (Z.to_nat (Z.rem (Z.of_nat currentIndex) numBundles)).

Definition emptyBundle : Bundle := {| sells := []; buys := []; constructeds := [] |}.

(** [Math.ceil(a / b)] for a non-zero [b]. *)
Definition ceilDiv (a b : Z) : Z := - ((- a) / b).

Section Exchange.

(** IEEE doubles are kept abstract. *)
Variable JsFloat : Type.

(** The argument of [getOBOrderPrice]. *)
Record OBOrderPriceProps : Type := {
  startPriceEth : JsFloat;
  startTimeMs : Z;
  endPriceEth : JsFloat;
  endTimeMs : Z
}.

(** What the encoder of one chain reads from outside this file. *)
Record Env : Type := {
  env_chainId : Z;                     (* parseInt(chainId) *)
  contractAddress : string;            (* getContract(chainId).address *)
  MAX_GAS_LIMIT : Z;                   (* utils/constants *)
  txnCurrencyAddress : string;         (* getTxnCurrencyAddress(chainId) *)
  now : nat -> Z;                      (* Date.now(): the readings of the clock, in
                                          the order in which one run takes them *)
  etherOfWei : Z -> JsFloat;           (* parseFloat(formatEther(x).toString()) *)
  getOBOrderPrice : OBOrderPriceProps -> Z -> Res Z;   (* the library's curve; it may throw *)
  floorTimes1_2 : Z -> Z;              (* Math.floor(n * 1.2), in doubles *)
  encode_matchOrders : MatchOrdersArgs -> Res string;
  encode_matchOneToOneOrders : MatchOrdersOneToOneArgs -> Res string;
  verifyMatchOrders : string -> string -> ChainOBOrder -> ChainOBOrder -> Settled bool;
  isApprovedForAll : string -> string -> string -> Settled bool;  (* collection, owner, operator *)
  ownerOf : string -> string -> Settled string;                   (* collection, tokenId *)
  allowance : string -> string -> string -> Settled Z;            (* currency, owner, spender *)
  balanceOf : string -> string -> Settled Z;                      (* currency, owner *)
  estimateGas : string -> string -> string -> Settled Z           (* to, from, data *)
}.

Variable env : Env.

(** ** The two asset passes *)

Inductive Checked (T : Type) : Type :=
| IsValid (item : WithCurrentPrice T)
| IsInvalid (item : WithCurrentPrice T) (err : OrderError).

(** The [reduce] that splits the results into the two lists. *)
Definition splitResults {T : Type} (results : list (Checked T))
  : list (WithCurrentPrice T) * list (InvalidBundleItem (WithCurrentPrice T)) :=
  fold_left
    (fun acc result =>
       match result with
       | IsValid item => (fst acc ++ [item], snd acc)
       | IsInvalid item err =>
           (fst acc, snd acc ++ [ {| invalidItem := item; orderError := err |} ])
       end)
    results ([], []).

Section Passes.

Context {T : Type} `{ExtendsBundleItem T}.

Definition itemOf (b : WithCurrentPrice T) : BundleItem := toBundleItem (bundleItem b).

(** [bundleType === MatchOrders ? constructed.nfts : sell.nfts] *)
Definition sellerNfts (b : BundleItem) : list ChainNFTs :=
  match b with
  | OfMatchOrders i => nfts (constructed i)
  | OfMatchOrdersOneToOne i => nfts (sell (oneToOne_base i))
  end.

(** The inner loop of the seller pass; [Some e] is an early return. *)
Fixpoint checkTokens (signerAddress collectionAddress : string)
    (toks : list ChainNFTToken) : Res (option OrderError) :=
  match toks with
  | [] => Ok None
  | t :: rest =>
      ownerOfToken <- await (ownerOf env collectionAddress (tokenId t)) ;;
      if negb (String.eqb signerAddress (toLowerCase ownerOfToken))
      then Ok (Some {| error := SignerDoesNotOwn signerAddress (numTokens t)
                                  (tokenId t) collectionAddress;
                       code := InsufficientTokenBalance |})
      else checkTokens signerAddress collectionAddress rest
  end.

(** The outer loop of the seller pass. *)
Fixpoint checkCollections (signerAddress : string) (ns : list ChainNFTs)
    : Res (option OrderError) :=
  match ns with
  | [] => Ok None
  | n :: rest =>
      isApproved <- await (isApprovedForAll env (collection n) signerAddress
                             (contractAddress env)) ;;
      if negb isApproved
      then Ok (Some {| error := OperatorNotApproved (contractAddress env) (collection n);
                       code := NotApprovedToTransferToken |})
      else
        r <- checkTokens signerAddress (collection n) (tokens n) ;;
        match r with
        | Some e => Ok (Some e)
        | None => checkCollections signerAddress rest
        end
  end.

(** One [try]/[catch] of the seller pass. *)
Definition checkSeller (b : WithCurrentPrice T) : Checked T :=
  let signerAddress := signer (sell (base (itemOf b))) in
  match checkCollections signerAddress (sellerNfts (itemOf b)) with
  | Ok None => IsValid b
  | Ok (Some e) => IsInvalid b e
  | Throw errorMessage =>
      IsInvalid b {| error := Text errorMessage; code := UnknownError |}
  end.

Definition checkNftSellerApprovalAndBalance (bundleItems : list (WithCurrentPrice T))
  : list (WithCurrentPrice T) * list (InvalidBundleItem (WithCurrentPrice T)) :=
  splitResults (map checkSeller bundleItems).

(** [[...new Set([currency, weth])]]; [None] is a missing [execParams[1]]. *)
Definition currenciesOf (b : WithCurrentPrice T) : list (option string) :=
  let currency := nth_error (execParams (buy (base (itemOf b)))) 1 in
  let weth := txnCurrencyAddress env in
  match currency with
  | Some c => if String.eqb c weth then [Some c] else [Some c; Some weth]
  | None => [None; Some weth]
  end.

Definition expectedCostOf (price : Z) (currency : string) : Z :=
  let expectedCost := Z.quot (price * 11) 10 in
  if String.eqb currency (txnCurrencyAddress env) then expectedCost + 0 else expectedCost.

(** The loop of the buyer pass over the currencies. *)
Fixpoint checkCurrencies (buyer : string) (price : Z) (cs : list (option string))
    : Res (option OrderError) :=
  match cs with
  | [] => Ok None
  | None :: _ => Throw "invalid contract address or ENS name"
  | Some currency :: rest =>
      allowed <- await (allowance env currency buyer (contractAddress env)) ;;
      let expectedCost := expectedCostOf price currency in
      if allowed <? expectedCost
      then Ok (Some {| code := InsufficientCurrencyAllowance;
                       error := AllowanceTooLow buyer currency allowed expectedCost |})
      else
        balance <- await (balanceOf env currency buyer) ;;
        if balance <? expectedCost
        then Ok (Some {| code := InsufficientCurrencyBalance;
                         error := BalanceTooLow buyer currency balance expectedCost |})
        else checkCurrencies buyer price rest
  end.

(** One [try]/[catch] of the buyer pass. *)
Definition checkBuyer (b : WithCurrentPrice T) : Checked T :=
  let buyer := signer (buy (base (itemOf b))) in
  match checkCurrencies buyer (currentPrice b) (currenciesOf b) with
  | Ok None => IsValid b
  | Ok (Some e) => IsInvalid b e
  | Throw errorMessage =>
      IsInvalid b {| code := UnknownError; error := Text errorMessage |}
  end.

Definition checkNftBuyerApprovalAndBalance (bundleItems : list (WithCurrentPrice T))
  : list (WithCurrentPrice T) * list (InvalidBundleItem (WithCurrentPrice T)) :=
  splitResults (map checkBuyer bundleItems).

End Passes.

(** ** The two call-data encoders and the two transformers *)

Definition matchOrdersOneToOneCallDataEncoder (args : MatchOrdersOneToOneArgs) : Res string :=
  encode_matchOneToOneOrders env args.

Definition matchOrdersCallDataEncoder (args : MatchOrdersArgs) : Res string :=
  encode_matchOrders env args.

Definition matchOrdersOneToOneItemsToArgsTransformer
    (bundleItems : list MatchOrdersOneToOneBundleItem) (numBundles : Z)
    : list (option MatchOrdersOneToOneArgs) :=
  let bundles :=
    reduce_indexed
      (fun acc bundleItem currentIndex =>
         match bucketIndex currentIndex numBundles with
         | None => acc
         | Some index =>
             let bundle :=
               match get_at acc index with Some b => b | None => emptyBundle end in
             let bundle :=
               {| sells := sells bundle ++ [sell (oneToOne_base bundleItem)];
                  buys := buys bundle ++ [buy (oneToOne_base bundleItem)];
                  constructeds := constructeds bundle |} in
             set_at acc index bundle
         end)
      bundleItems 0%nat [] in
  map_sparse (fun bundle => (sells bundle, buys bundle)) bundles.

Definition matchOrdersItemsToArgsTransformer
    (bundleItems : list MatchOrdersBundleItem) (numBundles : Z)
    : list (option MatchOrdersArgs) :=
  let bundles :=
    reduce_indexed
      (fun acc bundleItem currentIndex =>
         match bucketIndex currentIndex numBundles with
         | None => acc
         | Some index =>
             let bundle :=
               match get_at acc index with Some b => b | None => emptyBundle end in
             let bundle :=
               {| sells := sells bundle ++ [sell (matchOrders_base bundleItem)];
                  buys := buys bundle ++ [buy (matchOrders_base bundleItem)];
                  constructeds := constructeds bundle ++ [nfts (constructed bundleItem)] |} in
             set_at acc index bundle
         end)
      bundleItems 0%nat [] in
  map_sparse (fun bundle => (sells bundle, buys bundle, constructeds bundle)) bundles.

(** ** The two verifiers *)

Definition matchOrdersOneToOneVerifier (bundleItems : list MatchOrdersOneToOneBundleItem)
    : Res (list (WithCurrentPrice MatchOrdersOneToOneBundleItem)
           * list MatchOrdersOneToOneBundleItem) :=
  bundleItemsWithCurrentPrice <-
    mapM (fun bundleItem =>
            price <- BigNumber_from (constraint_at (sell (oneToOne_base bundleItem)) 1) ;;
            Ok {| bundleItem := bundleItem; currentPrice := price |})
         bundleItems ;;
  Ok (bundleItemsWithCurrentPrice, []).

(** [getCurrentPrice], local to the reducer of [matchOrdersVerifier]. Every
    call reads the clock once, after the four constraints; [reading] is the
    number of readings taken before it. *)
Definition getCurrentPrice (reading : nat) (order : ChainOBOrder) : Res Z :=
  startPriceWei <- BigNumber_from (constraint_at order 1) ;;
  endPriceWei <- BigNumber_from (constraint_at order 2) ;;
  startTime <- (t <- BigNumber_from (constraint_at order 3) ;; BigNumber_toNumber t) ;;
  endTime <- (t <- BigNumber_from (constraint_at order 4) ;; BigNumber_toNumber t) ;;
  let props :=
    {| startPriceEth := etherOfWei env startPriceWei;
       startTimeMs := startTime * 1000;
       endPriceEth := etherOfWei env endPriceWei;
       endTimeMs := endTime * 1000 |} in
  getOBOrderPrice env props (now env reading).

(** [result.status === 'fulfilled' && result.value] of the item's call. *)
Definition verifyResult (item : MatchOrdersBundleItem) : Settled bool :=
  verifyMatchOrders env
    (sellOrderHash (matchOrders_base item)) (buyOrderHash (matchOrders_base item))
    (sell (matchOrders_base item)) (buy (matchOrders_base item)).

Definition settledTrue (result : Settled bool) : bool :=
  match result with
  | Fulfilled value => value
  | Rejected _ => false
  end.

(** The callback of the [reduce] of [matchOrdersVerifier]; a throw inside
    it leaves the [reduce], so the accumulator is a [Res]. The callback prices
    the sell order and then the buy order of every item, so the item at
    [index] gets the clock readings [2 * index] and [2 * index + 1]. *)
Definition matchOrdersReducer
    (acc : Res (list (WithCurrentPrice MatchOrdersBundleItem) * list MatchOrdersBundleItem))
    (bundleItem : MatchOrdersBundleItem) (index : nat)
    : Res (list (WithCurrentPrice MatchOrdersBundleItem) * list MatchOrdersBundleItem) :=
  '(validBundleItems, invalidBundleItems) <- acc ;;
  let isValid := settledTrue (verifyResult bundleItem) in
  sellPrice <- getCurrentPrice (2 * index) (sell (matchOrders_base bundleItem)) ;;
  buyPrice <- getCurrentPrice (2 * index + 1) (buy (matchOrders_base bundleItem)) ;;
  let currentPrice := if sellPrice >=? buyPrice then buyPrice else sellPrice in
  let bundleItemWithCurrentPrice :=
    {| bundleItem := bundleItem; currentPrice := currentPrice |} in
  Ok (if isValid then validBundleItems ++ [bundleItemWithCurrentPrice]
      else validBundleItems,
      if negb isValid then invalidBundleItems ++ [bundleItem]
      else invalidBundleItems).

Definition matchOrdersVerifier (bundleItems : list MatchOrdersBundleItem)
    : Res (list (WithCurrentPrice MatchOrdersBundleItem) * list MatchOrdersBundleItem) :=
  reduce_indexed matchOrdersReducer bundleItems 0 (Ok ([], [])).

(** ** [getEncoder] *)

Section GetEncoder.

Context {T Args : Type} `{ExtendsBundleItem T}.

Variable signerAddress : string.
Variable bundleItemsToArgs : list T -> Z -> list (option Args).
Variable encodeCallData : Args -> Res string.
Variable verifyBundleItems : list T -> Res (list (WithCurrentPrice T) * list T).

(** The body of the [try] for one bucket. *)
Definition requestOf (args : Args) : Res TransactionRequest :=
  data <- encodeCallData args ;;
  estimate <- await (estimateGas env (contractAddress env) signerAddress data) ;;
  n <- BigNumber_toNumber estimate ;;
  let gasLimit := floorTimes1_2 env n in
  Ok {| to := contractAddress env; gasLimit := gasLimit; data := data;
        tx_chainId := env_chainId env; tx_type := 2 |}.

(** [Promise.all(bundleArgs.map(...))].filter(item => !!item): a bucket
    whose [try] throws yields [undefined] and is filtered out, as is a
    hole. *)
Fixpoint requestsOf (bundleArgs : list (option Args)) : list TransactionRequest :=
  match bundleArgs with
  | [] => []
  | Some args :: rest =>
      match requestOf args with
      | Ok tx => tx :: requestsOf rest
      | Throw _ => requestsOf rest
      end
  | None :: rest => requestsOf rest
  end.

Definition tooBig (txRequest : TransactionRequest) : bool :=
  MAX_GAS_LIMIT env <? gasLimit txRequest.

Definition transactionsTooBig (transactionRequests : list TransactionRequest) : bool :=
  existsb tooBig transactionRequests.

Definition estimatedNumBundles (transactionRequests : list TransactionRequest) : Z :=
  ceilDiv (Z.of_nat (List.length transactionRequests)) (MAX_GAS_LIMIT env).

Definition updatedNumBundles (transactionRequests : list TransactionRequest)
    (numBundles : Z) : Z :=
  if numBundles >=? estimatedNumBundles transactionRequests
  then numBundles * 2
  else estimatedNumBundles transactionRequests.

(** One activation of [buildBundles]: it returns, or calls itself with a
    new [numBundles]. *)
Inductive Activation : Type :=
| Return (txRequests : list TransactionRequest) (invalidBundleItems : list T)
| Recurse (numBundles : Z).

Definition buildBundles_body (bundleItems : list T) (numBundles : Z) : Activation :=
  let bundleArgs := bundleItemsToArgs bundleItems numBundles in
  let transactionRequests := requestsOf bundleArgs in
  if transactionsTooBig transactionRequests
  then Recurse (updatedNumBundles transactionRequests numBundles)
  else Return transactionRequests [].

Fixpoint buildBundles (fuel : nat) (bundleItems : list T) (numBundles : Z)
    : option (list TransactionRequest * list T) :=
  match fuel with
  | O => None
  | S fuel' =>
      match buildBundles_body bundleItems numBundles with
      | Return txRequests invalidBundleItems => Some (txRequests, invalidBundleItems)
      | Recurse numBundles' => buildBundles fuel' bundleItems numBundles'
      end
  end.

(** The encoder up to its last log line: the lists it holds then. *)
Record Validation : Type := {
  invalidBundleItemsFromVerify : list T;
  invalidBundleItemsFromVerifyWithError : list (InvalidBundleItem T);
  invalidBundleItemsAfterNftApproval : list (InvalidBundleItem (WithCurrentPrice T));
  invalidBundleItemsFromCurrencyCheck : list (InvalidBundleItem (WithCurrentPrice T));
  validBundleItems : list (WithCurrentPrice T)
}.

Definition validate (bundleItems : list T) : Res Validation :=
  '(validBundleItemsAfterVerification, invalidFromVerify) <-
    verifyBundleItems bundleItems ;;
  let invalidFromVerifyWithError :=
    map (fun invalidItem =>
           {| invalidItem := invalidItem;
              orderError :=
                {| code := OrderInvalid;
                   error := Text "Order match not valid for one or more orders" |} |})
        invalidFromVerify in
  let '(validBundleItemsAfterNftApproval, invalidAfterNftApproval) :=
    checkNftSellerApprovalAndBalance validBundleItemsAfterVerification in
  let '(validBundleItemsAfterCurrencyCheck, invalidFromCurrencyCheck) :=
    checkNftBuyerApprovalAndBalance validBundleItemsAfterNftApproval in
  Ok {| invalidBundleItemsFromVerify := invalidFromVerify;
        invalidBundleItemsFromVerifyWithError := invalidFromVerifyWithError;
        invalidBundleItemsAfterNftApproval := invalidAfterNftApproval;
        invalidBundleItemsFromCurrencyCheck := invalidFromCurrencyCheck;
        validBundleItems := validBundleItemsAfterCurrencyCheck |}.

(** What the encoder resolves to. *)
Record Encoded : Type := {
  txRequests : list TransactionRequest;
  invalidBundleItems : list T
}.

(** The encoder; [None] when the fuel of [buildBundles] runs out. *)
Definition encoder (fuel : nat) (bundleItems : list T) (minBundleSize : Z)
    : option (Res Encoded) :=
  match validate bundleItems with
  | Throw err => Some (Throw err)
  | Ok v =>
      if Z.of_nat (List.length (validBundleItems v)) <? minBundleSize
      then Some (Ok {| txRequests := [];
                       invalidBundleItems := invalidBundleItemsFromVerify v |})
      else
        match buildBundles fuel (map (@bundleItem T) (validBundleItems v)) 1 with
        | None => None
        | Some (txs, invalidBundleItemsFromBuild) =>
            Some (Ok {| txRequests := txs;
                        invalidBundleItems :=
                          invalidBundleItemsFromVerify v ++ invalidBundleItemsFromBuild |})
        end
  end.

End GetEncoder.

(** ** [getBundleEncoder] *)

Definition matchOrdersEncoder (signerAddress : string) :=
  encoder signerAddress matchOrdersItemsToArgsTransformer
    matchOrdersCallDataEncoder matchOrdersVerifier.

Definition matchOrdersOneToOneEncoder (signerAddress : string) :=
  encoder signerAddress matchOrdersOneToOneItemsToArgsTransformer
    matchOrdersOneToOneCallDataEncoder matchOrdersOneToOneVerifier.

End Exchange.

(** * Part III. Specification-side definitions and sample data *)

(** The flattened NFT set and the match count, written as the specification
    words them: one entry per collection, and the sum over the collections of
    [max 1 (number of tokens)]. *)
Definition spec_chainNftToken (t : OrderItem.Token) : ChainNFTToken :=
  {| tokenId := OrderItem.tokenId t; numTokens := OrderItem.numTokens t |}.

Definition spec_chainNfts (c : OrderItem.Collection) : ChainNFTs :=
  {| collection := OrderItem.collectionAddress c;
     tokens := map spec_chainNftToken (Object_values (OrderItem.tokens c)) |}.

Definition spec_collectionMatches (c : OrderItem.Collection) : Z :=
  Z.max 1 (Z.of_nat (List.length (Object_values (OrderItem.tokens c)))).

Definition spec_numMatches (cs : list OrderItem.Collection) : Z :=
  fold_right Z.add 0 (map spec_collectionMatches cs).

(** Sample documents: a listing and an offer whose constraints are stored as
    JS numbers and hexadecimal strings, a second listing, and matches over
    them. *)
Module Sample.

Definition nft : ChainNFTs :=
  {| collection := "0xc0ffee"; tokens := [ {| tokenId := "7"; numTokens := 1 |} ] |}.

Definition listingOrder : ChainOBOrder :=
  {| isSellOrder := true;
     signer := "0xAB";
     constraints :=
       [ JsNumber 1; JsString "0x0de0b6b3a7640000"; JsString "0x0de0b6b3a7640000";
         JsNumber 1650000000; JsNumber 1660000000; JsNumber 5 ];
     nfts := [nft];
     execParams := ["0xc0"; "0xeeee"];
     extraParams := "0x";
     sig := "0x5e11" |}.

Definition offerOrder : ChainOBOrder :=
  {| isSellOrder := false;
     signer := "0xbb";
     constraints :=
       [ JsNumber 1; JsString "1000000000000000000"; JsString "0x0de0b6b3a7640000";
         JsNumber 1650000000; JsNumber 1660000000; JsNumber 9 ];
     nfts := [nft];
     execParams := ["0xc0"; "0xeeee"];
     extraParams := "0x";
     sig := "0xb0b" |}.

Definition listing : FirestoreOrder.t :=
  {| FirestoreOrder.isSellOrder := true; FirestoreOrder.chainId := "1";
     FirestoreOrder.nonce := JsNumber 5;
     FirestoreOrder.complicationAddress := "0xc0";
     FirestoreOrder.currencyAddress := "0xeeee";
     FirestoreOrder.signedOrder := listingOrder |}.

Definition offer : FirestoreOrder.t :=
  {| FirestoreOrder.isSellOrder := false; FirestoreOrder.chainId := "1";
     FirestoreOrder.nonce := JsNumber 9;
     FirestoreOrder.complicationAddress := "0xc0";
     FirestoreOrder.currencyAddress := "0xeeee";
     FirestoreOrder.signedOrder := offerOrder |}.

Definition orders (id : string) : option FirestoreOrder.t :=
  if String.eqb id "listing-1" then Some listing
  else if String.eqb id "listing-2" then Some listing
  else if String.eqb id "offer-1" then Some offer
  else None.

Definition orderHash (o : ChainOBOrder) : string := ("hash:" ++ sig o)%string.
Definition getExchangeAddress (chain : string) : string := "0xe8c4a96e".

Definition orderItems : JsObject OrderItem.Collection :=
  [ ("0xc0ffee",
     {| OrderItem.collectionAddress := "0xc0ffee";
        OrderItem.tokens :=
          [ ("7", {| OrderItem.tokenId := "7"; OrderItem.numTokens := 1 |}) ] |}) ].

Definition oneToOneMatch : OrderMatch.t :=
  {| OrderMatch.ids := ["listing-1"; "offer-1"]; OrderMatch.orderItems := orderItems;
     OrderMatch.type := Method_MatchOneToOneOrders; OrderMatch.status := Status_Active |}.

Definition matchOrdersMatch : OrderMatch.t :=
  {| OrderMatch.ids := ["listing-1"; "offer-1"]; OrderMatch.orderItems := orderItems;
     OrderMatch.type := Method_MatchOrders; OrderMatch.status := Status_Active |}.

(** Two listings and no offer. *)
Definition twoListingsMatch : OrderMatch.t :=
  {| OrderMatch.ids := ["listing-1"; "listing-2"]; OrderMatch.orderItems := orderItems;
     OrderMatch.type := Method_MatchOrders; OrderMatch.status := Status_Active |}.

(** Two listings and one offer. *)
Definition threeOrdersMatch : OrderMatch.t :=
  {| OrderMatch.ids := ["listing-1"; "listing-2"; "offer-1"];
     OrderMatch.orderItems := orderItems;
     OrderMatch.type := Method_MatchOrders; OrderMatch.status := Status_Active |}.

End Sample.

(** The two lists the [reduce] of a pass builds, result by result. *)
Definition validOf {T : Type} (r : Checked T) : list (WithCurrentPrice T) :=
  match r with
  | IsValid item => [item]
  | IsInvalid _ _ => []
  end.

Definition invalidOf {T : Type} (r : Checked T)
  : list (InvalidBundleItem (WithCurrentPrice T)) :=
  match r with
  | IsValid _ => []
  | IsInvalid item err => [ {| invalidItem := item; orderError := err |} ]
  end.

(** Vocabulary of the statements about the asset passes and the verifier. *)
Section Vocabulary.

Variable JsFloat : Type.
Variable env : Env JsFloat.

(** [currentPrice * 11 / 10] *)
Definition spec_expectedCost (price : Z) : Z := Z.quot (price * 11) 10.

(** A currency passes both checks of the buyer pass. *)
Definition passesCurrency (buyer : string) (price : Z) (currency : string) : Prop :=
  exists allowed balance,
    allowance env currency buyer (contractAddress env) = Fulfilled allowed
    /\ spec_expectedCost price <= allowed
    /\ balanceOf env currency buyer = Fulfilled balance
    /\ spec_expectedCost price <= balance.

(** A token passes the ownership check of the seller pass as the code makes
    it: the signer is compared with the lower-cased owner. *)
Definition ownsToken (signerAddress collectionAddress : string) (t : ChainNFTToken) : Prop :=
  exists ownerOfToken,
    ownerOf env collectionAddress (tokenId t) = Fulfilled ownerOfToken
    /\ signerAddress = toLowerCase ownerOfToken.

(** A collection passes the seller pass. *)
Definition passesCollection (signerAddress : string) (n : ChainNFTs) : Prop :=
  isApprovedForAll env (collection n) signerAddress (contractAddress env) = Fulfilled true
  /\ Forall (ownsToken signerAddress (collection n)) (tokens n).

(** A number [toNumber] can return. *)
Definition safeInteger (z : Z) : Prop := - MAX_SAFE_INTEGER <= z <= MAX_SAFE_INTEGER.

(** The Dutch-auction curve of an order at the timestamp [t], in the
    specification's words: the start and end prices are constraints 1 and 2,
    in ether; the start and end times are constraints 3 and 4, seconds turned
    into milliseconds; the price on the curve is what the library's
    [getOBOrderPrice] answers for them at [t]. *)
Definition curveAt (order : ChainOBOrder) (t price : Z) : Prop :=
  exists startPrice endPrice startTime endTime,
    BigNumber_from (constraint_at order 1) = Ok startPrice
    /\ BigNumber_from (constraint_at order 2) = Ok endPrice
    /\ BigNumber_from (constraint_at order 3) = Ok startTime /\ safeInteger startTime
    /\ BigNumber_from (constraint_at order 4) = Ok endTime /\ safeInteger endTime
    /\ getOBOrderPrice env
         {| startPriceEth := etherOfWei env startPrice;
            startTimeMs := startTime * 1000;
            endPriceEth := etherOfWei env endPrice;
            endTimeMs := endTime * 1000 |} t = Ok price.

(** Both prices of the item at [index] can be computed, each at its own
    reading of the clock. *)
Definition priceable (index : nat) (item : MatchOrdersBundleItem) : Prop :=
  exists sellPrice buyPrice,
    curveAt (sell (matchOrders_base item)) (now env (2 * index)) sellPrice
    /\ curveAt (buy (matchOrders_base item)) (now env (2 * index + 1)) buyPrice.

Definition allPriceable (items : list MatchOrdersBundleItem) : Prop :=
  forall index item, nth_error items index = Some item -> priceable index item.

(** What the verifier holds for a valid item that stood at [index]: the
    smaller of the two prices on the curves. *)
Definition pricedAtMin (index : nat) (v : WithCurrentPrice MatchOrdersBundleItem) : Prop :=
  exists sellPrice buyPrice,
    curveAt (sell (matchOrders_base (bundleItem v))) (now env (2 * index)) sellPrice
    /\ curveAt (buy (matchOrders_base (bundleItem v))) (now env (2 * index + 1)) buyPrice
    /\ currentPrice v = Z.min sellPrice buyPrice.

(** Every valid item stood somewhere in the input and is priced for that
    place. *)
Definition allPricedAtMin (items : list MatchOrdersBundleItem)
    (valid : list (WithCurrentPrice MatchOrdersBundleItem)) : Prop :=
  Forall (fun v => exists index,
              nth_error items index = Some (bundleItem v) /\ pricedAtMin index v) valid.

(** The rejection the encoder attaches to an item its verifier rejected. *)
Definition orderInvalid {T : Type} (item : T) : InvalidBundleItem T :=
  {| invalidItem := item;
     orderError := {| code := OrderInvalid;
                      error := Text "Order match not valid for one or more orders" |} |}.

End Vocabulary.

(** A sample chain, with the answers of the contracts as parameters. *)
Module SampleChain.

Definition signerAddress : string := "0x5197e7".

(** A library curve for the samples: linear between the two prices. *)
Definition linearPrice (props : OBOrderPriceProps Z) (t : Z) : Res Z :=
  if t <=? startTimeMs props then Ok (startPriceEth props)
  else if endTimeMs props <=? t then Ok (endPriceEth props)
  else Ok (startPriceEth props
           + (endPriceEth props - startPriceEth props) * (t - startTimeMs props)
             / (endTimeMs props - startTimeMs props)).

Definition env (verified : Settled bool) (approved : bool) (owner : string)
    (allowed balance : Z) (gas : Settled Z) : Env Z :=
  {| env_chainId := 1;
     contractAddress := "0xe8c4a96e";
     MAX_GAS_LIMIT := 30000000;
     txnCurrencyAddress := "0xeeee";
     now := fun reading => 1655000000000 + Z.of_nat reading;
     etherOfWei := fun wei => wei;
     getOBOrderPrice := linearPrice;
     floorTimes1_2 := fun n => n * 6 / 5;
     encode_matchOrders := fun args => Ok "0xa11c";
     encode_matchOneToOneOrders := fun args => Ok "0x0121";
     verifyMatchOrders := fun sellHash buyHash sellOrder buyOrder => verified;
     isApprovedForAll := fun collectionAddress owner operator => Fulfilled approved;
     ownerOf := fun collectionAddress token => Fulfilled owner;
     allowance := fun currency owner spender => Fulfilled allowed;
     balanceOf := fun currency owner => Fulfilled balance;
     estimateGas := fun toAddress fromAddress calldata => gas |}.

Definition order (isSell : bool) (signedBy last sigOf : string) : ChainOBOrder :=
  {| isSellOrder := isSell; signer := signedBy;
     constraints :=
       [ JsString "1"; JsString "1000000000000000000"; JsString "1000000000000000000";
         JsString "1650000000"; JsString "1660000000"; JsString last ];
     nfts := [Sample.nft]; execParams := ["0xc0"; "0xeeee"];
     extraParams := "0x"; sig := sigOf |}.

(** An item named [name] whose listing is signed by [seller]. *)
Definition baseItem (name seller : string) : BaseBundleItem :=
  {| id := name; chainId := "1"; exchangeAddress := "0xe8c4a96e";
     sell := order true seller "5" "0x5e11";
     buy := order false "0xbb" "9" "0xb0b";
     buyOrderHash := "hash:0xb0b"; sellOrderHash := "hash:0x5e11" |}.

Definition item (name seller : string) : MatchOrdersBundleItem :=
  {| matchOrders_base := baseItem name seller;
     constructed :=
       {| isSellOrder := false; signer := seller;
          constraints :=
            [ JsNumber 1; JsString "1000000000000000000"; JsString "1000000000000000000";
              JsNumber 1650000000; JsNumber 1660000000; JsNumber 9 ];
          nfts := [Sample.nft]; execParams := ["0xc0"; "0xeeee"];
          extraParams := "0x"; sig := "0x5e11" |} |}.

(** An item as the builder leaves it, but for the end time of its sell
    order: 2^53 seconds, one past the safe integers. *)
Definition lateItem : MatchOrdersBundleItem :=
  {| matchOrders_base :=
       {| id := "m2"; chainId := "1"; exchangeAddress := "0xe8c4a96e";
          sell := with_constraints (order true "0xab" "5" "0x5e11")
                    [ JsString "1"; JsString "1000000000000000000";
                      JsString "1000000000000000000"; JsString "1650000000";
                      JsString "9007199254740992"; JsString "5" ];
          buy := order false "0xbb" "9" "0xb0b";
          buyOrderHash := "hash:0xb0b"; sellOrderHash := "hash:0x5e11" |};
     constructed := constructed (item "m2" "0xab") |}.

Definition oneToOneItem (name seller : string) : MatchOrdersOneToOneBundleItem :=
  {| oneToOne_base := baseItem name seller |}.

Definition priced {T : Type} (i : T) : WithCurrentPrice T :=
  {| bundleItem := i; currentPrice := 1000000000000000000 |}.

Definition Wei : Z := 1000000000000000000.

(** Everything in order: the pair verifies, the owner of the token is the
    seller and has approved, the buyer can pay, the gas fits. *)
Definition healthy : Env Z :=
  env (Fulfilled true) true "0xAB" (2 * Wei) (2 * Wei) (Fulfilled 200000).

(** Every gas estimate is 50,000,000: with the 1.2 factor, twice the ceiling. *)
Definition oversize : Env Z :=
  env (Fulfilled true) true "0xAB" (2 * Wei) (2 * Wei) (Fulfilled 50000000).

(** The estimate depends on the call: 200,000 for a call with one pair of
    orders, 50,000,000 for a call with more. *)
Definition crowded : Env Z :=
  {| env_chainId := 1;
     contractAddress := "0xe8c4a96e";
     MAX_GAS_LIMIT := 30000000;
     txnCurrencyAddress := "0xeeee";
     now := fun reading => 1655000000000 + Z.of_nat reading;
     etherOfWei := fun wei => wei;
     getOBOrderPrice := linearPrice;
     floorTimes1_2 := fun n => n * 6 / 5;
     encode_matchOrders :=
       fun args => Ok (if (List.length (fst (fst args)) <=? 1)%nat
                       then "0xa11c" else "0xa11c0002");
     encode_matchOneToOneOrders := fun args => Ok "0x0121";
     verifyMatchOrders := fun sellHash buyHash sellOrder buyOrder => Fulfilled true;
     isApprovedForAll := fun collectionAddress owner operator => Fulfilled true;
     ownerOf := fun collectionAddress token => Fulfilled "0xAB";
     allowance := fun currency owner spender => Fulfilled (2 * Wei);
     balanceOf := fun currency owner => Fulfilled (2 * Wei);
     estimateGas :=
       fun toAddress fromAddress calldata =>
         if String.eqb calldata "0xa11c" then Fulfilled 200000 else Fulfilled 50000000 |}.

(** The seller has not approved the exchange. *)
Definition unapproved : Env Z :=
  env (Fulfilled true) false "0xAB" (2 * Wei) (2 * Wei) (Fulfilled 200000).

(** The buyer's allowance is one wei short of the expected cost. *)
Definition shortAllowance : Env Z :=
  env (Fulfilled true) true "0xAB" (1100000000000000000 - 1) (2 * Wei) (Fulfilled 200000).

(** The buyer's balance is one wei short of the expected cost. *)
Definition shortBalance : Env Z :=
  env (Fulfilled true) true "0xAB" (2 * Wei) (1100000000000000000 - 1) (Fulfilled 200000).

(** Gas estimation fails. *)
Definition gasFails : Env Z :=
  env (Fulfilled true) true "0xAB" (2 * Wei) (2 * Wei) (Rejected "execution reverted").

(** The exchange answers [false], or the call fails. *)
Definition unverified : Env Z :=
  env (Fulfilled false) true "0xAB" (2 * Wei) (2 * Wei) (Fulfilled 200000).

Definition verifyFails : Env Z :=
  env (Rejected "call exception") true "0xAB" (2 * Wei) (2 * Wei) (Fulfilled 200000).

Definition request (gas : Z) : TransactionRequest :=
  {| to := "0xe8c4a96e"; gasLimit := gas; data := "0xa11c"; tx_chainId := 1; tx_type := 2 |}.

End SampleChain.

(** * Vocabulary of the further properties *)

(** A flattened collection without tokens: a collection-level match. *)
Definition noTokens (n : ChainNFTs) : bool :=
  match tokens n with
  | [] => true
  | _ :: _ => false
  end.

(** The elements of [l], the first of which has index [i], whose index is
    [j] modulo [k]: what round-robin over [k] buckets sends to bucket [j]. *)
Fixpoint bucketItems {A : Type} (l : list A) (i k j : nat) : list A :=
  match l with
  | [] => []
  | x :: t =>
      if (i mod k =? j)%nat then x :: bucketItems t (S i) k j
      else bucketItems t (S i) k j
  end.

(** The arguments of one contract call for a list of items. *)
Definition matchOrdersArgsOf (items : list MatchOrdersBundleItem) : MatchOrdersArgs :=
  (map (fun item => sell (matchOrders_base item)) items,
   map (fun item => buy (matchOrders_base item)) items,
   map (fun item => nfts (constructed item)) items).

Definition oneToOneArgsOf (items : list MatchOrdersOneToOneBundleItem)
  : MatchOrdersOneToOneArgs :=
  (map (fun item => sell (oneToOne_base item)) items,
   map (fun item => buy (oneToOne_base item)) items).

(** The bucket at a slot, [emptyBundle] for a hole or a slot past the end. *)
Definition bucketOf (acc : list (option Bundle)) (j : nat) : Bundle :=
  match get_at acc j with
  | Some b => b
  | None => emptyBundle
  end.

(** The callback of the two transformers, for a positive bundle count [k] and
    with [push] what it appends to a bucket. *)
Definition place {A : Type} (k : nat) (push : Bundle -> A -> Bundle)
    (acc : list (option Bundle)) (x : A) (i : nat) : list (option Bundle) :=
  set_at acc (i mod k) (push (bucketOf acc (i mod k)) x).

Definition pushMatchOrders (bundle : Bundle) (bundleItem : MatchOrdersBundleItem) : Bundle :=
  {| sells := sells bundle ++ [sell (matchOrders_base bundleItem)];
     buys := buys bundle ++ [buy (matchOrders_base bundleItem)];
     constructeds := constructeds bundle ++ [nfts (constructed bundleItem)] |}.

Definition pushOneToOne (bundle : Bundle) (bundleItem : MatchOrdersOneToOneBundleItem)
  : Bundle :=
  {| sells := sells bundle ++ [sell (oneToOne_base bundleItem)];
     buys := buys bundle ++ [buy (oneToOne_base bundleItem)];
     constructeds := constructeds bundle |}.

Definition isSome {A : Type} (o : option A) : Prop := o <> None.

(** The sell orders, the buy orders and the constructed NFT sets of one
    call's arguments; nothing for a hole. *)
Definition sellsOfCall (args : option MatchOrdersArgs) : list ChainOBOrder :=
  match args with Some (s, _, _) => s | None => [] end.

Definition buysOfCall (args : option MatchOrdersArgs) : list ChainOBOrder :=
  match args with Some (_, b, _) => b | None => [] end.

Definition constructedOfCall (args : option MatchOrdersArgs) : list (list ChainNFTs) :=
  match args with Some (_, _, c) => c | None => [] end.

Definition sellsOfOneToOneCall (args : option MatchOrdersOneToOneArgs) : list ChainOBOrder :=
  match args with Some (s, _) => s | None => [] end.

Definition buysOfOneToOneCall (args : option MatchOrdersOneToOneArgs) : list ChainOBOrder :=
  match args with Some (_, b) => b | None => [] end.

(** What one returned transaction request says about the bucket it was built
    from. *)
Definition requestDescribes {JsFloat Args : Type} (env : Env JsFloat) (signerAddress : string)
    (encodeCallData : Args -> Res string) (bundleArgs : list (option Args))
    (tx : TransactionRequest) : Prop :=
  to tx = contractAddress env
  /\ tx_type tx = 2
  /\ tx_chainId tx = env_chainId env
  /\ exists args estimate,
       In (Some args) bundleArgs
       /\ encodeCallData args = Ok (data tx)
       /\ estimateGas env (contractAddress env) signerAddress (data tx) = Fulfilled estimate
       /\ gasLimit tx = floorTimes1_2 env estimate.


(** Whether a pass found an item valid. *)
Definition passed {T : Type} (r : Checked T) : bool :=
  match r with
  | IsValid _ => true
  | IsInvalid _ _ => false
  end.

(** The item a pass result is about. *)
Definition checkedItem {T : Type} (r : Checked T) : WithCurrentPrice T :=
  match r with
  | IsValid item => item
  | IsInvalid item _ => item
  end.

(** The codes the seller pass and the buyer pass can attach. *)
Definition sellerCode (c : FirestoreOrderMatchErrorCode) : Prop :=
  c = NotApprovedToTransferToken \/ c = InsufficientTokenBalance \/ c = UnknownError.

Definition buyerCode (c : FirestoreOrderMatchErrorCode) : Prop :=
  c = InsufficientCurrencyAllowance \/ c = InsufficientCurrencyBalance \/ c = UnknownError.

(** The buyer can pay [price] itself in a currency: allowance and balance
    are both at least the price. *)
Definition coversPrice {JsFloat : Type} (env : Env JsFloat) (buyer : string) (price : Z)
    (currency : string) : Prop :=
  exists allowed balance,
    allowance env currency buyer (contractAddress env) = Fulfilled allowed
    /\ price <= allowed
    /\ balanceOf env currency buyer = Fulfilled balance
    /\ price <= balance.

(** The rejection of an item whose check threw. *)
Definition unknownError (message : string) : OrderError :=
  {| code := UnknownError; error := Text message |}.

(** Sample chains on which a call fails, and an item whose buy order names
    no currency. *)
Module SampleFailures.

Definition env (approved : Settled bool) (owner : Settled string)
    (allowed balance : Settled Z) : Env Z :=
  {| env_chainId := 1;
     contractAddress := "0xe8c4a96e";
     MAX_GAS_LIMIT := 30000000;
     txnCurrencyAddress := "0xeeee";
     now := fun reading => 1655000000000 + Z.of_nat reading;
     etherOfWei := fun wei => wei;
     getOBOrderPrice := SampleChain.linearPrice;
     floorTimes1_2 := fun n => n * 6 / 5;
     encode_matchOrders := fun args => Ok "0xa11c";
     encode_matchOneToOneOrders := fun args => Ok "0x0121";
     verifyMatchOrders := fun sellHash buyHash sellOrder buyOrder => Fulfilled true;
     isApprovedForAll := fun collectionAddress owner operator => approved;
     ownerOf := fun collectionAddress token => owner;
     allowance := fun currency owner spender => allowed;
     balanceOf := fun currency owner => balance;
     estimateGas := fun toAddress fromAddress calldata => Fulfilled 200000 |}.

Definition approvalFails : Env Z :=
  env (Rejected "timeout") (Fulfilled "0xAB") (Fulfilled 0) (Fulfilled 0).

Definition ownerFails : Env Z :=
  env (Fulfilled true) (Rejected "timeout") (Fulfilled 0) (Fulfilled 0).

Definition allowanceFails : Env Z :=
  env (Fulfilled true) (Fulfilled "0xAB") (Rejected "timeout") (Fulfilled 0).

Definition balanceFails : Env Z :=
  env (Fulfilled true) (Fulfilled "0xAB") (Fulfilled 2000000000000000000) (Rejected "timeout").

(** The sample item with an empty [execParams] on its buy order. *)
Definition noCurrency : MatchOrdersOneToOneBundleItem :=
  {| oneToOne_base :=
       {| id := "m1"; chainId := "1"; exchangeAddress := "0xe8c4a96e";
          sell := SampleChain.order true "0xab" "5" "0x5e11";
          buy := {| isSellOrder := false; signer := "0xbb";
                    constraints := constraints (SampleChain.order false "0xbb" "9" "0xb0b");
                    nfts := [Sample.nft]; execParams := [];
                    extraParams := "0x"; sig := "0xb0b" |};
          buyOrderHash := "hash:0xb0b"; sellOrderHash := "hash:0x5e11" |} |}.

End SampleFailures.

(** What every transaction request the encoder returns satisfies. *)
Definition wellFormedRequest {JsFloat : Type} (env : Env JsFloat) (tx : TransactionRequest)
  : Prop :=
  gasLimit tx <= MAX_GAS_LIMIT env
  /\ to tx = contractAddress env
  /\ tx_type tx = 2
  /\ tx_chainId tx = env_chainId env.

(** The bookkeeping of the encoder before packing: the four lists account
    for the input, with the codes of each stage. *)
Definition accountsFor {JsFloat T : Type} `{ExtendsBundleItem T} (env : Env JsFloat)
    (items : list T) (v : @Validation T) : Prop :=
  (List.length (invalidBundleItemsFromVerify v)
   + List.length (invalidBundleItemsAfterNftApproval v)
   + List.length (invalidBundleItemsFromCurrencyCheck v)
   + List.length (validBundleItems v) = List.length items)%nat
  /\ map (@invalidItem _) (invalidBundleItemsFromVerifyWithError v)
     = invalidBundleItemsFromVerify v
  /\ Forall (fun r => code (orderError r) = OrderInvalid)
            (invalidBundleItemsFromVerifyWithError v)
  /\ Forall (fun r => sellerCode (code (orderError r)))
            (invalidBundleItemsAfterNftApproval v)
  /\ Forall (fun r => buyerCode (code (orderError r)))
            (invalidBundleItemsFromCurrencyCheck v)
  /\ Forall (fun b => checkSeller env b = IsValid b /\ checkBuyer env b = IsValid b)
            (validBundleItems v).

(** * The exchange object ([InfinityExchange]'s constructor and look-ups) *)

(** The class keeps one contract per chain of the [providers] record it is
    constructed with. The record is a [JsObject]: its entries in the order of
    [Object.entries], with distinct keys. The [Map] of contracts is the list
    of its entries in insertion order; [Map.prototype.set] overwrites the
    entry of a key already present, where it stands, and appends a new key. *)
Module InfinityExchange.

Section Class.

Variable JsonRpcProvider : Type.

(** [getExchangeAddress] of [@infinityxyz/lib/utils/orders], typed as
    returning a string; the empty string is the falsy one. *)
Variable lib_getExchangeAddress : string -> string.

(** [new Contract(address, abi, provider)] stores the address and the provider
    as given; the ABI is a constant of the repository. *)
Record Contract : Type := {
  address : string;
  provider : JsonRpcProvider
}.

Definition JsMap (V : Type) : Type := list (string * V).

Fixpoint entry_at {V : Type} (entries : list (string * V)) (key : string) : option V :=
  match entries with
  | [] => None
  | (k, v) :: rest => if String.eqb k key then Some v else entry_at rest key
  end.

Fixpoint Map_set {V : Type} (m : JsMap V) (key : string) (value : V) : JsMap V :=
  match m with
  | [] => [(key, value)]
  | (k, v) :: rest =>
      if String.eqb k key then (key, value) :: rest else (k, v) :: Map_set rest key value
  end.

Definition Map_get {V : Type} (m : JsMap V) (key : string) : option V := entry_at m key.

Definition Map_values {V : Type} (m : JsMap V) : list V := map snd m.

Definition Object_entries {V : Type} (o : JsObject V) : list (string * V) := o.

(** [providers[chainId]] *)
Definition Object_get {V : Type} (o : JsObject V) (key : string) : option V := entry_at o key.

Record t : Type := {
  providers : JsObject JsonRpcProvider;
  contracts : JsMap Contract
}.

(** The static method. *)
Definition getExchangeAddress (chainId : string) : Res string :=
  let exchangeAddress := lib_getExchangeAddress chainId in
  if String.eqb exchangeAddress ""
  then Throw ("No exchange address for chainId: " ++ chainId)%string
  else Ok exchangeAddress.

(** One turn of the constructor's loop. *)
Definition addContract (contracts : Res (JsMap Contract)) (entry : string * JsonRpcProvider)
  : Res (JsMap Contract) :=
  let '(chainId, provider) := entry in
  m <- contracts ;;
  exchangeAddress <- getExchangeAddress chainId ;;
  Ok (Map_set m chainId {| address := exchangeAddress; provider := provider |}).

(** The constructor. *)
Definition new (providers : JsObject JsonRpcProvider) : Res t :=
  contracts <- fold_left addContract (Object_entries providers) (Ok []) ;;
  Ok {| providers := providers; contracts := contracts |}.

Definition exchangeAddresses (this : t) : list string :=
  map address (Map_values (contracts this)).

Definition getProvider (this : t) (chainId : string) : Res JsonRpcProvider :=
  match Object_get (providers this) chainId with
  | Some provider => Ok provider
  | None => Throw ("No provider for chainId: " ++ chainId)%string
  end.

Definition getContract (this : t) (chainId : string) : Res Contract :=
  match Map_get (contracts this) chainId with
  | Some contract => Ok contract
  | None => Throw ("No exchange contract for chainId: " ++ chainId)%string
  end.

(** The first two statements of [getEncoder]: the contract, then the provider,
    of the chain the encoder is asked for. *)
Definition getEncoder_lookup (this : t) (chainId : string) : Res (Contract * JsonRpcProvider) :=
  contract <- getContract this chainId ;;
  provider <- getProvider this chainId ;;
  Ok (contract, provider).

(** The contract the constructor makes for an entry that has an address. *)
Definition contractOf (entry : string * JsonRpcProvider) : string * Contract :=
  (fst entry, {| address := lib_getExchangeAddress (fst entry); provider := snd entry |}).

Definition hasExchangeAddress (entry : string * JsonRpcProvider) : Prop :=
  lib_getExchangeAddress (fst entry) <> "".

End Class.

End InfinityExchange.

(** Two chains with an exchange, a third without. *)
Module SampleExchange.

Definition lib_getExchangeAddress (chainId : string) : string :=
  if String.eqb chainId "1" then "0xe8c4a96e"
  else if String.eqb chainId "5" then "0x0f0d2dc1"
  else "".

Definition providers : JsObject string :=
  [("1", "https://mainnet.example"); ("5", "https://goerli.example")].

Definition exchange : InfinityExchange.t string :=
  {| InfinityExchange.providers := providers;
     InfinityExchange.contracts :=
       [ ("1", {| InfinityExchange.address := "0xe8c4a96e";
                  InfinityExchange.provider := "https://mainnet.example" |});
         ("5", {| InfinityExchange.address := "0x0f0d2dc1";
                  InfinityExchange.provider := "https://goerli.example" |}) ] |}.

End SampleExchange.

(** * Part IV. Properties *)

(** ** Big numbers and canonical decimal strings *)

Example normalize_hex : normalize (JsString "0x1F") = Ok (JsString "31").
Proof. reflexivity. Qed.

Example normalize_padded : normalize (JsString "007") = Ok (JsString "7").
Proof. reflexivity. Qed.

Example normalize_number : normalize (JsNumber 12) = Ok (JsString "12").
Proof. reflexivity. Qed.

Example canonical_examples :
  is_canonical (JsString "31") = true /\ is_canonical (JsString "007") = false /\
  is_canonical (JsNumber 31) = false /\ is_canonical (JsString "0x1f") = false.
Proof. repeat split; reflexivity. Qed.

Lemma parseDecimal_toString (z : Z) : parseDecimal (BigNumber_toString z) = Some z.
Proof.
  unfold parseDecimal, BigNumber_toString.
  rewrite DecimalString.NilZero.isi.
  - simpl. now rewrite DecimalZ.of_to.
  - destruct z; simpl; try discriminate.
    intros [= E]. now apply DecimalPos.Unsigned.to_uint_nonnil in E.
  - destruct z; simpl; try discriminate.
    intros [= E]. now apply DecimalPos.Unsigned.to_uint_nonnil in E.
Qed.

Lemma toString_canonical (z : Z) : is_canonical (JsString (BigNumber_toString z)) = true.
Proof.
  unfold is_canonical. rewrite parseDecimal_toString. apply String.eqb_refl.
Qed.

Lemma normalize_canonical (v w : BigNumberish) :
  normalize v = Ok w -> is_canonical w = true.
Proof.
  unfold normalize. destruct (BigNumber_from v) as [z|m]; simpl; [|discriminate].
  intros [= <-]. apply toString_canonical.
Qed.

(** ** The builder: flattening *)

Lemma flattenToken_fold (toks : list OrderItem.Token) (acc : list ChainNFTToken) (n : Z) :
  fold_left flattenToken toks (acc, n)
  = (acc ++ map spec_chainNftToken toks, n + Z.of_nat (List.length toks)).
Proof.
  revert acc n. induction toks as [|t toks IH]; intros acc n.
  - cbn [fold_left map List.length]. now rewrite app_nil_r, Z.add_0_r.
  - cbn [fold_left]. unfold flattenToken at 2. cbn [fst snd].
    rewrite IH. cbn [map List.length]. rewrite <- app_assoc. cbn [app].
    f_equal. lia.
Qed.

Lemma flattenCollection_step (acc : list ChainNFTs) (n : Z) (c : OrderItem.Collection) :
  flattenCollection (acc, n) c = (acc ++ [spec_chainNfts c], n + spec_collectionMatches c).
Proof.
  unfold flattenCollection. rewrite flattenToken_fold. cbn [app fst snd].
  unfold spec_chainNfts, spec_collectionMatches. f_equal.
  rewrite Z.add_0_l.
  destruct (Z.eqb_spec (Z.of_nat (List.length (Object_values (OrderItem.tokens c)))) 0); lia.
Qed.

Lemma flattenCollection_fold (cs : list OrderItem.Collection) (acc : list ChainNFTs) (n : Z) :
  fold_left flattenCollection cs (acc, n)
  = (acc ++ map spec_chainNfts cs, n + spec_numMatches cs).
Proof.
  revert acc n. induction cs as [|c cs IH]; intros acc n.
  - cbn. now rewrite app_nil_r, Z.add_0_r.
  - cbn [fold_left]. rewrite flattenCollection_step, IH.
    cbn [map]. rewrite <- app_assoc. cbn [app].
    unfold spec_numMatches. cbn [map fold_right]. f_equal. lia.
Qed.

(** C9. For every match document the flattening loop of [createBundleItem]
    emits exactly one [{collection, tokens}] entry per collection of
    [orderItems], in the order of the collections and also for a collection
    without tokens, and the [numMatches] it accumulates is the sum over the
    collections of [max 1 (number of tokens)]. *)
Theorem flatten_numMatches : forall m : OrderMatch.t,
  let collections := Object_values (OrderMatch.orderItems m) in
  fst (flatten m) = map spec_chainNfts collections
  /\ List.length (fst (flatten m)) = List.length (OrderMatch.orderItems m)
  /\ map collection (fst (flatten m)) = map OrderItem.collectionAddress collections
  /\ snd (flatten m) = spec_numMatches collections.
Proof.
  intros m collections. unfold flatten. fold collections.
  rewrite flattenCollection_fold. cbn [fst snd]. rewrite app_nil_l, Z.add_0_l.
  repeat split.
  - subst collections. unfold Object_values. now rewrite !List.length_map.
  - rewrite map_map. reflexivity.
Qed.

Example flatten_empty_collection :
  flatten {| OrderMatch.ids := []; OrderMatch.type := Method_MatchOrders;
             OrderMatch.status := Status_Active;
             OrderMatch.orderItems :=
               [ ("0xc1", {| OrderItem.collectionAddress := "0xc1"; OrderItem.tokens := [] |});
                 ("0xc2", {| OrderItem.collectionAddress := "0xc2";
                             OrderItem.tokens :=
                               [ ("7", {| OrderItem.tokenId := "7"; OrderItem.numTokens := 1 |});
                                 ("9", {| OrderItem.tokenId := "9"; OrderItem.numTokens := 1 |}) ] |}) ] |}
  = ([ {| collection := "0xc1"; tokens := [] |};
       {| collection := "0xc2";
          tokens := [ {| tokenId := "7"; numTokens := 1 |}; {| tokenId := "9"; numTokens := 1 |} ] |} ],
     3).
Proof. reflexivity. Qed.

(** ** The builder: the constructed order and the normalization *)

Lemma mapM_length {A B : Type} (f : A -> Res B) (l : list A) (l' : list B) :
  mapM f l = Ok l' -> List.length l' = List.length l.
Proof.
  revert l'. induction l as [|x l IH]; intros l'; cbn [mapM].
  - now intros [= <-].
  - destruct (f x) as [y|]; cbn [bind]; [|discriminate].
    destruct (mapM f l) as [ys|]; cbn [bind]; [|discriminate].
    intros [= <-]. cbn [List.length]. now rewrite (IH ys).
Qed.

Lemma mapM_nth {A B : Type} (f : A -> Res B) (l : list A) (l' : list B) (i : nat) (d : A) (d' : B) :
  mapM f l = Ok l' -> (i < List.length l)%nat -> f (nth i l d) = Ok (nth i l' d').
Proof.
  revert l' i. induction l as [|x l IH]; intros l' i; cbn [mapM List.length].
  - lia.
  - destruct (f x) as [y|] eqn:Ey; cbn [bind]; [|discriminate].
    destruct (mapM f l) as [ys|]; cbn [bind]; [|discriminate].
    intros [= <-] Hi. destruct i as [|i]; cbn [nth]; [assumption|].
    apply IH; [reflexivity | lia].
Qed.

Lemma mapM_Forall {A B : Type} (f : A -> Res B) (P : B -> Prop) (l : list A) (l' : list B) :
  (forall x y, f x = Ok y -> P y) -> mapM f l = Ok l' -> Forall P l'.
Proof.
  intros Hf. revert l'. induction l as [|x l IH]; intros l'; cbn [mapM].
  - intros [= <-]. constructor.
  - destruct (f x) as [y|] eqn:Ey; cbn [bind]; [|discriminate].
    destruct (mapM f l) as [ys|]; cbn [bind]; [|discriminate].
    intros [= <-]. constructor; eauto.
Qed.

Section BuilderProperties.

Variable orders : string -> option FirestoreOrder.t.
Variable orderHash : ChainOBOrder -> string.
Variable getExchangeAddress : string -> string.

(** On the [MatchOrders] path both signed orders of the returned item hold
    canonical decimal strings only. *)
Lemma getMatchOrdersBundle_normalized id listing offer numMatches chainNfts item :
  getMatchOrdersBundle orderHash getExchangeAddress id listing offer numMatches chainNfts
    = Ok item ->
  forallb is_canonical (constraints (sell (matchOrders_base item))) = true
  /\ forallb is_canonical (constraints (buy (matchOrders_base item))) = true.
Proof.
  unfold getMatchOrdersBundle.
  destruct (normalize (constraint_at (FirestoreOrder.signedOrder offer) 1)); cbn [bind]; [|discriminate].
  destruct (normalize (constraint_at (FirestoreOrder.signedOrder offer) 2)); cbn [bind]; [|discriminate].
  destruct (mapM normalize (constraints (FirestoreOrder.signedOrder listing))) as [lc|] eqn:El;
    cbn [bind]; [|discriminate].
  destruct (mapM normalize (constraints (FirestoreOrder.signedOrder offer))) as [oc|] eqn:Eo;
    cbn [bind]; [|discriminate].
  intros [= <-]. cbn.
  split; apply forallb_forall; apply Forall_forall.
  - exact (mapM_Forall _ (fun w => is_canonical w = true) _ normalize_canonical El).
  - exact (mapM_Forall _ (fun w => is_canonical w = true) _ normalize_canonical Eo).
Qed.

(** C10. For every [MatchOrders] match whose orders hold numbers the
    builder can read, the constructed order has [isSellOrder = false]; its
    signer, extraParams and signature are those of the listing's signed
    order and its execParams are the listing's complication and currency
    addresses; its constraints are [numMatches] at position 0, the offer's
    (normalized) constraints 1 and 2, the offer's constraints 3 and 4, and
    the offer's nonce at position 5. *)
Theorem constructed_order_fields :
  forall id listing offer numMatches chainNfts listingConstraints offerConstraints,
    mapM normalize (constraints (FirestoreOrder.signedOrder listing)) = Ok listingConstraints ->
    mapM normalize (constraints (FirestoreOrder.signedOrder offer)) = Ok offerConstraints ->
    (3 <= List.length (constraints (FirestoreOrder.signedOrder offer)))%nat ->
    exists item,
      getMatchOrdersBundle orderHash getExchangeAddress id listing offer numMatches chainNfts
        = Ok item
      /\ buy (matchOrders_base item)
         = with_constraints (FirestoreOrder.signedOrder offer) offerConstraints
      /\ constructed item
         = {| isSellOrder := false;
              signer := signer (FirestoreOrder.signedOrder listing);
              constraints :=
                [ JsNumber numMatches;
                  nth 1 offerConstraints JsUndefined;
                  nth 2 offerConstraints JsUndefined;
                  constraint_at (FirestoreOrder.signedOrder offer) 3;
                  constraint_at (FirestoreOrder.signedOrder offer) 4;
                  FirestoreOrder.nonce offer ];
              nfts := chainNfts;
              execParams := [ FirestoreOrder.complicationAddress listing;
                              FirestoreOrder.currencyAddress listing ];
              extraParams := extraParams (FirestoreOrder.signedOrder listing);
              sig := sig (FirestoreOrder.signedOrder listing) |}.
Proof.
  intros id listing offer numMatches chainNfts lc oc Hl Ho Hlen.
  unfold getMatchOrdersBundle, constraint_at.
  rewrite (@mapM_nth _ _ normalize _ _ 1%nat JsUndefined JsUndefined Ho) by lia.
  rewrite (@mapM_nth _ _ normalize _ _ 2%nat JsUndefined JsUndefined Ho) by lia.
  cbn [bind]. rewrite Hl, Ho. cbn [bind].
  eexists. split; [reflexivity|]. split; reflexivity.
Qed.

(** ** The builder: reading the two orders *)

Lemma filter_listing_head (l : list (option FirestoreOrder.t)) :
  filter is_listing l <> [] ->
  exists d rest, filter is_listing l = Some d :: rest.
Proof.
  destruct (filter is_listing l) as [|o rest] eqn:E; [congruence|]. intros _.
  assert (In o (filter is_listing l)) as Hin by (rewrite E; now left).
  apply filter_In in Hin. destruct Hin as [_ Ho].
  destruct o as [d|]; [eauto | discriminate].
Qed.

Lemma filter_offer_head (l : list (option FirestoreOrder.t)) :
  filter is_offer l <> [] ->
  exists d rest, filter is_offer l = Some d :: rest.
Proof.
  destruct (filter is_offer l) as [|o rest] eqn:E; [congruence|]. intros _.
  assert (In o (filter is_offer l)) as Hin by (rewrite E; now left).
  apply filter_In in Hin. destruct Hin as [_ Ho].
  destruct o as [d|]; [eauto | discriminate].
Qed.

Lemma getOrders_missing (m : OrderMatch.t) :
  listingsOf orders m = [] \/ offersOf orders m = [] -> getOrders orders m = Throw OrderNotFound.
Proof.
  unfold getOrders, listingsOf, offersOf. intros [-> | ->]; cbn [nth_error].
  - reflexivity.
  - destruct (filter is_listing _) as [|[d|] rest]; reflexivity.
Qed.

Lemma getOrders_multiple (m : OrderMatch.t) :
  listingsOf orders m <> [] -> offersOf orders m <> [] ->
  (1 < List.length (listingsOf orders m) \/ 1 < List.length (offersOf orders m))%nat ->
  getOrders orders m = Throw MultipleOrders.
Proof.
  unfold getOrders, listingsOf, offersOf. intros Hl Ho Hmany.
  destruct (filter_listing_head _ Hl) as (dl & rl & El).
  destruct (filter_offer_head _ Ho) as (do & ro & Eo).
  rewrite El, Eo in *. cbn [nth_error].
  destruct Hmany as [Hm | Hm].
  - apply Nat.ltb_lt in Hm. now rewrite Hm.
  - apply Nat.ltb_lt in Hm. rewrite Hm. now rewrite orb_true_r.
Qed.

(** C8, as the code has it. A match whose batched read yields no listing or
    no offer fails with 'Order not found', whatever the size of the other
    partition; a match with at least one listing and one offer and more than
    one of either fails with 'Multiple orders are not yet supported'; and an
    error during the build is written to the console and nothing else
    happens: no event is emitted and no state is written to the match. *)
Theorem build_errors_are_logged : forall (id : string) (m : OrderMatch.t),
  OrderMatch.status m = Status_Active ->
  (listingsOf orders m = [] \/ offersOf orders m = [] ->
     buildUpdate orders orderHash getExchangeAddress id m = Throw OrderNotFound)
  /\ (listingsOf orders m <> [] -> offersOf orders m <> [] ->
      (1 < List.length (listingsOf orders m) \/ 1 < List.length (offersOf orders m))%nat ->
      buildUpdate orders orderHash getExchangeAddress id m = Throw MultipleOrders)
  /\ (forall err, buildUpdate orders orderHash getExchangeAddress id m = Throw err ->
      handleOrderMatchUpdate orders orderHash getExchangeAddress id m = [ConsoleError err]).
Proof.
  intros id m Hactive. unfold buildUpdate. rewrite Hactive. repeat split.
  - intros H. rewrite getOrders_missing; [reflexivity | exact H].
  - intros Hl Ho Hm.
    rewrite getOrders_multiple; [reflexivity | exact Hl | exact Ho | exact Hm].
  - intros err H. unfold handleOrderMatchUpdate, buildUpdate. rewrite Hactive.
    now rewrite H.
Qed.

End BuilderProperties.

(** The sample listing and offer: hexadecimal strings and JS numbers are read,
    and the constructed order is as stated. *)
Lemma constructed_order_fields_witness :
  mapM normalize (constraints Sample.listingOrder)
    = Ok [ JsString "1"; JsString "1000000000000000000"; JsString "1000000000000000000";
           JsString "1650000000"; JsString "1660000000"; JsString "5" ]
  /\ exists item,
       getMatchOrdersBundle Sample.orderHash Sample.getExchangeAddress "m1"
         Sample.listing Sample.offer 1 [Sample.nft] = Ok item
       /\ buy (matchOrders_base item)
          = with_constraints Sample.offerOrder
              [ JsString "1"; JsString "1000000000000000000"; JsString "1000000000000000000";
                JsString "1650000000"; JsString "1660000000"; JsString "9" ]
       /\ constructed item
          = {| isSellOrder := false;
               signer := "0xAB";
               constraints :=
                 [ JsNumber 1; JsString "1000000000000000000"; JsString "1000000000000000000";
                   JsNumber 1650000000; JsNumber 1660000000; JsNumber 9 ];
               nfts := [Sample.nft];
               execParams := ["0xc0"; "0xeeee"];
               extraParams := "0x";
               sig := "0x5e11" |}.
Proof.
  split; [reflexivity|].
  apply (@constructed_order_fields Sample.orderHash Sample.getExchangeAddress "m1"
           Sample.listing Sample.offer 1 [Sample.nft]
           [ JsString "1"; JsString "1000000000000000000"; JsString "1000000000000000000";
             JsString "1650000000"; JsString "1660000000"; JsString "5" ]
           [ JsString "1"; JsString "1000000000000000000"; JsString "1000000000000000000";
             JsString "1650000000"; JsString "1660000000"; JsString "9" ]).
  - reflexivity.
  - reflexivity.
  - simpl. lia.
Defined.

(** On the one-to-one path the builder returns the two signed orders as they
    were read. *)
Lemma createBundleItem_oneToOne orderHash getExchangeAddress id listing offer m :
  OrderMatch.type m = Method_MatchOneToOneOrders ->
  exists item,
    createBundleItem orderHash getExchangeAddress id listing offer m
      = Ok (OfMatchOrdersOneToOne item)
    /\ sell (oneToOne_base item) = FirestoreOrder.signedOrder listing
    /\ buy (oneToOne_base item) = FirestoreOrder.signedOrder offer.
Proof.
  intros Hty. unfold createBundleItem. destruct (flatten m) as [chainNfts numMatches].
  rewrite Hty. eexists. split; [reflexivity|]. split; reflexivity.
Qed.

(** On the [MatchOrders] path the constructed order carries the flattened NFT
    set, and [numMatches] at position 0 of its constraints. *)
Lemma createBundleItem_matchOrders orderHash getExchangeAddress id listing offer m item :
  OrderMatch.type m = Method_MatchOrders ->
  createBundleItem orderHash getExchangeAddress id listing offer m = Ok item ->
  exists matchOrdersItem,
    item = OfMatchOrders matchOrdersItem
    /\ nfts (constructed matchOrdersItem) = fst (flatten m)
    /\ constraint_at (constructed matchOrdersItem) 0 = JsNumber (snd (flatten m)).
Proof.
  intros Hty. unfold createBundleItem. destruct (flatten m) as [chainNfts numMatches].
  rewrite Hty. unfold getMatchOrdersBundle.
  destruct (normalize (constraint_at (FirestoreOrder.signedOrder offer) 1));
    cbn [bind]; [|discriminate].
  destruct (normalize (constraint_at (FirestoreOrder.signedOrder offer) 2));
    cbn [bind]; [|discriminate].
  destruct (mapM normalize (constraints (FirestoreOrder.signedOrder listing)));
    cbn [bind]; [|discriminate].
  destruct (mapM normalize (constraints (FirestoreOrder.signedOrder offer)));
    cbn [bind]; [|discriminate].
  intros [= <-]. eexists. split; [reflexivity|]. split; reflexivity.
Qed.

(** C5, at a failing input. For a match of type [MatchOneToOneOrders] over a
    listing and an offer whose constraints are stored as JS numbers and
    hexadecimal strings, [createBundleItem] returns an item whose two signed
    orders keep those constraints: none of the listing's six entries is a
    canonical decimal string. For the [MatchOrders] match over the same two
    documents it returns canonical decimal strings throughout. *)
Theorem oneToOne_constraints_not_normalized :
  getOrders Sample.orders Sample.oneToOneMatch = Ok (Sample.listing, Sample.offer)
  /\ getOrders Sample.orders Sample.matchOrdersMatch = Ok (Sample.listing, Sample.offer)
  /\ exists item,
       createBundleItem Sample.orderHash Sample.getExchangeAddress "m1"
         Sample.listing Sample.offer Sample.oneToOneMatch = Ok item
       /\ bundleType item = BundleType_MatchOrdersOneToOne
       /\ sell (base item) = FirestoreOrder.signedOrder Sample.listing
       /\ buy (base item) = FirestoreOrder.signedOrder Sample.offer
       /\ constraints (sell (base item)) = constraints Sample.listingOrder
       /\ map is_canonical (constraints (sell (base item)))
          = [false; false; false; false; false; false]
       /\ map is_canonical (constraints (buy (base item)))
          = [false; true; false; false; false; false]
       /\ exists item',
            createBundleItem Sample.orderHash Sample.getExchangeAddress "m1"
              Sample.listing Sample.offer Sample.matchOrdersMatch = Ok item'
            /\ bundleType item' = BundleType_MatchOrders
            /\ forallb is_canonical (constraints (sell (base item'))) = true
            /\ forallb is_canonical (constraints (buy (base item'))) = true.
Proof.
  split; [reflexivity|]. split; [reflexivity|].
  destruct (@createBundleItem_oneToOne Sample.orderHash Sample.getExchangeAddress "m1"
              Sample.listing Sample.offer Sample.oneToOneMatch eq_refl)
    as (item & Hitem & Hsell & Hbuy).
  exists (OfMatchOrdersOneToOne item). split; [exact Hitem|].
  cbn [bundleType base]. rewrite Hsell, Hbuy.
  repeat split.
  eexists. split; [reflexivity|]. repeat split.
Qed.

(** C8, as stated, fails. The read of [twoListingsMatch] yields two listings
    and no offer: the build fails with 'Order not found', not with the
    multiple-orders error, and the only effect of the update is a console
    line: no state with code [OrderInvalid] is written to the match. *)
Lemma two_listings_reported_missing :
  List.length (listingsOf Sample.orders Sample.twoListingsMatch) = 2%nat
  /\ buildUpdate Sample.orders Sample.orderHash Sample.getExchangeAddress
       "m2" Sample.twoListingsMatch = Throw "Order not found"
  /\ buildUpdate Sample.orders Sample.orderHash Sample.getExchangeAddress
       "m2" Sample.twoListingsMatch <> Throw MultipleOrders
  /\ handleOrderMatchUpdate Sample.orders Sample.orderHash Sample.getExchangeAddress
       "m2" Sample.twoListingsMatch = [ConsoleError "Order not found"]
  /\ ~ In (SetOrderMatchState "m2" Status_Error (Some OrderInvalid))
          (handleOrderMatchUpdate Sample.orders Sample.orderHash Sample.getExchangeAddress
             "m2" Sample.twoListingsMatch).
Proof.
  repeat split; try reflexivity.
  - discriminate.
  - cbn. intros [H | []]. discriminate H.
Qed.

(** Two listings without an offer, and two listings with an offer. *)
Lemma build_errors_are_logged_witness :
  buildUpdate Sample.orders Sample.orderHash Sample.getExchangeAddress
    "m2" Sample.twoListingsMatch = Throw OrderNotFound
  /\ buildUpdate Sample.orders Sample.orderHash Sample.getExchangeAddress
       "m3" Sample.threeOrdersMatch = Throw MultipleOrders
  /\ handleOrderMatchUpdate Sample.orders Sample.orderHash Sample.getExchangeAddress
       "m3" Sample.threeOrdersMatch = [ConsoleError MultipleOrders].
Proof.
  split; [|split].
  - apply (proj1 (@build_errors_are_logged Sample.orders Sample.orderHash
                    Sample.getExchangeAddress "m2" Sample.twoListingsMatch eq_refl)).
    right. reflexivity.
  - apply (proj1 (proj2 (@build_errors_are_logged Sample.orders Sample.orderHash
                           Sample.getExchangeAddress "m3" Sample.threeOrdersMatch eq_refl))).
    + discriminate.
    + discriminate.
    + left. cbn. lia.
  - apply (proj2 (proj2 (@build_errors_are_logged Sample.orders Sample.orderHash
                           Sample.getExchangeAddress "m3" Sample.threeOrdersMatch eq_refl))).
    reflexivity.
Defined.

(** ** Arrays with holes and the round-robin buckets *)

Lemma set_at_length {A : Type} (l : list (option A)) (i : nat) (v : A) :
  List.length (set_at l i v) = Nat.max (List.length l) (S i).
Proof.
  revert l. induction i as [|i IH]; intros [|h t]; cbn [set_at List.length].
  - reflexivity.
  - lia.
  - rewrite IH. cbn [List.length]. lia.
  - rewrite IH. lia.
Qed.

Lemma bucketIndex_lt (i : nat) (k : Z) (j : nat) :
  1 <= k -> bucketIndex i k = Some j -> (j < Z.to_nat k)%nat.
Proof.
  intros Hk. unfold bucketIndex.
  destruct (Z.eqb_spec k 0) as [->|_]; [lia|]. intros [= <-].
  pose proof (Z.rem_bound_pos (Z.of_nat i) k ltac:(lia) ltac:(lia)). lia.
Qed.

Lemma reduce_indexed_invariant {A B : Type} (P : B -> Prop) (f : B -> A -> nat -> B) :
  (forall acc x i, P acc -> P (f acc x i)) ->
  forall l i acc, P acc -> P (reduce_indexed f l i acc).
Proof.
  intros Hf l. induction l as [|x l IH]; intros i acc Hacc; cbn [reduce_indexed].
  - assumption.
  - apply IH. now apply Hf.
Qed.

Lemma map_sparse_length {A B : Type} (f : A -> B) (l : list (option A)) :
  List.length (map_sparse f l) = List.length l.
Proof. unfold map_sparse. apply List.length_map. Qed.

Lemma oneToOne_transformer_length (items : list MatchOrdersOneToOneBundleItem) (k : Z) :
  1 <= k ->
  (List.length (matchOrdersOneToOneItemsToArgsTransformer items k) <= Z.to_nat k)%nat.
Proof.
  intros Hk. unfold matchOrdersOneToOneItemsToArgsTransformer.
  rewrite map_sparse_length.
  apply (reduce_indexed_invariant (fun acc => (List.length acc <= Z.to_nat k)%nat)).
  - intros acc x i Hacc. destruct (bucketIndex i k) as [j|] eqn:Ej; [|assumption].
    rewrite set_at_length. apply (bucketIndex_lt _ Hk) in Ej. lia.
  - cbn. lia.
Qed.

Lemma matchOrders_transformer_length (items : list MatchOrdersBundleItem) (k : Z) :
  1 <= k ->
  (List.length (matchOrdersItemsToArgsTransformer items k) <= Z.to_nat k)%nat.
Proof.
  intros Hk. unfold matchOrdersItemsToArgsTransformer.
  rewrite map_sparse_length.
  apply (reduce_indexed_invariant (fun acc => (List.length acc <= Z.to_nat k)%nat)).
  - intros acc x i Hacc. destruct (bucketIndex i k) as [j|] eqn:Ej; [|assumption].
    rewrite set_at_length. apply (bucketIndex_lt _ Hk) in Ej. lia.
  - cbn. lia.
Qed.

(** [ceilDiv a b] is the ceiling of the quotient. *)
Lemma ceilDiv_spec (a b : Z) :
  0 < b -> b * (ceilDiv a b - 1) < a <= b * ceilDiv a b.
Proof.
  intros Hb. unfold ceilDiv.
  pose proof (Z.div_mod (- a) b ltac:(lia)).
  pose proof (Z.mod_pos_bound (- a) b Hb). nia.
Qed.

Lemma ceilDiv_le (a b : Z) : 0 <= a -> 0 < b -> ceilDiv a b <= a.
Proof.
  intros Ha Hb. pose proof (ceilDiv_spec a Hb). nia.
Qed.

(** ** The packer *)

Section PackerProperties.

Variable JsFloat : Type.
Variable env : Env JsFloat.

Section Generic.

Context {T Args : Type}.
Variable signerAddress : string.
Variable bundleItemsToArgs : list T -> Z -> list (option Args).
Variable encodeCallData : Args -> Res string.

Lemma requestsOf_length (bundleArgs : list (option Args)) :
  (List.length (requestsOf env signerAddress encodeCallData bundleArgs)
   <= List.length bundleArgs)%nat.
Proof.
  induction bundleArgs as [|[args|] rest IH]; cbn [requestsOf List.length].
  - lia.
  - destruct (requestOf env signerAddress encodeCallData args); cbn [List.length]; lia.
  - lia.
Qed.

(** When the transformer fills at most [numBundles] slots, the new
    bundle count is the double of the current one, which is also the
    larger of the estimate and the double. *)
Lemma updatedNumBundles_max (items : list T) (numBundles : Z) :
  0 < MAX_GAS_LIMIT env -> 1 <= numBundles ->
  (List.length (bundleItemsToArgs items numBundles) <= Z.to_nat numBundles)%nat ->
  let txs := requestsOf env signerAddress encodeCallData
               (bundleItemsToArgs items numBundles) in
  updatedNumBundles env txs numBundles
  = Z.max (ceilDiv (Z.of_nat (List.length txs)) (MAX_GAS_LIMIT env)) (numBundles * 2).
Proof.
  intros Hmax Hk Hlen txs. unfold updatedNumBundles, estimatedNumBundles.
  pose proof (requestsOf_length (bundleItemsToArgs items numBundles)) as Hreq.
  fold txs in Hreq.
  pose proof (@ceilDiv_le (Z.of_nat (List.length txs)) (MAX_GAS_LIMIT env)
                ltac:(lia) Hmax) as Hceil.
  destruct (Z.geb_spec numBundles
              (ceilDiv (Z.of_nat (List.length txs)) (MAX_GAS_LIMIT env))); lia.
Qed.

Lemma buildBundles_recurse (items : list T) (numBundles : Z) (fuel : nat) :
  transactionsTooBig env
    (requestsOf env signerAddress encodeCallData (bundleItemsToArgs items numBundles)) = true ->
  buildBundles env signerAddress bundleItemsToArgs encodeCallData (S fuel) items numBundles
  = buildBundles env signerAddress bundleItemsToArgs encodeCallData fuel items
      (updatedNumBundles env
         (requestsOf env signerAddress encodeCallData (bundleItemsToArgs items numBundles))
         numBundles).
Proof.
  intros Hbig. cbn [buildBundles]. unfold buildBundles_body. now rewrite Hbig.
Qed.

Lemma buildBundles_return (items : list T) (numBundles : Z) (fuel : nat) :
  transactionsTooBig env
    (requestsOf env signerAddress encodeCallData (bundleItemsToArgs items numBundles)) = false ->
  buildBundles env signerAddress bundleItemsToArgs encodeCallData (S fuel) items numBundles
  = Some (requestsOf env signerAddress encodeCallData (bundleItemsToArgs items numBundles), []).
Proof.
  intros Hbig. cbn [buildBundles]. unfold buildBundles_body. now rewrite Hbig.
Qed.

Lemma transactionsTooBig_false (txs : list TransactionRequest) :
  transactionsTooBig env txs = false ->
  Forall (fun tx => gasLimit tx <= MAX_GAS_LIMIT env) txs.
Proof.
  unfold transactionsTooBig. induction txs as [|tx txs IH]; cbn [existsb].
  - constructor.
  - intros H. apply orb_false_iff in H. destruct H as [Htx Hrest].
    constructor; [|now apply IH]. unfold tooBig in Htx.
    now apply Z.ltb_ge in Htx.
Qed.

Lemma transactionsTooBig_true (txs : list TransactionRequest) :
  (exists tx, In tx txs /\ MAX_GAS_LIMIT env < gasLimit tx) ->
  transactionsTooBig env txs = true.
Proof.
  intros (tx & Hin & Hgas). unfold transactionsTooBig. apply existsb_exists.
  exists tx. split; [assumption|]. unfold tooBig. now apply Z.ltb_lt.
Qed.

Lemma buildBundles_sound (fuel : nat) :
  forall (items : list T) (numBundles : Z) txs invalid,
    buildBundles env signerAddress bundleItemsToArgs encodeCallData fuel
      items numBundles = Some (txs, invalid) ->
    Forall (fun tx => gasLimit tx <= MAX_GAS_LIMIT env) txs /\ invalid = [].
Proof.
  induction fuel as [|fuel IH]; intros items numBundles txs invalid; cbn [buildBundles].
  - discriminate.
  - unfold buildBundles_body.
    destruct (transactionsTooBig env _) eqn:Hbig.
    + apply IH.
    + intros [= <- <-]. split; [|reflexivity].
      now apply transactionsTooBig_false.
Qed.

End Generic.

(** C3. Whenever some surviving bucket's gasLimit exceeds the (positive)
    MAX_GAS_LIMIT, [buildBundles] calls itself with
    [max (ceil (number of surviving requests / MAX_GAS_LIMIT)) (numBundles * 2)],
    for every item list and every [numBundles >= 1], with either of the two
    transformers. *)
Theorem resplit_bundle_count : forall (signerAddress : string) (numBundles : Z),
  0 < MAX_GAS_LIMIT env ->
  1 <= numBundles ->
  (forall (items : list MatchOrdersBundleItem),
     let txs := requestsOf env signerAddress (matchOrdersCallDataEncoder env)
                  (matchOrdersItemsToArgsTransformer items numBundles) in
     let newK := Z.max (ceilDiv (Z.of_nat (List.length txs)) (MAX_GAS_LIMIT env))
                   (numBundles * 2) in
     (exists tx, In tx txs /\ MAX_GAS_LIMIT env < gasLimit tx) ->
     buildBundles_body env signerAddress matchOrdersItemsToArgsTransformer
       (matchOrdersCallDataEncoder env) items numBundles = Recurse newK
     /\ forall fuel,
          buildBundles env signerAddress matchOrdersItemsToArgsTransformer
            (matchOrdersCallDataEncoder env) (S fuel) items numBundles
          = buildBundles env signerAddress matchOrdersItemsToArgsTransformer
              (matchOrdersCallDataEncoder env) fuel items newK)
  /\ (forall (items : list MatchOrdersOneToOneBundleItem),
        let txs := requestsOf env signerAddress (matchOrdersOneToOneCallDataEncoder env)
                     (matchOrdersOneToOneItemsToArgsTransformer items numBundles) in
        let newK := Z.max (ceilDiv (Z.of_nat (List.length txs)) (MAX_GAS_LIMIT env))
                      (numBundles * 2) in
        (exists tx, In tx txs /\ MAX_GAS_LIMIT env < gasLimit tx) ->
        buildBundles_body env signerAddress matchOrdersOneToOneItemsToArgsTransformer
          (matchOrdersOneToOneCallDataEncoder env) items numBundles = Recurse newK
        /\ forall fuel,
             buildBundles env signerAddress matchOrdersOneToOneItemsToArgsTransformer
               (matchOrdersOneToOneCallDataEncoder env) (S fuel) items numBundles
             = buildBundles env signerAddress matchOrdersOneToOneItemsToArgsTransformer
                 (matchOrdersOneToOneCallDataEncoder env) fuel items newK).
Proof.
  intros signerAddress numBundles Hmax Hk. split.
  - intros items txs newK Hbig.
    pose proof (updatedNumBundles_max signerAddress matchOrdersItemsToArgsTransformer
                  (matchOrdersCallDataEncoder env) items Hmax Hk
                  (matchOrders_transformer_length items Hk)) as Hupd.
    cbv zeta in Hupd. fold txs in Hupd. fold newK in Hupd.
    apply transactionsTooBig_true in Hbig.
    split.
    + unfold buildBundles_body. fold txs. rewrite Hbig. now rewrite Hupd.
    + intros fuel. rewrite buildBundles_recurse by exact Hbig.
      fold txs. now rewrite Hupd.
  - intros items txs newK Hbig.
    pose proof (updatedNumBundles_max signerAddress matchOrdersOneToOneItemsToArgsTransformer
                  (matchOrdersOneToOneCallDataEncoder env) items Hmax Hk
                  (oneToOne_transformer_length items Hk)) as Hupd.
    cbv zeta in Hupd. fold txs in Hupd. fold newK in Hupd.
    apply transactionsTooBig_true in Hbig.
    split.
    + unfold buildBundles_body. fold txs. rewrite Hbig. now rewrite Hupd.
    + intros fuel. rewrite buildBundles_recurse by exact Hbig.
      fold txs. now rewrite Hupd.
Qed.

End PackerProperties.

(** ** The packer on the sample chain *)

Lemma oversize_requests (args : MatchOrdersArgs) :
  requestsOf SampleChain.oversize SampleChain.signerAddress
    (matchOrdersCallDataEncoder SampleChain.oversize) [Some args]
  = [SampleChain.request 60000000].
Proof. reflexivity. Qed.

Lemma oversize_body (k : Z) :
  1 <= k ->
  buildBundles_body SampleChain.oversize SampleChain.signerAddress
    matchOrdersItemsToArgsTransformer (matchOrdersCallDataEncoder SampleChain.oversize)
    [SampleChain.item "m1" "0xab"] k = Recurse (k * 2).
Proof.
  intros Hk. unfold buildBundles_body, matchOrdersItemsToArgsTransformer.
  cbn [reduce_indexed]. unfold bucketIndex.
  destruct (Z.eqb_spec k 0) as [->|Hne]; [lia|].
  cbn [Z.of_nat]. rewrite Z.rem_0_l by exact Hne.
  cbn [Z.to_nat get_at nth_error set_at map_sparse map option_map].
  rewrite oversize_requests.
  replace (transactionsTooBig SampleChain.oversize [SampleChain.request 60000000])
    with true by reflexivity.
  unfold updatedNumBundles.
  replace (estimatedNumBundles SampleChain.oversize [SampleChain.request 60000000])
    with 1 by reflexivity.
  destruct (Z.geb_spec k 1); [reflexivity | lia].
Qed.

Lemma oversize_never_returns (fuel : nat) (k : Z) :
  1 <= k ->
  buildBundles SampleChain.oversize SampleChain.signerAddress
    matchOrdersItemsToArgsTransformer (matchOrdersCallDataEncoder SampleChain.oversize)
    fuel [SampleChain.item "m1" "0xab"] k = None.
Proof.
  revert k. induction fuel as [|fuel IH]; intros k Hk; cbn [buildBundles].
  - reflexivity.
  - rewrite oversize_body by exact Hk. apply IH. lia.
Qed.

(** C2, as stated, fails. With one item whose bucket is estimated over the
    ceiling, the recursion is still re-splitting at [numBundles = 16], past
    [max 8 1], and it returns for no amount of fuel: nothing is ever reported
    as too large. *)
Lemma oversize_item_is_resplit_forever :
  buildBundles_body SampleChain.oversize SampleChain.signerAddress
    matchOrdersItemsToArgsTransformer (matchOrdersCallDataEncoder SampleChain.oversize)
    [SampleChain.item "m1" "0xab"] 16 = Recurse 32
  /\ ~ (exists fuel result,
          buildBundles SampleChain.oversize SampleChain.signerAddress
            matchOrdersItemsToArgsTransformer (matchOrdersCallDataEncoder SampleChain.oversize)
            fuel [SampleChain.item "m1" "0xab"] 1 = Some result).
Proof.
  split.
  - reflexivity.
  - intros (fuel & result & H). rewrite oversize_never_returns in H by lia. discriminate H.
Qed.

(** Three items in two buckets, both over the ceiling: the next count is 4. *)
Lemma resplit_bundle_count_witness :
  buildBundles_body SampleChain.oversize SampleChain.signerAddress
    matchOrdersItemsToArgsTransformer (matchOrdersCallDataEncoder SampleChain.oversize)
    [SampleChain.item "m1" "0xab"; SampleChain.item "m2" "0xab"; SampleChain.item "m3" "0xab"] 2
  = Recurse 4.
Proof.
  refine (proj1 (proj1 (@resplit_bundle_count Z SampleChain.oversize SampleChain.signerAddress 2
                          _ _) _ _)).
  - reflexivity.
  - discriminate.
  - exists (SampleChain.request 60000000). split; [left; reflexivity | reflexivity].
Defined.

(** ** The verifier *)

Section VerifierProperties.

Variable JsFloat : Type.
Variable env : Env JsFloat.

Lemma settledTrue_iff (r : Settled bool) : settledTrue r = true <-> r = Fulfilled true.
Proof.
  destruct r as [[|]|reason]; cbn; split; intros E; try reflexivity; discriminate E.
Qed.

Lemma settledTrue_false_iff (r : Settled bool) :
  negb (settledTrue r) = true <-> r <> Fulfilled true.
Proof.
  rewrite negb_true_iff, <- not_true_iff_false, settledTrue_iff. reflexivity.
Qed.

Lemma toNumber_safe (z : Z) : BigNumber_toNumber z = Ok z <-> safeInteger z.
Proof.
  unfold BigNumber_toNumber, safeInteger.
  destruct (Z.leb_spec z MAX_SAFE_INTEGER), (Z.leb_spec (- MAX_SAFE_INTEGER) z);
    cbn [andb]; split; intros E; try reflexivity; try discriminate E; lia.
Qed.

Lemma toNumber_value (z n : Z) : BigNumber_toNumber z = Ok n -> n = z.
Proof.
  unfold BigNumber_toNumber. destruct (_ && _); [now intros [= <-] | discriminate].
Qed.

(** [getCurrentPrice] computes the point of the order's curve at the clock
    reading it takes, and succeeds exactly when there is one. *)
Lemma getCurrentPrice_curve (reading : nat) (order : ChainOBOrder) (price : Z) :
  getCurrentPrice env reading order = Ok price
  <-> curveAt env order (now env reading) price.
Proof.
  unfold getCurrentPrice, curveAt. split.
  - destruct (BigNumber_from (constraint_at order 1)) as [startPrice|]; [|discriminate].
    destruct (BigNumber_from (constraint_at order 2)) as [endPrice|]; [|discriminate].
    destruct (BigNumber_from (constraint_at order 3)) as [startTime|]; [|discriminate].
    cbn [bind].
    destruct (BigNumber_toNumber startTime) as [n1|] eqn:E1; [|discriminate].
    destruct (BigNumber_from (constraint_at order 4)) as [endTime|]; [|discriminate].
    cbn [bind].
    destruct (BigNumber_toNumber endTime) as [n2|] eqn:E2; [|discriminate].
    cbn [bind]. intros Hprice.
    pose proof (toNumber_value _ E1). pose proof (toNumber_value _ E2). subst n1 n2.
    exists startPrice, endPrice, startTime, endTime.
    repeat split; try reflexivity; try (apply toNumber_safe; assumption); exact Hprice.
  - intros (startPrice & endPrice & startTime & endTime
            & -> & -> & -> & Hs & -> & He & Hprice).
    cbn [bind]. apply toNumber_safe in Hs, He. rewrite Hs, He. cbn [bind]. exact Hprice.
Qed.

Lemma matchOrdersReducer_throw (items : list MatchOrdersBundleItem) :
  forall (from : nat) (message : string),
    reduce_indexed (matchOrdersReducer env) items from (Throw message) = Throw message.
Proof.
  induction items as [|x items IH]; intros from message; [reflexivity | apply IH].
Qed.

Lemma matchOrdersReducer_ok (items : list MatchOrdersBundleItem) :
  forall from acc result,
    reduce_indexed (matchOrdersReducer env) items from (Ok acc) = Ok result ->
    forall index item, nth_error items index = Some item ->
                       priceable env (from + index) item.
Proof.
  induction items as [|x items IH]; intros from [valid invalid] result;
    cbn [reduce_indexed].
  - intros _ [|index] item E; discriminate E.
  - unfold matchOrdersReducer at 2. cbn [bind].
    destruct (getCurrentPrice env (2 * from) (sell (matchOrders_base x)))
      as [sellPrice|] eqn:Es; cbn [bind]; [|now rewrite matchOrdersReducer_throw].
    destruct (getCurrentPrice env (2 * from + 1) (buy (matchOrders_base x)))
      as [buyPrice|] eqn:Eb; cbn [bind]; [|now rewrite matchOrdersReducer_throw].
    intros Hfold [|index] item; cbn [nth_error].
    + intros [= <-]. rewrite Nat.add_0_r. exists sellPrice, buyPrice.
      split; apply getCurrentPrice_curve; assumption.
    + intros E. replace (from + S index)%nat with (S from + index)%nat by lia.
      exact (IH _ _ _ Hfold index item E).
Qed.

Lemma matchOrdersReducer_fold (items : list MatchOrdersBundleItem) :
  forall from valid0 invalid0,
    (forall index item, nth_error items index = Some item ->
                        priceable env (from + index) item) ->
    exists valid invalid,
      reduce_indexed (matchOrdersReducer env) items from (Ok (valid0, invalid0))
        = Ok (valid0 ++ valid, invalid0 ++ invalid)
      /\ map (@bundleItem _) valid
         = filter (fun item => settledTrue (verifyResult env item)) items
      /\ invalid = filter (fun item => negb (settledTrue (verifyResult env item))) items
      /\ Forall (fun v => exists index,
                     nth_error items index = Some (bundleItem v)
                     /\ pricedAtMin env (from + index) v) valid.
Proof.
  induction items as [|item items IH]; intros from valid0 invalid0 Hall.
  - exists [], []. cbn. rewrite !app_nil_r. repeat split. constructor.
  - destruct (Hall 0%nat item eq_refl) as (sellPrice & buyPrice & Hsell & Hbuy).
    rewrite Nat.add_0_r in Hsell, Hbuy.
    assert (Hrest : forall index item', nth_error items index = Some item' ->
                                        priceable env (S from + index) item').
    { intros index item' E.
      replace (S from + index)%nat with (from + S index)%nat by lia.
      exact (Hall (S index) item' E). }
    cbn [reduce_indexed filter]. unfold matchOrdersReducer at 2. cbn [bind].
    rewrite (proj2 (getCurrentPrice_curve _ _ _) Hsell),
            (proj2 (getCurrentPrice_curve _ _ _) Hbuy). cbn [bind].
    assert ((if sellPrice >=? buyPrice then buyPrice else sellPrice)
            = Z.min sellPrice buyPrice) as ->
      by (destruct (Z.geb_spec sellPrice buyPrice); lia).
    assert (Hshift : forall valid,
              Forall (fun v => exists index,
                          nth_error items index = Some (bundleItem v)
                          /\ pricedAtMin env (S from + index) v) valid ->
              Forall (fun v => exists index,
                          nth_error (item :: items) index = Some (bundleItem v)
                          /\ pricedAtMin env (from + index) v) valid).
    { intros valid Hv. eapply Forall_impl; [|exact Hv].
      intros v (index & E & Hp). exists (S index). split; [exact E|].
      replace (from + S index)%nat with (S from + index)%nat by lia. exact Hp. }
    destruct (settledTrue (verifyResult env item)) eqn:Hv; cbn [negb].
    + destruct (IH (S from)
                  (valid0 ++ [ {| bundleItem := item;
                                  currentPrice := Z.min sellPrice buyPrice |} ])
                  invalid0 Hrest)
        as (valid & invalid & Hfold & Hvalid & Hinvalid & Hprice).
      exists ({| bundleItem := item; currentPrice := Z.min sellPrice buyPrice |} :: valid),
             invalid.
      rewrite Hfold, <- app_assoc. cbn [app map bundleItem].
      repeat split; try assumption.
      * now rewrite Hvalid.
      * constructor; [|now apply Hshift].
        exists 0%nat. split; [reflexivity|]. rewrite Nat.add_0_r.
        exists sellPrice, buyPrice. now repeat split.
    + destruct (IH (S from) valid0 (invalid0 ++ [item]) Hrest)
        as (valid & invalid & Hfold & Hvalid & Hinvalid & Hprice).
      exists valid, (item :: invalid).
      rewrite Hfold, <- app_assoc. cbn [app].
      repeat split; try assumption; [now rewrite Hinvalid | now apply Hshift].
Qed.

(** C4, as the code has it. For every list of [MatchOrders] items whose
    prices can all be computed, the verifier returns; an item is among the
    valid ones exactly when its [verifyMatchOrders] call is fulfilled with
    [true], and among the invalid ones exactly when the call is rejected or
    fulfilled with [false]; the encoder attaches the code [OrderInvalid] to
    each invalid item; and the [currentPrice] of each valid item is the
    minimum of the price on the curve of its sell order and the price on the
    curve of its buy order, each at its own reading of the clock. For every
    other list the verifier throws, and the encoder with it: no item is
    classified. *)
Theorem matchOrdersVerifier_classifies : forall items : list MatchOrdersBundleItem,
  (allPriceable env items ->
   exists valid invalid,
     matchOrdersVerifier env items = Ok (valid, invalid)
     /\ map (@bundleItem _) valid
        = filter (fun item => settledTrue (verifyResult env item)) items
     /\ invalid = filter (fun item => negb (settledTrue (verifyResult env item))) items
     /\ (forall item, In item (map (@bundleItem _) valid)
                      <-> In item items /\ verifyResult env item = Fulfilled true)
     /\ (forall item, In item invalid
                      <-> In item items /\ verifyResult env item <> Fulfilled true)
     /\ allPricedAtMin env items valid
     /\ exists v, validate env (matchOrdersVerifier env) items = Ok v
                  /\ invalidBundleItemsFromVerify v = invalid
                  /\ invalidBundleItemsFromVerifyWithError v = map (@orderInvalid _) invalid
                  /\ Forall (fun rejected => code (orderError rejected) = OrderInvalid)
                            (invalidBundleItemsFromVerifyWithError v))
  /\ (~ allPriceable env items ->
      exists message,
        matchOrdersVerifier env items = Throw message
        /\ validate env (matchOrdersVerifier env) items = Throw message).
Proof.
  intros items. split.
  - intros Hitems.
    destruct (@matchOrdersReducer_fold items 0%nat [] [] Hitems)
      as (valid & invalid & Hfold & Hvalid & Hinvalid & Hprice).
    exists valid, invalid. rewrite !app_nil_l in Hfold.
    unfold matchOrdersVerifier. rewrite Hfold.
    split; [reflexivity|]. split; [assumption|]. split; [assumption|].
    split; [|split; [|split; [exact Hprice|]]].
    + intros item. rewrite Hvalid, filter_In, settledTrue_iff. reflexivity.
    + intros item. rewrite Hinvalid, filter_In, settledTrue_false_iff. reflexivity.
    + unfold validate. fold (matchOrdersVerifier env items).
      unfold matchOrdersVerifier. rewrite Hfold. cbn [bind].
      destruct (checkNftSellerApprovalAndBalance env valid) as [validSeller invalidSeller].
      destruct (checkNftBuyerApprovalAndBalance env validSeller) as [validBuyer invalidBuyer].
      eexists. split; [reflexivity|]. cbn.
      repeat split. apply Forall_forall. intros rejected Hin.
      apply in_map_iff in Hin. destruct Hin as (item & <- & _). reflexivity.
  - intros Hnot. unfold validate.
    destruct (matchOrdersVerifier env items) as [result|message] eqn:Hverify.
    + exfalso. apply Hnot. intros index item E.
      exact (@matchOrdersReducer_ok items 0%nat _ _ Hverify index item E).
    + exists message. split; reflexivity.
Qed.

End VerifierProperties.

(** Two items for which the exchange answers [false], priced at four
    successive readings of the clock. *)
Lemma matchOrdersVerifier_classifies_witness :
  exists valid invalid,
    matchOrdersVerifier SampleChain.unverified
      [SampleChain.item "m1" "0xab"; SampleChain.item "m2" "0xab"] = Ok (valid, invalid)
    /\ invalid = [SampleChain.item "m1" "0xab"; SampleChain.item "m2" "0xab"].
Proof.
  destruct (proj1 (@matchOrdersVerifier_classifies Z SampleChain.unverified
                     [SampleChain.item "m1" "0xab"; SampleChain.item "m2" "0xab"]))
    as (valid & invalid & Hret & _ & Hinvalid & _).
  - intros [|[|index]] item E; cbn in E; try (destruct index; discriminate E);
      injection E as <-;
      exists 1000000000000000000, 1000000000000000000;
      split; exists 1000000000000000000, 1000000000000000000, 1650000000, 1660000000;
      repeat split; try reflexivity; vm_compute; discriminate.
  - exists valid, invalid. split; [exact Hret | exact Hinvalid].
Defined.

(** C4, as stated, fails. On the healthy chain the exchange verifies both
    items of this batch, and both carry canonical decimal constraints, as the
    builder leaves them; but the end time of the second sell order is beyond
    the safe integers, [toNumber] throws while its price is computed, and the
    verifier throws for the batch: the first item is not classified valid. *)
Lemma unpriceable_item_fails_the_batch :
  verifyResult SampleChain.healthy (SampleChain.item "m1" "0xab") = Fulfilled true
  /\ verifyResult SampleChain.healthy SampleChain.lateItem = Fulfilled true
  /\ forallb is_canonical (constraints (sell (matchOrders_base SampleChain.lateItem))) = true
  /\ matchOrdersVerifier SampleChain.healthy
       [SampleChain.item "m1" "0xab"; SampleChain.lateItem] = Throw "overflow"
  /\ matchOrdersEncoder SampleChain.healthy SampleChain.signerAddress 5
       [SampleChain.item "m1" "0xab"; SampleChain.lateItem] 1 = Some (Throw "overflow").
Proof. repeat split; reflexivity. Qed.

Example verifier_settlements :
  matchOrdersVerifier SampleChain.healthy [SampleChain.item "m1" "0xab"]
    = Ok ([SampleChain.priced (SampleChain.item "m1" "0xab")], [])
  /\ matchOrdersVerifier SampleChain.unverified [SampleChain.item "m1" "0xab"]
     = Ok ([], [SampleChain.item "m1" "0xab"])
  /\ matchOrdersVerifier SampleChain.verifyFails [SampleChain.item "m1" "0xab"]
     = Ok ([], [SampleChain.item "m1" "0xab"]).
Proof. repeat split; reflexivity. Qed.

(** ** The encoder *)

Section EncoderProperties.

Variable JsFloat : Type.
Variable env : Env JsFloat.

Context {T Args : Type} `{ExtendsBundleItem T}.
Variable signerAddress : string.
Variable bundleItemsToArgs : list T -> Z -> list (option Args).
Variable encodeCallData : Args -> Res string.
Variable verifyBundleItems : list T -> Res (list (WithCurrentPrice T) * list T).

Lemma validate_invalidFromVerify (items : list T) (v : @Validation T) :
  validate env verifyBundleItems items = Ok v ->
  exists valid, verifyBundleItems items = Ok (valid, invalidBundleItemsFromVerify v).
Proof.
  unfold validate.
  destruct (verifyBundleItems items) as [[valid invalid]|]; cbn [bind]; [|discriminate].
  destruct (checkNftSellerApprovalAndBalance env valid) as [validSeller invalidSeller].
  destruct (checkNftBuyerApprovalAndBalance env validSeller) as [validBuyer invalidBuyer].
  intros [= <-]. cbn. eauto.
Qed.

Lemma encoder_invalidBundleItems (fuel : nat) (items : list T) (minBundleSize : Z)
    (result : @Encoded T) :
  encoder env signerAddress bundleItemsToArgs encodeCallData verifyBundleItems
    fuel items minBundleSize = Some (Ok result) ->
  exists valid,
    verifyBundleItems items = Ok (valid, invalidBundleItems result).
Proof.
  unfold encoder.
  destruct (validate env verifyBundleItems items) as [v|] eqn:Hv; [|discriminate].
  destruct (validate_invalidFromVerify _ Hv) as (valid & Hverify).
  destruct (Z.of_nat (List.length (validBundleItems v)) <? minBundleSize).
  - intros [= <-]. cbn. eauto.
  - destruct (buildBundles env signerAddress bundleItemsToArgs encodeCallData fuel
                (map (@bundleItem T) (validBundleItems v)) 1)
      as [[txs invalidFromBuild]|] eqn:Hbuild; [|discriminate].
    intros [= <-]. cbn.
    destruct (buildBundles_sound _ _ _ _ _ _ _ Hbuild) as [_ ->].
    rewrite app_nil_r. eauto.
Qed.

(** The encoder returns at once, whatever the fuel, when fewer than
    [minBundleSize] items survive the three stages. *)
Lemma encoder_undersized (fuel : nat) (items : list T) (minBundleSize : Z) (v : @Validation T) :
  validate env verifyBundleItems items = Ok v ->
  Z.of_nat (List.length (validBundleItems v)) < minBundleSize ->
  encoder env signerAddress bundleItemsToArgs encodeCallData verifyBundleItems
    fuel items minBundleSize
  = Some (Ok {| txRequests := []; invalidBundleItems := invalidBundleItemsFromVerify v |}).
Proof.
  intros Hv Hsmall. unfold encoder. rewrite Hv.
  apply Z.ltb_lt in Hsmall. now rewrite Hsmall.
Qed.

(** C1, as the code has it. Whenever the encoder returns, every input item
    that its verifier rejected is in the [invalidBundleItems] it returns, as
    the bare item; the typed rejections stay in the encoder's local lists. *)
Theorem encoder_returns_verifier_rejections :
  forall (fuel : nat) (items : list T) (minBundleSize : Z) (result : @Encoded T),
    encoder env signerAddress bundleItemsToArgs encodeCallData verifyBundleItems
      fuel items minBundleSize = Some (Ok result) ->
    exists valid invalid,
      verifyBundleItems items = Ok (valid, invalid)
      /\ forall item, In item invalid -> In item (invalidBundleItems result).
Proof.
  intros fuel items minBundleSize result Hret.
  destruct (encoder_invalidBundleItems _ _ _ Hret) as (valid & Hverify).
  exists valid, (invalidBundleItems result). split; [exact Hverify|].
  intros item Hin. exact Hin.
Qed.

End EncoderProperties.

(** The item for which the exchange answers [false] is returned as invalid. *)
Lemma encoder_returns_verifier_rejections_witness :
  matchOrdersEncoder SampleChain.unverified SampleChain.signerAddress 1
    [SampleChain.item "m1" "0xab"] 1
  = Some (Ok {| txRequests := []; invalidBundleItems := [SampleChain.item "m1" "0xab"] |})
  /\ exists valid invalid,
       matchOrdersVerifier SampleChain.unverified [SampleChain.item "m1" "0xab"]
         = Ok (valid, invalid)
       /\ forall item, In item invalid -> In item [SampleChain.item "m1" "0xab"].
Proof.
  split; [reflexivity|].
  exact (@encoder_returns_verifier_rejections Z SampleChain.unverified
           MatchOrdersBundleItem MatchOrdersArgs _ SampleChain.signerAddress
           matchOrdersItemsToArgsTransformer
           (matchOrdersCallDataEncoder SampleChain.unverified)
           (matchOrdersVerifier SampleChain.unverified)
           1%nat [SampleChain.item "m1" "0xab"] 1
           {| txRequests := []; invalidBundleItems := [SampleChain.item "m1" "0xab"] |}
           eq_refl).
Defined.

(** C1, as stated, fails. An item rejected by the seller pass (the exchange
    is not approved), an item rejected by the buyer pass (the allowance is one
    wei short) and an item whose bucket is dropped because gas estimation
    fails: in each case the encoder holds the typed rejection, or nothing at
    all, in a local list, and returns no transaction request and no invalid
    item. *)
Lemma rejected_items_are_dropped :
  (exists v,
     validate SampleChain.unapproved (matchOrdersVerifier SampleChain.unapproved)
       [SampleChain.item "m1" "0xab"] = Ok v
     /\ map (fun r => code (orderError r)) (invalidBundleItemsAfterNftApproval v)
        = [NotApprovedToTransferToken])
  /\ matchOrdersEncoder SampleChain.unapproved SampleChain.signerAddress 1
       [SampleChain.item "m1" "0xab"] 0
     = Some (Ok {| txRequests := []; invalidBundleItems := [] |})
  /\ (exists v,
        validate SampleChain.shortAllowance (matchOrdersVerifier SampleChain.shortAllowance)
          [SampleChain.item "m1" "0xab"] = Ok v
        /\ map (fun r => code (orderError r)) (invalidBundleItemsFromCurrencyCheck v)
           = [InsufficientCurrencyAllowance])
  /\ matchOrdersEncoder SampleChain.shortAllowance SampleChain.signerAddress 1
       [SampleChain.item "m1" "0xab"] 0
     = Some (Ok {| txRequests := []; invalidBundleItems := [] |})
  /\ (exists v,
        validate SampleChain.gasFails (matchOrdersVerifier SampleChain.gasFails)
          [SampleChain.item "m1" "0xab"] = Ok v
        /\ validBundleItems v = [SampleChain.priced (SampleChain.item "m1" "0xab")])
  /\ matchOrdersEncoder SampleChain.gasFails SampleChain.signerAddress 1
       [SampleChain.item "m1" "0xab"] 1
     = Some (Ok {| txRequests := []; invalidBundleItems := [] |}).
Proof.
  split; [eexists; split; reflexivity|].
  split; [reflexivity|].
  split; [eexists; split; reflexivity|].
  split; [reflexivity|].
  split; [eexists; split; reflexivity|].
  reflexivity.
Qed.

(** ** The two asset passes *)

Lemma splitResults_fold {T : Type} (results : list (Checked T)) :
  forall valid invalid,
    fold_left
      (fun acc result =>
         match result with
         | IsValid item => (fst acc ++ [item], snd acc)
         | IsInvalid item err =>
             (fst acc, snd acc ++ [ {| invalidItem := item; orderError := err |} ])
         end)
      results (valid, invalid)
    = (valid ++ flat_map (@validOf T) results, invalid ++ flat_map (@invalidOf T) results).
Proof.
  induction results as [|[item|item err] results IH]; intros valid invalid;
    cbn [fold_left flat_map validOf invalidOf fst snd].
  - now rewrite !app_nil_r.
  - rewrite IH, <- app_assoc. reflexivity.
  - rewrite IH, <- app_assoc. reflexivity.
Qed.

Lemma splitResults_spec {T : Type} (results : list (Checked T)) :
  splitResults results = (flat_map (@validOf T) results, flat_map (@invalidOf T) results).
Proof. unfold splitResults. now rewrite splitResults_fold. Qed.

Lemma splitResults_valid {T : Type} (f : WithCurrentPrice T -> Checked T)
    (items : list (WithCurrentPrice T)) (b : WithCurrentPrice T) :
  In b items -> f b = IsValid b -> In b (fst (splitResults (map f items))).
Proof.
  intros Hin Hb. rewrite splitResults_spec. cbn [fst].
  apply in_flat_map. exists (f b). split; [now apply in_map|].
  rewrite Hb. now left.
Qed.

Lemma splitResults_invalid {T : Type} (f : WithCurrentPrice T -> Checked T)
    (items : list (WithCurrentPrice T)) (b : WithCurrentPrice T) (err : OrderError) :
  In b items -> f b = IsInvalid b err ->
  In {| invalidItem := b; orderError := err |} (snd (splitResults (map f items))).
Proof.
  intros Hin Hb. rewrite splitResults_spec. cbn [snd].
  apply in_flat_map. exists (f b). split; [now apply in_map|].
  rewrite Hb. now left.
Qed.

Section PassProperties.

Variable JsFloat : Type.
Variable env : Env JsFloat.

Lemma expectedCostOf_spec (price : Z) (currency : string) :
  expectedCostOf env price currency = spec_expectedCost price.
Proof.
  unfold expectedCostOf, spec_expectedCost.
  destruct (String.eqb currency (txnCurrencyAddress env)); [apply Z.add_0_r | reflexivity].
Qed.

Lemma checkCurrencies_passed (buyer : string) (price : Z) (checked : list string)
    (rest : list (option string)) :
  Forall (passesCurrency env buyer price) checked ->
  checkCurrencies env buyer price (map Some checked ++ rest)
  = checkCurrencies env buyer price rest.
Proof.
  induction 1 as [|currency checked Hc _ IH]; [reflexivity|].
  destruct Hc as (allowed & balance & Ha & Hallowed & Hb & Hbalance).
  cbn [map app checkCurrencies]. rewrite Ha. cbn [await bind].
  rewrite expectedCostOf_spec.
  destruct (Z.ltb_spec allowed (spec_expectedCost price)); [lia|].
  rewrite Hb. cbn [await bind].
  destruct (Z.ltb_spec balance (spec_expectedCost price)); [lia|].
  exact IH.
Qed.

Lemma checkCollections_tokens_passed (signerAddress collectionAddress : string)
    (checked rest : list ChainNFTToken) :
  Forall (ownsToken env signerAddress collectionAddress) checked ->
  checkTokens env signerAddress collectionAddress (checked ++ rest)
  = checkTokens env signerAddress collectionAddress rest.
Proof.
  induction 1 as [|t checked Ht _ IH]; [reflexivity|].
  destruct Ht as (ownerOfToken & Ho & Hsame).
  cbn [app checkTokens]. rewrite Ho. cbn [await bind].
  rewrite <- Hsame, String.eqb_refl. cbn [negb]. exact IH.
Qed.

Lemma checkCollections_passed (signerAddress : string) (checked rest : list ChainNFTs) :
  Forall (passesCollection env signerAddress) checked ->
  checkCollections env signerAddress (checked ++ rest)
  = checkCollections env signerAddress rest.
Proof.
  induction 1 as [|n checked Hn _ IH]; [reflexivity|].
  destruct Hn as (Happroved & Htokens).
  cbn [app checkCollections]. rewrite Happroved. cbn [await bind negb].
  rewrite <- (app_nil_r (tokens n)).
  rewrite (checkCollections_tokens_passed _ Htokens). cbn [checkTokens bind].
  exact IH.
Qed.

Section Items.

Context {T : Type} `{ExtendsBundleItem T}.

Lemma currenciesOf_dedup (b : WithCurrentPrice T) (orderCurrency : string) :
  nth_error (execParams (buy (base (itemOf b)))) 1 = Some orderCurrency ->
  currenciesOf env b
  = map Some (if String.eqb orderCurrency (txnCurrencyAddress env)
              then [orderCurrency]
              else [orderCurrency; txnCurrencyAddress env]).
Proof.
  intros Hc. unfold currenciesOf. rewrite Hc.
  destruct (String.eqb orderCurrency (txnCurrencyAddress env)); reflexivity.
Qed.

(** C7. In the buyer pass, with [currencies] the deduplicated list of the
    order currency [buy.execParams[1]] and the wrapped native currency and
    [expectedCost = currentPrice * 11 / 10]: the first currency, in that
    order, whose allowance is below [expectedCost] rejects the item with
    [InsufficientCurrencyAllowance]; otherwise the first whose balance is
    below [expectedCost] rejects it with [InsufficientCurrencyBalance]; an
    item all of whose currencies pass both checks is valid; and the pass
    returns the item in the list that corresponds. *)
Theorem buyer_pass_classifies : forall (b : WithCurrentPrice T) (orderCurrency : string),
  nth_error (execParams (buy (base (itemOf b)))) 1 = Some orderCurrency ->
  let buyer := signer (buy (base (itemOf b))) in
  let expectedCost := Z.quot (currentPrice b * 11) 10 in
  let currencies :=
    if String.eqb orderCurrency (txnCurrencyAddress env)
    then [orderCurrency]
    else [orderCurrency; txnCurrencyAddress env] in
  currenciesOf env b = map Some currencies
  /\ NoDup currencies
  /\ (forall checked currency rest allowed,
        currencies = checked ++ currency :: rest ->
        Forall (passesCurrency env buyer (currentPrice b)) checked ->
        allowance env currency buyer (contractAddress env) = Fulfilled allowed ->
        allowed < expectedCost ->
        checkBuyer env b
        = IsInvalid b {| code := InsufficientCurrencyAllowance;
                         error := AllowanceTooLow buyer currency allowed expectedCost |})
  /\ (forall checked currency rest allowed balance,
        currencies = checked ++ currency :: rest ->
        Forall (passesCurrency env buyer (currentPrice b)) checked ->
        allowance env currency buyer (contractAddress env) = Fulfilled allowed ->
        expectedCost <= allowed ->
        balanceOf env currency buyer = Fulfilled balance ->
        balance < expectedCost ->
        checkBuyer env b
        = IsInvalid b {| code := InsufficientCurrencyBalance;
                         error := BalanceTooLow buyer currency balance expectedCost |})
  /\ (Forall (passesCurrency env buyer (currentPrice b)) currencies ->
      checkBuyer env b = IsValid b)
  /\ (forall items, In b items ->
        (checkBuyer env b = IsValid b ->
         In b (fst (checkNftBuyerApprovalAndBalance env items)))
        /\ (forall err, checkBuyer env b = IsInvalid b err ->
            In {| invalidItem := b; orderError := err |}
               (snd (checkNftBuyerApprovalAndBalance env items)))).
Proof.
  intros b orderCurrency Hc buyer expectedCost currencies.
  pose proof (currenciesOf_dedup b Hc) as Hcur. fold currencies in Hcur.
  split; [exact Hcur|]. split.
  { subst currencies. destruct (String.eqb_spec orderCurrency (txnCurrencyAddress env)).
    - constructor; [intros []|constructor].
    - constructor; [intros [E|[]]; now symmetry in E|].
      constructor; [intros []|constructor]. }
  split; [|split; [|split]].
  - intros checked currency rest allowed Hsplit Hchecked Ha Hlow.
    unfold checkBuyer. fold buyer. rewrite Hcur, Hsplit, map_app.
    rewrite (checkCurrencies_passed _ Hchecked).
    cbn [map checkCurrencies]. rewrite Ha. cbn [await bind].
    rewrite expectedCostOf_spec. fold expectedCost. unfold spec_expectedCost.
    fold expectedCost.
    destruct (Z.ltb_spec allowed expectedCost); [reflexivity | lia].
  - intros checked currency rest allowed balance Hsplit Hchecked Ha Hok Hb Hlow.
    unfold checkBuyer. fold buyer. rewrite Hcur, Hsplit, map_app.
    rewrite (checkCurrencies_passed _ Hchecked).
    cbn [map checkCurrencies]. rewrite Ha. cbn [await bind].
    rewrite expectedCostOf_spec. unfold spec_expectedCost. fold expectedCost.
    destruct (Z.ltb_spec allowed expectedCost); [lia|].
    rewrite Hb. cbn [await bind].
    destruct (Z.ltb_spec balance expectedCost); [reflexivity | lia].
  - intros Hall. unfold checkBuyer. fold buyer. rewrite Hcur.
    rewrite <- (app_nil_r (map Some currencies)).
    rewrite (checkCurrencies_passed _ Hall). reflexivity.
  - intros items Hin. unfold checkNftBuyerApprovalAndBalance. split.
    + now apply splitResults_valid.
    + intros err. now apply splitResults_invalid.
Qed.

(** The seller pass, with the comparison the code makes: the first
    collection, in order, that the seller has not approved rejects the
    item with [NotApprovedToTransferToken]; otherwise the first token
    whose lower-cased owner differs from the signer, as stored, rejects it
    with [InsufficientTokenBalance]; an item all of whose collections pass
    is valid. *)
Lemma seller_pass_classifies (b : WithCurrentPrice T) :
  let signerAddress := signer (sell (base (itemOf b))) in
  (forall checked n rest,
     sellerNfts (itemOf b) = checked ++ n :: rest ->
     Forall (passesCollection env signerAddress) checked ->
     isApprovedForAll env (collection n) signerAddress (contractAddress env)
       = Fulfilled false ->
     checkSeller env b
     = IsInvalid b {| error := OperatorNotApproved (contractAddress env) (collection n);
                      code := NotApprovedToTransferToken |})
  /\ (forall checked n rest owned t others ownerOfToken,
        sellerNfts (itemOf b) = checked ++ n :: rest ->
        Forall (passesCollection env signerAddress) checked ->
        isApprovedForAll env (collection n) signerAddress (contractAddress env)
          = Fulfilled true ->
        tokens n = owned ++ t :: others ->
        Forall (ownsToken env signerAddress (collection n)) owned ->
        ownerOf env (collection n) (tokenId t) = Fulfilled ownerOfToken ->
        signerAddress <> toLowerCase ownerOfToken ->
        checkSeller env b
        = IsInvalid b {| error := SignerDoesNotOwn signerAddress (numTokens t)
                                    (tokenId t) (collection n);
                         code := InsufficientTokenBalance |})
  /\ (Forall (passesCollection env signerAddress) (sellerNfts (itemOf b)) ->
      checkSeller env b = IsValid b).
Proof.
  intros signerAddress. split; [|split].
  - intros checked n rest Hsplit Hchecked Hno.
    unfold checkSeller. fold signerAddress. rewrite Hsplit.
    rewrite (checkCollections_passed _ Hchecked).
    cbn [checkCollections]. rewrite Hno. reflexivity.
  - intros checked n rest owned t others ownerOfToken Hsplit Hchecked Hyes Htok Howned Ho Hne.
    unfold checkSeller. fold signerAddress. rewrite Hsplit.
    rewrite (checkCollections_passed _ Hchecked).
    cbn [checkCollections]. rewrite Hyes. cbn [await bind negb].
    rewrite Htok, (checkCollections_tokens_passed _ Howned).
    cbn [checkTokens]. rewrite Ho. cbn [await bind].
    apply String.eqb_neq in Hne. rewrite Hne. reflexivity.
  - intros Hall. unfold checkSeller. fold signerAddress.
    rewrite <- (app_nil_r (sellerNfts (itemOf b))).
    rewrite (checkCollections_passed _ Hall). reflexivity.
Qed.

End Items.

End PassProperties.

(** An allowance one wei short, a balance one wei short, and a buyer who can
    pay: the expected cost of a price of 1e18 is 1.1e18. *)
Lemma buyer_pass_classifies_witness :
  checkBuyer SampleChain.shortAllowance (SampleChain.priced (SampleChain.item "m1" "0xab"))
  = IsInvalid (SampleChain.priced (SampleChain.item "m1" "0xab"))
      {| code := InsufficientCurrencyAllowance;
         error := AllowanceTooLow "0xbb" "0xeeee" 1099999999999999999 1100000000000000000 |}
  /\ checkBuyer SampleChain.shortBalance (SampleChain.priced (SampleChain.item "m1" "0xab"))
     = IsInvalid (SampleChain.priced (SampleChain.item "m1" "0xab"))
         {| code := InsufficientCurrencyBalance;
            error := BalanceTooLow "0xbb" "0xeeee" 1099999999999999999 1100000000000000000 |}
  /\ checkBuyer SampleChain.healthy (SampleChain.priced (SampleChain.item "m1" "0xab"))
     = IsValid (SampleChain.priced (SampleChain.item "m1" "0xab")).
Proof.
  split; [|split].
  - destruct (@buyer_pass_classifies Z SampleChain.shortAllowance MatchOrdersBundleItem MatchOrders_extends
                (SampleChain.priced (SampleChain.item "m1" "0xab")) "0xeeee" eq_refl)
      as (_ & _ & Hallowance & _).
    apply (Hallowance [] "0xeeee" [] 1099999999999999999).
    + reflexivity.
    + constructor.
    + reflexivity.
    + reflexivity.
  - destruct (@buyer_pass_classifies Z SampleChain.shortBalance MatchOrdersBundleItem MatchOrders_extends
                (SampleChain.priced (SampleChain.item "m1" "0xab")) "0xeeee" eq_refl)
      as (_ & _ & _ & Hbalance & _).
    apply (Hbalance [] "0xeeee" [] 2000000000000000000 1099999999999999999).
    + reflexivity.
    + constructor.
    + reflexivity.
    + discriminate.
    + reflexivity.
    + reflexivity.
  - destruct (@buyer_pass_classifies Z SampleChain.healthy MatchOrdersBundleItem MatchOrders_extends
                (SampleChain.priced (SampleChain.item "m1" "0xab")) "0xeeee" eq_refl)
      as (_ & _ & _ & _ & Hvalid & _).
    apply Hvalid. constructor; [|constructor].
    exists 2000000000000000000, 2000000000000000000.
    split; [reflexivity|]. split; [discriminate|]. split; [reflexivity | discriminate].
Defined.

Lemma lower_ascii_idempotent (c : ascii) : lower_ascii (lower_ascii c) = lower_ascii c.
Proof. destruct c as [[] [] [] [] [] [] [] []]; reflexivity. Qed.

Lemma toLowerCase_idempotent (s : string) : toLowerCase (toLowerCase s) = toLowerCase s.
Proof.
  induction s as [|c s IH]; cbn [toLowerCase]; [reflexivity|].
  now rewrite lower_ascii_idempotent, IH.
Qed.

(** For a signer stored in lower case the test of the seller pass is the
    case-insensitive comparison. *)
Lemma seller_test_lowercase_signer (signerAddress ownerOfToken : string) :
  toLowerCase signerAddress = signerAddress ->
  (String.eqb signerAddress (toLowerCase ownerOfToken) = true
   <-> toLowerCase signerAddress = toLowerCase ownerOfToken).
Proof.
  intros Hlow. rewrite String.eqb_eq, Hlow. reflexivity.
Qed.

(** C6, at a failing input. The listing is signed by "0xAB", the exchange is
    approved, and [ownerOf] answers "0xAB" for the token: the owner is the
    signer, letter for letter. The seller pass lower-cases the owner only,
    compares "0xAB" with "0xab", and rejects the item with
    [InsufficientTokenBalance]. The same item signed by "0xab" passes. *)
Theorem seller_pass_compares_signer_as_stored :
  ownerOf SampleChain.healthy "0xc0ffee" "7" = Fulfilled "0xAB"
  /\ signer (sell (SampleChain.baseItem "m1" "0xAB")) = "0xAB"
  /\ toLowerCase "0xAB" = "0xab"
  /\ checkNftSellerApprovalAndBalance SampleChain.healthy
       [SampleChain.priced (SampleChain.item "m1" "0xAB")]
     = ([],
        [ {| invalidItem := SampleChain.priced (SampleChain.item "m1" "0xAB");
             orderError :=
               {| code := InsufficientTokenBalance;
                  error := SignerDoesNotOwn "0xAB" 1 "7" "0xc0ffee" |} |} ])
  /\ checkNftSellerApprovalAndBalance SampleChain.healthy
       [SampleChain.priced (SampleChain.oneToOneItem "m1" "0xAB")]
     = ([],
        [ {| invalidItem := SampleChain.priced (SampleChain.oneToOneItem "m1" "0xAB");
             orderError :=
               {| code := InsufficientTokenBalance;
                  error := SignerDoesNotOwn "0xAB" 1 "7" "0xc0ffee" |} |} ])
  /\ checkNftSellerApprovalAndBalance SampleChain.healthy
       [SampleChain.priced (SampleChain.item "m1" "0xab")]
     = ([SampleChain.priced (SampleChain.item "m1" "0xab")], []).
Proof. repeat split; reflexivity. Qed.

Example seller_pass_not_approved :
  checkNftSellerApprovalAndBalance SampleChain.unapproved
    [SampleChain.priced (SampleChain.item "m1" "0xab")]
  = ([],
     [ {| invalidItem := SampleChain.priced (SampleChain.item "m1" "0xab");
          orderError :=
            {| code := NotApprovedToTransferToken;
               error := OperatorNotApproved "0xe8c4a96e" "0xc0ffee" |} |} ]).
Proof. reflexivity. Qed.

(** * Part V. Further properties of the builder *)

(** ** Normalization keeps the value *)

Lemma nzhead_not_D0 (u v : Decimal.uint) : Decimal.nzhead u <> Decimal.D0 v.
Proof. induction u; cbn; try discriminate. exact IHu. Qed.

Lemma to_uint_not_D0 (p : positive) (u : Decimal.uint) : Pos.to_uint p <> Decimal.D0 u.
Proof.
  intros E.
  pose proof (DecimalPos.Unsigned.to_of (Pos.to_uint p)) as H.
  rewrite DecimalPos.Unsigned.of_to in H. cbn [N.to_uint] in H.
  rewrite E in H. unfold Decimal.unorm in H. cbn [Decimal.nzhead] in H.
  destruct (Decimal.nzhead u) eqn:En; try discriminate H.
  - injection H as ->. apply (DecimalPos.Unsigned.to_uint_nonzero p). exact E.
  - exact (@nzhead_not_D0 u _ En).
Qed.

(** The decimal string of a number is never read as hexadecimal. *)
Lemma parseHex_toString (z : Z) : parseHex (BigNumber_toString z) = None.
Proof.
  unfold BigNumber_toString.
  destruct z as [|p|p]; [reflexivity| |];
    cbn [Z.to_int DecimalString.NilZero.string_of_int];
    pose proof (@to_uint_not_D0 p) as H0;
    pose proof (DecimalPos.Unsigned.to_uint_nonnil p) as Hn;
    destruct (Pos.to_uint p) as [|u|u|u|u|u|u|u|u|u|u]; try reflexivity;
    solve [ now contradiction Hn | now contradiction (H0 u) ].
Qed.

Lemma BigNumber_from_toString (z : Z) :
  BigNumber_from (JsString (BigNumber_toString z)) = Ok z.
Proof.
  unfold BigNumber_from. now rewrite parseHex_toString, parseDecimal_toString.
Qed.

(** X1. Normalizing a constraint keeps the number it denotes, and a
    normalized constraint is a fixed point of the normalization: whenever
    [BigNumber.from(item).toString()] succeeds, reading the result back gives
    the same big number, and normalizing it again changes nothing. *)
Theorem normalize_round_trip : forall v w : BigNumberish,
  normalize v = Ok w ->
  exists z, BigNumber_from v = Ok z
            /\ BigNumber_from w = Ok z
            /\ w = JsString (BigNumber_toString z)
            /\ normalize w = Ok w.
Proof.
  intros v w. unfold normalize at 1.
  destruct (BigNumber_from v) as [z|] eqn:Ev; cbn [bind]; [|discriminate].
  intros [= <-]. exists z. split; [reflexivity|].
  split; [apply BigNumber_from_toString|]. split; [reflexivity|].
  unfold normalize. now rewrite BigNumber_from_toString.
Qed.

(** The hexadecimal string 0x1F and the number 31. *)
Lemma normalize_round_trip_witness :
  normalize (JsString "0x1F") = Ok (JsString "31")
  /\ exists z, BigNumber_from (JsString "0x1F") = Ok z
               /\ BigNumber_from (JsString "31") = Ok z
               /\ JsString "31" = JsString (BigNumber_toString z)
               /\ normalize (JsString "31") = Ok (JsString "31").
Proof.
  split; [reflexivity|].
  exact (@normalize_round_trip (JsString "0x1F") (JsString "31") eq_refl).
Defined.

(** ** Reading the orders, and what is emitted *)

Section BuilderFurther.

Variable orders : string -> option FirestoreOrder.t.
Variable orderHash : ChainOBOrder -> string.
Variable getExchangeAddress : string -> string.

Lemma filter_listing_flag (l : list (option FirestoreOrder.t)) (o : option FirestoreOrder.t) :
  In o (filter is_listing l) -> exists d, o = Some d /\ FirestoreOrder.isSellOrder d = true.
Proof.
  intros Hin. apply filter_In in Hin. destruct Hin as [_ Ho].
  destruct o as [d|]; [eauto | discriminate].
Qed.

Lemma filter_offer_flag (l : list (option FirestoreOrder.t)) (o : option FirestoreOrder.t) :
  In o (filter is_offer l) -> exists d, o = Some d /\ FirestoreOrder.isSellOrder d = false.
Proof.
  intros Hin. apply filter_In in Hin. destruct Hin as [_ Ho].
  destruct o as [d|]; [|discriminate]. exists d. split; [reflexivity|].
  cbn in Ho. now apply negb_true_iff in Ho.
Qed.

Lemma getOrders_iff (m : OrderMatch.t) (listing offer : FirestoreOrder.t) :
  getOrders orders m = Ok (listing, offer)
  <-> listingsOf orders m = [Some listing] /\ offersOf orders m = [Some offer].
Proof.
  unfold getOrders, listingsOf, offersOf.
  destruct (filter is_listing (map orders (OrderMatch.ids m))) as [|[l|] ls] eqn:El;
    cbn [nth_error].
  - split; [discriminate | intros [[=] _]].
  - destruct (filter is_offer (map orders (OrderMatch.ids m))) as [|[o|] os] eqn:Eo;
      cbn [nth_error].
    + split; [discriminate | intros [_ [=]]].
    + destruct ls as [|l' ls]; destruct os as [|o' os]; cbn.
      * split; [intros [= -> ->]; now split | intros [[= ->] [= ->]]; reflexivity].
      * split; [discriminate | intros [_ [=]]].
      * split; [discriminate | intros [[=] _]].
      * split; [discriminate | intros [[=] _]].
    + split; [discriminate | intros [_ [=]]].
  - split; [discriminate | intros [[=] _]].
Qed.

(** X2. [getOrders] succeeds exactly when the documents read for [match.ids]
    contain one listing and one offer, and then it returns these two: ids
    whose document does not exist are ignored, the position of an id in
    [match.ids] plays no part, and the listing returned has
    [isSellOrder = true], the offer [isSellOrder = false]. *)
Theorem getOrders_exactly_one : forall (m : OrderMatch.t) (listing offer : FirestoreOrder.t),
  (getOrders orders m = Ok (listing, offer)
   <-> listingsOf orders m = [Some listing] /\ offersOf orders m = [Some offer])
  /\ (getOrders orders m = Ok (listing, offer) ->
      FirestoreOrder.isSellOrder listing = true
      /\ FirestoreOrder.isSellOrder offer = false
      /\ In (Some listing) (map orders (OrderMatch.ids m))
      /\ In (Some offer) (map orders (OrderMatch.ids m))).
Proof.
  intros m listing offer. split; [apply getOrders_iff|].
  intros Hok. apply getOrders_iff in Hok. destruct Hok as [Hl Ho].
  assert (In (Some listing) (listingsOf orders m)) as Hinl by (rewrite Hl; now left).
  assert (In (Some offer) (offersOf orders m)) as Hino by (rewrite Ho; now left).
  unfold listingsOf in Hinl. unfold offersOf in Hino.
  destruct (filter_listing_flag _ _ Hinl) as (d & [= <-] & Hd).
  destruct (filter_offer_flag _ _ Hino) as (d' & [= <-] & Hd').
  apply filter_In in Hinl, Hino. now repeat split.
Qed.

(** X3. [handleOrderMatchUpdate] delivers nothing. The statements that build
    the item succeed exactly when the match is active, the read yields one
    listing and one offer and [createBundleItem] builds the item from them;
    but then the call of [this.emit], which neither class defines, throws
    inside the [try], and the [catch] logs that error as it logs an error of
    the build. So in every case the only effect is one console line: no event
    is emitted and nothing is written to the match collection.
    [handleOrderMatchRemoved] has no [try], and throws. *)
Theorem update_never_delivered : forall (id : string) (m : OrderMatch.t),
  (forall item,
     buildUpdate orders orderHash getExchangeAddress id m = Ok item
     <-> OrderMatch.status m = Status_Active
         /\ exists listing offer,
              listingsOf orders m = [Some listing]
              /\ offersOf orders m = [Some offer]
              /\ createBundleItem orderHash getExchangeAddress id listing offer m = Ok item)
  /\ (forall item,
        buildUpdate orders orderHash getExchangeAddress id m = Ok item ->
        handleOrderMatchUpdate orders orderHash getExchangeAddress id m
        = [ConsoleError EmitIsNotAFunction])
  /\ (forall err,
        buildUpdate orders orderHash getExchangeAddress id m = Throw err ->
        handleOrderMatchUpdate orders orderHash getExchangeAddress id m
        = [ConsoleError err])
  /\ (exists message,
        handleOrderMatchUpdate orders orderHash getExchangeAddress id m
        = [ConsoleError message])
  /\ (forall event,
        ~ In (Emit event) (handleOrderMatchUpdate orders orderHash getExchangeAddress id m))
  /\ handleOrderMatchRemoved id = Throw EmitIsNotAFunction.
Proof.
  intros id m. split; [|split; [|split; [|split; [|split]]]].
  - intros item. unfold buildUpdate. split.
    + destruct (OrderMatch.status m); try discriminate.
      destruct (getOrders orders m) as [[listing offer]|] eqn:Eg; cbn [bind]; [|discriminate].
      intros Hc. split; [reflexivity|]. exists listing, offer.
      apply getOrders_iff in Eg. destruct Eg as [Hl Ho]. now repeat split.
    + intros (Hactive & listing & offer & Hl & Ho & Hc). rewrite Hactive.
      assert (getOrders orders m = Ok (listing, offer)) as ->
        by (apply getOrders_iff; now split).
      cbn [bind]. exact Hc.
  - intros item Hbuilt. unfold handleOrderMatchUpdate. rewrite Hbuilt. reflexivity.
  - intros err Hthrown. unfold handleOrderMatchUpdate. rewrite Hthrown. reflexivity.
  - unfold handleOrderMatchUpdate.
    destruct (buildUpdate orders orderHash getExchangeAddress id m) as [item|message];
      cbn [bind emit]; eauto.
  - intros event. unfold handleOrderMatchUpdate.
    destruct (buildUpdate orders orderHash getExchangeAddress id m) as [item|message];
      cbn [bind emit In]; intros [E|[]]; discriminate E.
  - reflexivity.
Qed.


Lemma with_constraints_same (o : ChainOBOrder) : with_constraints o (constraints o) = o.
Proof. now destruct o. Qed.

(** X4. In every item the builder returns, for either match type: the id is
    the match id; [chainId] is the listing's and [exchangeAddress] the
    exchange of the listing's chain (the offer's chain is not looked at);
    apart from their constraints the two orders are the listing's and the
    offer's signed orders; the two hashes are the hashes of the orders as the
    item carries them; and the bundle type follows the match type. *)
Theorem createBundleItem_invariants :
  forall matchId listing offer (m : OrderMatch.t) (item : BundleItem),
    createBundleItem orderHash getExchangeAddress matchId listing offer m = Ok item ->
    id (base item) = matchId
    /\ chainId (base item) = FirestoreOrder.chainId listing
    /\ exchangeAddress (base item) = getExchangeAddress (FirestoreOrder.chainId listing)
    /\ sellOrderHash (base item) = orderHash (sell (base item))
    /\ buyOrderHash (base item) = orderHash (buy (base item))
    /\ (exists cs, sell (base item) = with_constraints (FirestoreOrder.signedOrder listing) cs)
    /\ (exists cs, buy (base item) = with_constraints (FirestoreOrder.signedOrder offer) cs)
    /\ (bundleType item = BundleType_MatchOrders <-> OrderMatch.type m = Method_MatchOrders)
    /\ (bundleType item = BundleType_MatchOrdersOneToOne
        <-> OrderMatch.type m = Method_MatchOneToOneOrders).
Proof.
  intros id0 listing offer m item. unfold createBundleItem.
  destruct (flatten m) as [chainNfts numMatches].
  destruct (OrderMatch.type m) as [| |name] eqn:Hty; [| |discriminate].
  - unfold getMatchOrdersBundle.
    destruct (normalize (constraint_at (FirestoreOrder.signedOrder offer) 1));
      cbn [bind]; [|discriminate].
    destruct (normalize (constraint_at (FirestoreOrder.signedOrder offer) 2));
      cbn [bind]; [|discriminate].
    destruct (mapM normalize (constraints (FirestoreOrder.signedOrder listing))) as [lc|];
      cbn [bind]; [|discriminate].
    destruct (mapM normalize (constraints (FirestoreOrder.signedOrder offer))) as [oc|];
      cbn [bind]; [|discriminate].
    intros [= <-]. cbn.
    repeat split; try reflexivity; try discriminate; eauto.
  - intros [= <-]. cbn.
    repeat split; try reflexivity; try discriminate.
    + exists (constraints (FirestoreOrder.signedOrder listing)).
      symmetry. apply with_constraints_same.
    + exists (constraints (FirestoreOrder.signedOrder offer)).
      symmetry. apply with_constraints_same.
Qed.

End BuilderFurther.

(** The offer comes first in [match.ids] and a third id has no document. *)
Lemma getOrders_exactly_one_witness :
  getOrders Sample.orders
    {| OrderMatch.ids := ["offer-1"; "gone"; "listing-1"];
       OrderMatch.orderItems := Sample.orderItems;
       OrderMatch.type := Method_MatchOrders; OrderMatch.status := Status_Active |}
  = Ok (Sample.listing, Sample.offer)
  /\ FirestoreOrder.isSellOrder Sample.listing = true
  /\ FirestoreOrder.isSellOrder Sample.offer = false.
Proof.
  pose proof (@getOrders_exactly_one Sample.orders
                {| OrderMatch.ids := ["offer-1"; "gone"; "listing-1"];
                   OrderMatch.orderItems := Sample.orderItems;
                   OrderMatch.type := Method_MatchOrders;
                   OrderMatch.status := Status_Active |}
                Sample.listing Sample.offer) as [Hiff Hflags].
  assert (getOrders Sample.orders
            {| OrderMatch.ids := ["offer-1"; "gone"; "listing-1"];
               OrderMatch.orderItems := Sample.orderItems;
               OrderMatch.type := Method_MatchOrders; OrderMatch.status := Status_Active |}
          = Ok (Sample.listing, Sample.offer)) as Hok.
  { apply Hiff. split; reflexivity. }
  split; [exact Hok|].
  destruct (Hflags Hok) as (Hl & Ho & _). split; [exact Hl | exact Ho].
Defined.

(** The sample match over the listing and the offer: the item is built, and
    the console gets the error of [this.emit]. *)
Lemma update_never_delivered_witness :
  handleOrderMatchUpdate Sample.orders Sample.orderHash Sample.getExchangeAddress
    "m1" Sample.oneToOneMatch = [ConsoleError "this.emit is not a function"]
  /\ exists item,
       buildUpdate Sample.orders Sample.orderHash Sample.getExchangeAddress
         "m1" Sample.oneToOneMatch = Ok item.
Proof.
  split.
  - eapply (proj1 (proj2 (@update_never_delivered Sample.orders Sample.orderHash
                            Sample.getExchangeAddress "m1" Sample.oneToOneMatch))).
    reflexivity.
  - eexists.
    apply (proj2 (proj1 (@update_never_delivered Sample.orders Sample.orderHash
                           Sample.getExchangeAddress "m1" Sample.oneToOneMatch) _)).
    split; [reflexivity|]. exists Sample.listing, Sample.offer.
    split; [reflexivity|]. split; reflexivity.
Defined.

(** The sample [MatchOrders] match: the hashes are those of the normalized
    orders the item carries. *)
Lemma createBundleItem_invariants_witness :
  exists item,
    createBundleItem Sample.orderHash Sample.getExchangeAddress "m1"
      Sample.listing Sample.offer Sample.matchOrdersMatch = Ok item
    /\ sellOrderHash (base item) = Sample.orderHash (sell (base item))
    /\ chainId (base item) = "1".
Proof.
  eexists. split; [reflexivity|].
  pose proof (@createBundleItem_invariants Sample.orderHash Sample.getExchangeAddress "m1"
                Sample.listing Sample.offer Sample.matchOrdersMatch _ eq_refl)
    as (_ & Hchain & _ & Hsell & _).
  split; [exact Hsell | exact Hchain].
Defined.

(** ** When the [MatchOrders] builder throws *)

Lemma normalize_undefined : forall m, normalize JsUndefined <> Ok m.
Proof. intros m. discriminate. Qed.

(** X5. [getMatchOrdersBundle] returns an item exactly when [BigNumber.from]
    can read every constraint of the listing and of the offer and the offer
    has at least three constraints (positions 1 and 2 are read by index); in
    every other case it throws, and the match is not emitted. *)
Theorem getMatchOrdersBundle_succeeds_iff :
  forall orderHash getExchangeAddress matchId listing offer numMatches chainNfts,
    (exists item,
       getMatchOrdersBundle orderHash getExchangeAddress matchId listing offer
         numMatches chainNfts = Ok item)
    <-> (exists listingConstraints,
           mapM normalize (constraints (FirestoreOrder.signedOrder listing))
           = Ok listingConstraints)
        /\ (exists offerConstraints,
              mapM normalize (constraints (FirestoreOrder.signedOrder offer))
              = Ok offerConstraints)
        /\ (3 <= List.length (constraints (FirestoreOrder.signedOrder offer)))%nat.
Proof.
  intros orderHash getExchangeAddress matchId listing offer numMatches chainNfts.
  unfold getMatchOrdersBundle, constraint_at. split.
  - intros [item Hitem].
    destruct (normalize (nth 1 (constraints (FirestoreOrder.signedOrder offer)) JsUndefined))
      as [c1|] eqn:E1; cbn [bind] in Hitem; [|discriminate].
    destruct (normalize (nth 2 (constraints (FirestoreOrder.signedOrder offer)) JsUndefined))
      as [c2|] eqn:E2; cbn [bind] in Hitem; [|discriminate].
    destruct (mapM normalize (constraints (FirestoreOrder.signedOrder listing))) as [lc|];
      cbn [bind] in Hitem; [|discriminate].
    destruct (mapM normalize (constraints (FirestoreOrder.signedOrder offer))) as [oc|];
      cbn [bind] in Hitem; [|discriminate].
    split; [eauto|]. split; [eauto|].
    destruct (Nat.le_gt_cases 3 (List.length (constraints (FirestoreOrder.signedOrder offer))))
      as [Hlen|Hlen]; [exact Hlen|].
    rewrite nth_overflow in E2 by lia. discriminate E2.
  - intros ((lc & Hl) & (oc & Ho) & Hlen).
    rewrite (@mapM_nth _ _ normalize _ _ 1%nat JsUndefined JsUndefined Ho) by lia.
    rewrite (@mapM_nth _ _ normalize _ _ 2%nat JsUndefined JsUndefined Ho) by lia.
    cbn [bind]. rewrite Hl, Ho. cbn [bind]. eauto.
Qed.

(** The sample listing and offer, six readable constraints each: the builder
    returns an item. *)
Lemma getMatchOrdersBundle_succeeds_iff_witness :
  exists item,
    getMatchOrdersBundle Sample.orderHash Sample.getExchangeAddress "m1" Sample.listing
      Sample.offer 1 [Sample.nft] = Ok item.
Proof.
  apply (proj2 (@getMatchOrdersBundle_succeeds_iff Sample.orderHash
                  Sample.getExchangeAddress "m1" Sample.listing Sample.offer
                  1 [Sample.nft])).
  split; [|split].
  - eexists. vm_compute. reflexivity.
  - eexists. vm_compute. reflexivity.
  - cbn. lia.
Defined.

(** ** The match count against the flattened set *)

Lemma spec_numMatches_counts (cs : list OrderItem.Collection) :
  spec_numMatches cs
  = Z.of_nat (List.length (flat_map tokens (map spec_chainNfts cs)))
    + Z.of_nat (List.length (filter noTokens (map spec_chainNfts cs))).
Proof.
  induction cs as [|c cs IH]; [reflexivity|].
  unfold spec_numMatches in *. cbn [map fold_right flat_map filter]. rewrite IH.
  unfold spec_collectionMatches, noTokens. rewrite List.length_app.
  cbn [spec_chainNfts tokens]. rewrite List.length_map.
  destruct (Object_values (OrderItem.tokens c)) as [|t ts]; cbn [map List.length]; lia.
Qed.

(** X6. The [numMatches] that [createBundleItem] computes equals the number
    of tokens of the flattened set plus the number of its collections without
    tokens; it is therefore at least the number of collections, and it is 0
    only for a match without collections. *)
Theorem numMatches_counts : forall m : OrderMatch.t,
  snd (flatten m)
  = Z.of_nat (List.length (flat_map tokens (fst (flatten m))))
    + Z.of_nat (List.length (filter noTokens (fst (flatten m))))
  /\ Z.of_nat (List.length (OrderMatch.orderItems m)) <= snd (flatten m)
  /\ (snd (flatten m) = 0 <-> OrderMatch.orderItems m = []).
Proof.
  intros m. unfold flatten. rewrite flattenCollection_fold. cbn [fst snd].
  rewrite app_nil_l, Z.add_0_l. split; [apply spec_numMatches_counts|].
  unfold Object_values.
  assert (forall cs : list OrderItem.Collection,
            Z.of_nat (List.length cs) <= spec_numMatches cs) as Hge.
  { induction cs as [|c cs IH]; [reflexivity|].
    unfold spec_numMatches in *. cbn [map fold_right List.length].
    unfold spec_collectionMatches at 1. lia. }
  specialize (Hge (map snd (OrderMatch.orderItems m))). rewrite List.length_map in Hge.
  split; [exact Hge|]. split.
  - intros Hzero. destruct (OrderMatch.orderItems m); [reflexivity|].
    cbn [List.length] in Hge. lia.
  - intros ->. reflexivity.
Qed.

(** * Part VI. Further properties of the encoder *)

(** ** Round-robin distribution *)

Lemma bucketIndex_mod (i : nat) (k : Z) :
  1 <= k -> bucketIndex i k = Some (i mod Z.to_nat k)%nat.
Proof.
  intros Hk. unfold bucketIndex.
  destruct (Z.eqb_spec k 0) as [->|_]; [lia|].
  rewrite Z.rem_mod_nonneg by lia.
  rewrite Z2Nat.inj_mod by lia. now rewrite Nat2Z.id.
Qed.

Lemma get_at_set_at {A : Type} (l : list (option A)) (i j : nat) (v : A) :
  get_at (set_at l i v) j = if (i =? j)%nat then Some v else get_at l j.
Proof.
  unfold get_at. revert l j. induction i as [|i IH]; intros [|h t] [|j]; cbn; try reflexivity.
  - now destruct j.
  - rewrite IH. destruct (i =? j)%nat; [reflexivity|]. now destruct j.
  - apply IH.
Qed.

Lemma set_at_all_some {A : Type} (l : list (option A)) (i : nat) (v : A) :
  (i <= List.length l)%nat -> Forall isSome l -> Forall isSome (set_at l i v).
Proof.
  revert l. induction i as [|i IH]; intros [|h t] Hi Hall; cbn [set_at].
  - constructor; [discriminate | constructor].
  - inversion Hall; subst. constructor; [discriminate | assumption].
  - cbn in Hi. lia.
  - inversion Hall; subst. constructor; [assumption|]. apply IH; [cbn in Hi; lia | assumption].
Qed.

Lemma bucketOf_set_at (acc : list (option Bundle)) (i j : nat) (v : Bundle) :
  bucketOf (set_at acc i v) j = if (i =? j)%nat then v else bucketOf acc j.
Proof.
  unfold bucketOf. rewrite get_at_set_at. now destruct (i =? j)%nat.
Qed.

Section RoundRobin.

Context {A : Type}.
Variable k : nat.
Variable push : Bundle -> A -> Bundle.
Hypothesis k_positive : (1 <= k)%nat.

Lemma place_contents (l : list A) :
  forall (i : nat) (acc : list (option Bundle)) (j : nat),
    bucketOf (reduce_indexed (place k push) l i acc) j
    = fold_left push (bucketItems l i k j) (bucketOf acc j).
Proof.
  induction l as [|x l IH]; intros i acc j; cbn [reduce_indexed bucketItems].
  - reflexivity.
  - rewrite IH. unfold place. rewrite bucketOf_set_at.
    destruct (Nat.eqb_spec (i mod k) j) as [->|Hne]; reflexivity.
Qed.

Lemma place_shape (l : list A) :
  forall (i : nat) (acc : list (option Bundle)),
    List.length acc = Nat.min i k -> Forall isSome acc ->
    List.length (reduce_indexed (place k push) l i acc) = Nat.min (i + List.length l) k
    /\ Forall isSome (reduce_indexed (place k push) l i acc).
Proof.
  induction l as [|x l IH]; intros i acc Hlen Hall; cbn [reduce_indexed List.length].
  - rewrite Nat.add_0_r. now split.
  - pose proof (Nat.mod_upper_bound i k ltac:(lia)) as Hmod.
    replace (i + S (List.length l))%nat with (S i + List.length l)%nat by lia.
    apply IH.
    + unfold place. rewrite set_at_length, Hlen.
      destruct (Nat.lt_ge_cases i k) as [Hlt|Hge].
      * rewrite Nat.mod_small by exact Hlt. lia.
      * lia.
    + unfold place. apply set_at_all_some; [|exact Hall]. rewrite Hlen.
      destruct (Nat.lt_ge_cases i k) as [Hlt|Hge].
      * rewrite Nat.mod_small by exact Hlt. lia.
      * lia.
Qed.

Lemma place_buckets (l : list A) :
  reduce_indexed (place k push) l 0 []
  = map (fun j => Some (fold_left push (bucketItems l 0 k j) emptyBundle))
        (seq 0 (Nat.min k (List.length l))).
Proof.
  destruct (@place_shape l 0%nat [] eq_refl (Forall_nil _)) as [Hlen Hall].
  cbn [Nat.add] in Hlen. rewrite Nat.min_comm in Hlen.
  apply nth_error_ext. intros j.
  destruct (Nat.lt_ge_cases j (Nat.min k (List.length l))) as [Hlt|Hge].
  - rewrite nth_error_map, nth_error_seq.
    destruct (Nat.ltb_spec j (Nat.min k (List.length l))) as [_|Hno]; [|lia].
    cbn [option_map Nat.add].
    pose proof (place_contents l 0 [] j) as Hc.
    unfold bucketOf at 1 in Hc. unfold get_at in Hc.
    destruct (nth_error (reduce_indexed (place k push) l 0 []) j) as [[b|]|] eqn:En.
    + rewrite Hc. unfold bucketOf, get_at. now destruct j.
    + exfalso. apply nth_error_In in En.
      rewrite Forall_forall in Hall. now apply (Hall None En).
    + apply nth_error_None in En. lia.
  - rewrite (proj2 (nth_error_None _ _)) by lia.
    symmetry. apply nth_error_None. rewrite List.length_map, length_seq. lia.
Qed.

End RoundRobin.

Lemma pushMatchOrders_fold (items : list MatchOrdersBundleItem) (b : Bundle) :
  fold_left pushMatchOrders items b
  = {| sells := sells b ++ map (fun item => sell (matchOrders_base item)) items;
       buys := buys b ++ map (fun item => buy (matchOrders_base item)) items;
       constructeds := constructeds b ++ map (fun item => nfts (constructed item)) items |}.
Proof.
  revert b. induction items as [|x items IH]; intros b; cbn [fold_left map].
  - rewrite !app_nil_r. now destruct b.
  - rewrite IH. cbn [pushMatchOrders sells buys constructeds].
    now rewrite <- !app_assoc.
Qed.

Lemma pushOneToOne_fold (items : list MatchOrdersOneToOneBundleItem) (b : Bundle) :
  fold_left pushOneToOne items b
  = {| sells := sells b ++ map (fun item => sell (oneToOne_base item)) items;
       buys := buys b ++ map (fun item => buy (oneToOne_base item)) items;
       constructeds := constructeds b |}.
Proof.
  revert b. induction items as [|x items IH]; intros b; cbn [fold_left map].
  - rewrite !app_nil_r. now destruct b.
  - rewrite IH. cbn [pushOneToOne sells buys constructeds].
    now rewrite <- !app_assoc.
Qed.

Lemma reduce_indexed_ext {A B : Type} (f g : B -> A -> nat -> B) (l : list A) :
  (forall acc x i, f acc x i = g acc x i) ->
  forall i acc, reduce_indexed f l i acc = reduce_indexed g l i acc.
Proof.
  intros Hfg. induction l as [|x l IH]; intros i acc; cbn [reduce_indexed].
  - reflexivity.
  - now rewrite Hfg, IH.
Qed.

Lemma matchOrders_transformer_buckets (items : list MatchOrdersBundleItem) (numBundles : Z) :
  1 <= numBundles ->
  matchOrdersItemsToArgsTransformer items numBundles
  = map (fun j => Some (matchOrdersArgsOf (bucketItems items 0 (Z.to_nat numBundles) j)))
        (seq 0 (Nat.min (Z.to_nat numBundles) (List.length items))).
Proof.
  intros Hk. unfold matchOrdersItemsToArgsTransformer.
  rewrite (@reduce_indexed_ext _ _ _ (place (Z.to_nat numBundles) pushMatchOrders)).
  - rewrite place_buckets by lia. unfold map_sparse. rewrite map_map.
    apply map_ext. intros j. cbn [option_map]. rewrite pushMatchOrders_fold. reflexivity.
  - intros acc x i. rewrite bucketIndex_mod by exact Hk. reflexivity.
Qed.

Lemma oneToOne_transformer_buckets (items : list MatchOrdersOneToOneBundleItem)
    (numBundles : Z) :
  1 <= numBundles ->
  matchOrdersOneToOneItemsToArgsTransformer items numBundles
  = map (fun j => Some (oneToOneArgsOf (bucketItems items 0 (Z.to_nat numBundles) j)))
        (seq 0 (Nat.min (Z.to_nat numBundles) (List.length items))).
Proof.
  intros Hk. unfold matchOrdersOneToOneItemsToArgsTransformer.
  rewrite (@reduce_indexed_ext _ _ _ (place (Z.to_nat numBundles) pushOneToOne)).
  - rewrite place_buckets by lia. unfold map_sparse. rewrite map_map.
    apply map_ext. intros j. cbn [option_map]. rewrite pushOneToOne_fold. reflexivity.
  - intros acc x i. rewrite bucketIndex_mod by exact Hk. reflexivity.
Qed.

(** X7. For a bundle count [numBundles >= 1], each transformer fills
    [min numBundles |items|] buckets, without holes, and bucket [j] holds, in
    the order received, the sell orders, the buy orders and (for
    [MatchOrders]) the constructed NFT sets of exactly the items whose index
    is [j] modulo [numBundles]. *)
Theorem transformers_round_robin : forall (numBundles : Z),
  1 <= numBundles ->
  (forall items : list MatchOrdersBundleItem,
     matchOrdersItemsToArgsTransformer items numBundles
     = map (fun j => Some (matchOrdersArgsOf (bucketItems items 0 (Z.to_nat numBundles) j)))
           (seq 0 (Nat.min (Z.to_nat numBundles) (List.length items))))
  /\ (forall items : list MatchOrdersOneToOneBundleItem,
        matchOrdersOneToOneItemsToArgsTransformer items numBundles
        = map (fun j => Some (oneToOneArgsOf (bucketItems items 0 (Z.to_nat numBundles) j)))
              (seq 0 (Nat.min (Z.to_nat numBundles) (List.length items)))).
Proof.
  intros numBundles Hk. split; intros items.
  - now apply matchOrders_transformer_buckets.
  - now apply oneToOne_transformer_buckets.
Qed.

(** Five items over two buckets: items 0, 2, 4 and items 1, 3. *)
Lemma transformers_round_robin_witness :
  matchOrdersOneToOneItemsToArgsTransformer
    [ SampleChain.oneToOneItem "a" "0xab"; SampleChain.oneToOneItem "b" "0xab";
      SampleChain.oneToOneItem "c" "0xab"; SampleChain.oneToOneItem "d" "0xab";
      SampleChain.oneToOneItem "e" "0xab" ] 2
  = [ Some (oneToOneArgsOf [ SampleChain.oneToOneItem "a" "0xab";
                             SampleChain.oneToOneItem "c" "0xab";
                             SampleChain.oneToOneItem "e" "0xab" ]);
      Some (oneToOneArgsOf [ SampleChain.oneToOneItem "b" "0xab";
                             SampleChain.oneToOneItem "d" "0xab" ]) ].
Proof.
  exact (proj2 (@transformers_round_robin 2 ltac:(discriminate))
           [ SampleChain.oneToOneItem "a" "0xab"; SampleChain.oneToOneItem "b" "0xab";
             SampleChain.oneToOneItem "c" "0xab"; SampleChain.oneToOneItem "d" "0xab";
             SampleChain.oneToOneItem "e" "0xab" ]).
Defined.

(** ** No item is lost or duplicated by the distribution *)

Lemma flat_map_insert {A : Type} (x : A) (B : nat -> list A) (j0 : nat) (s : list nat) :
  NoDup s ->
  (In j0 s ->
   Permutation (flat_map (fun j => if (j0 =? j)%nat then x :: B j else B j) s)
               (x :: flat_map B s))
  /\ (~ In j0 s ->
      flat_map (fun j => if (j0 =? j)%nat then x :: B j else B j) s = flat_map B s).
Proof.
  induction 1 as [|j s Hnotin Hnodup IH]; split.
  - intros [].
  - reflexivity.
  - intros [-> | Hin]; cbn [flat_map].
    + rewrite Nat.eqb_refl. rewrite (proj2 IH Hnotin). reflexivity.
    + destruct (Nat.eqb_spec j0 j) as [->|Hne]; [contradiction|].
      rewrite (proj1 IH Hin). apply Permutation_sym, Permutation_middle.
  - intros Hno. cbn [flat_map].
    destruct (Nat.eqb_spec j0 j) as [->|Hne]; [exfalso; apply Hno; now left|].
    rewrite (proj2 IH); [reflexivity|]. intros Hin. apply Hno. now right.
Qed.

Lemma bucketItems_permutation {A : Type} (l : list A) (k : nat) :
  (1 <= k)%nat ->
  forall i, Permutation (flat_map (fun j => bucketItems l i k j) (seq 0 k)) l.
Proof.
  intros Hk. induction l as [|x l IH]; intros i; cbn [bucketItems].
  - induction (seq 0 k) as [|j s IHs]; [constructor | exact IHs].
  - rewrite (proj1 (flat_map_insert x (fun j => bucketItems l (S i) k j) (i mod k)
                      (seq_NoDup k 0))).
    + constructor. apply IH.
    + apply in_seq. pose proof (Nat.mod_upper_bound i k ltac:(lia)). lia.
Qed.

Lemma bucketItems_beyond {A : Type} (l : list A) (k j : nat) :
  forall i, (i + List.length l <= j)%nat -> bucketItems l i k j = [].
Proof.
  induction l as [|x l IH]; intros i Hj; cbn [bucketItems]; [reflexivity|].
  cbn [List.length] in Hj.
  destruct (Nat.eqb_spec (i mod k) j) as [Heq|_].
  - exfalso. pose proof (Nat.Div0.mod_le i k). lia.
  - apply IH. lia.
Qed.

Lemma flat_map_nil {A B : Type} (f : A -> list B) (s : list A) :
  (forall a, In a s -> f a = []) -> flat_map f s = [].
Proof.
  induction s as [|a s IH]; intros Hf; cbn [flat_map]; [reflexivity|].
  rewrite (Hf a) by now left. apply IH. intros b Hb. apply Hf. now right.
Qed.

Lemma buckets_permutation {A : Type} (l : list A) (k : nat) :
  (1 <= k)%nat ->
  Permutation (flat_map (fun j => bucketItems l 0 k j) (seq 0 (Nat.min k (List.length l)))) l.
Proof.
  intros Hk.
  assert (flat_map (fun j => bucketItems l 0 k j) (seq 0 k)
          = flat_map (fun j => bucketItems l 0 k j) (seq 0 (Nat.min k (List.length l)))) as E.
  { replace (seq 0 k)
      with (seq 0 (Nat.min k (List.length l))
            ++ seq (Nat.min k (List.length l)) (k - Nat.min k (List.length l))).
    - rewrite flat_map_app, (flat_map_nil _ (seq (Nat.min k (List.length l)) _)).
      + now rewrite app_nil_r.
      + intros j Hj. apply in_seq in Hj. apply bucketItems_beyond. lia.
    - rewrite <- seq_app. f_equal. lia. }
  rewrite <- E. now apply bucketItems_permutation.
Qed.

Lemma bucketItems_nonempty {A : Type} (l : list A) (k j : nat) :
  (j < Nat.min k (List.length l))%nat -> bucketItems l 0 k j <> [].
Proof.
  intros Hj.
  assert (forall (l : list A) i, (i <= j < i + List.length l)%nat -> (j < k)%nat ->
                                 bucketItems l i k j <> []) as Hgen.
  { clear l Hj. induction l as [|x l IH]; intros i Hi Hk; cbn [bucketItems List.length] in *.
    - lia.
    - destruct (Nat.eqb_spec (i mod k) j) as [_|Hne]; [discriminate|].
      apply IH; [|exact Hk].
      destruct (Nat.eq_dec i j) as [->|Hij]; [|lia].
      rewrite Nat.mod_small in Hne by exact Hk. contradiction. }
  apply Hgen; lia.
Qed.

(** The items of the calls of a transformer's output, call after call. *)
Lemma flat_map_map_buckets {A B : Type} (f : A -> B) (buckets : nat -> list A) (s : list nat) :
  flat_map (fun j => map f (buckets j)) s = map f (flat_map buckets s).
Proof.
  induction s as [|j s IH]; cbn [flat_map]; [reflexivity|].
  now rewrite IH, map_app.
Qed.

Lemma flat_map_of_map {A B C : Type} (f : B -> list C) (g : A -> B) (s : list A) :
  flat_map f (map g s) = flat_map (fun a => f (g a)) s.
Proof.
  induction s as [|a s IH]; cbn [map flat_map]; [reflexivity|]. now rewrite IH.
Qed.

(** X8. For [numBundles >= 1] the distribution loses and duplicates nothing:
    over all the calls a transformer builds, the sell orders are the items'
    sell orders, each once, and so are the buy orders and (for [MatchOrders])
    the constructed NFT sets; and in every call the lists are non-empty and
    of one length, so that position [i] of each belongs to one item. *)
Theorem transformers_conserve_items : forall (numBundles : Z),
  1 <= numBundles ->
  (forall items : list MatchOrdersBundleItem,
     let calls := matchOrdersItemsToArgsTransformer items numBundles in
     Permutation (flat_map sellsOfCall calls)
                 (map (fun item => sell (matchOrders_base item)) items)
     /\ Permutation (flat_map buysOfCall calls)
                    (map (fun item => buy (matchOrders_base item)) items)
     /\ Permutation (flat_map constructedOfCall calls)
                    (map (fun item => nfts (constructed item)) items)
     /\ Forall (fun call => exists s b c,
                    call = Some (s, b, c) /\ s <> []
                    /\ List.length s = List.length b /\ List.length b = List.length c)
               calls)
  /\ (forall items : list MatchOrdersOneToOneBundleItem,
        let calls := matchOrdersOneToOneItemsToArgsTransformer items numBundles in
        Permutation (flat_map sellsOfOneToOneCall calls)
                    (map (fun item => sell (oneToOne_base item)) items)
        /\ Permutation (flat_map buysOfOneToOneCall calls)
                       (map (fun item => buy (oneToOne_base item)) items)
        /\ Forall (fun call => exists s b,
                       call = Some (s, b) /\ s <> []
                       /\ List.length s = List.length b)
                  calls).
Proof.
  intros numBundles Hk.
  assert (1 <= Z.to_nat numBundles)%nat as HK by lia.
  split; intros items calls; subst calls.
  - rewrite matchOrders_transformer_buckets by exact Hk.
    rewrite !flat_map_of_map. cbn [sellsOfCall buysOfCall constructedOfCall matchOrdersArgsOf].
    rewrite !flat_map_map_buckets.
    repeat split; try (apply Permutation_map; now apply buckets_permutation).
    apply Forall_forall. intros call Hin. apply in_map_iff in Hin.
    destruct Hin as (j & <- & Hj). apply in_seq in Hj.
    eexists _, _, _. split; [reflexivity|]. rewrite !List.length_map. repeat split.
    intros Hnil. apply map_eq_nil in Hnil.
    apply (@bucketItems_nonempty _ items (Z.to_nat numBundles) j); [lia | exact Hnil].
  - rewrite oneToOne_transformer_buckets by exact Hk.
    rewrite !flat_map_of_map. cbn [sellsOfOneToOneCall buysOfOneToOneCall oneToOneArgsOf].
    rewrite !flat_map_map_buckets.
    repeat split; try (apply Permutation_map; now apply buckets_permutation).
    apply Forall_forall. intros call Hin. apply in_map_iff in Hin.
    destruct Hin as (j & <- & Hj). apply in_seq in Hj.
    eexists _, _. split; [reflexivity|]. rewrite !List.length_map. repeat split.
    intros Hnil. apply map_eq_nil in Hnil.
    apply (@bucketItems_nonempty _ items (Z.to_nat numBundles) j); [lia | exact Hnil].
Qed.

(** Three items over two buckets: the three sell orders, in bucket order. *)
Lemma transformers_conserve_items_witness :
  Permutation
    (flat_map sellsOfOneToOneCall
       (matchOrdersOneToOneItemsToArgsTransformer
          [ SampleChain.oneToOneItem "a" "0xa1"; SampleChain.oneToOneItem "b" "0xb2";
            SampleChain.oneToOneItem "c" "0xc3" ] 2))
    [ SampleChain.order true "0xa1" "5" "0x5e11"; SampleChain.order true "0xb2" "5" "0x5e11";
      SampleChain.order true "0xc3" "5" "0x5e11" ].
Proof.
  exact (proj1 (proj2 (@transformers_conserve_items 2 ltac:(discriminate))
                  [ SampleChain.oneToOneItem "a" "0xa1"; SampleChain.oneToOneItem "b" "0xb2";
                    SampleChain.oneToOneItem "c" "0xc3" ])).
Defined.

(** ** One item per bucket, and the recursion that cannot end *)

Lemma bucketItems_below {A : Type} (l : list A) (k j : nat) :
  forall i, (j < i)%nat -> (i + List.length l <= k)%nat -> bucketItems l i k j = [].
Proof.
  induction l as [|x l IH]; intros i Hj Hk; cbn [bucketItems]; [reflexivity|].
  cbn [List.length] in Hk. rewrite Nat.mod_small by lia.
  destruct (Nat.eqb_spec i j) as [->|_]; [lia|]. apply IH; lia.
Qed.

Lemma bucketItems_singletons {A B : Type} (F : list A -> B) (l : list A) (k : nat) :
  forall i, (i + List.length l <= k)%nat ->
            map (fun j => F (bucketItems l i k j)) (seq i (List.length l))
            = map (fun x => F [x]) l.
Proof.
  induction l as [|x l IH]; intros i Hk; cbn [List.length seq map]; [reflexivity|].
  cbn [List.length] in Hk. f_equal.
  - cbn [bucketItems]. rewrite Nat.mod_small by lia. rewrite Nat.eqb_refl.
    rewrite bucketItems_below by lia. reflexivity.
  - rewrite <- (IH (S i)) by lia. apply map_ext_in. intros j Hj. apply in_seq in Hj.
    cbn [bucketItems]. rewrite Nat.mod_small by lia.
    destruct (Nat.eqb_spec i j) as [->|_]; [lia | reflexivity].
Qed.

Lemma matchOrders_transformer_singletons (items : list MatchOrdersBundleItem) (k : Z) :
  1 <= k -> Z.of_nat (List.length items) <= k ->
  matchOrdersItemsToArgsTransformer items k
  = map (fun item => Some (matchOrdersArgsOf [item])) items.
Proof.
  intros Hk Hlen. rewrite matchOrders_transformer_buckets by exact Hk.
  replace (Nat.min (Z.to_nat k) (List.length items)) with (List.length items) by lia.
  apply (bucketItems_singletons (fun its => Some (matchOrdersArgsOf its))). lia.
Qed.

Lemma oneToOne_transformer_singletons (items : list MatchOrdersOneToOneBundleItem) (k : Z) :
  1 <= k -> Z.of_nat (List.length items) <= k ->
  matchOrdersOneToOneItemsToArgsTransformer items k
  = map (fun item => Some (oneToOneArgsOf [item])) items.
Proof.
  intros Hk Hlen. rewrite oneToOne_transformer_buckets by exact Hk.
  replace (Nat.min (Z.to_nat k) (List.length items)) with (List.length items) by lia.
  apply (bucketItems_singletons (fun its => Some (oneToOneArgsOf its))). lia.
Qed.

Section Divergence.

Variable JsFloat : Type.
Variable env : Env JsFloat.
Context {T Args : Type}.
Variable signerAddress : string.
Variable bundleItemsToArgs : list T -> Z -> list (option Args).
Variable encodeCallData : Args -> Res string.
Variable items : list T.
Variable k0 : Z.

Hypothesis ceiling_positive : 0 < MAX_GAS_LIMIT env.
Hypothesis k0_positive : 1 <= k0.
Hypothesis buckets_bounded :
  forall k, 1 <= k -> (List.length (bundleItemsToArgs items k) <= Z.to_nat k)%nat.
Hypothesis buckets_stable :
  forall k, k0 <= k -> bundleItemsToArgs items k = bundleItemsToArgs items k0.
Hypothesis oversize :
  transactionsTooBig env
    (requestsOf env signerAddress encodeCallData (bundleItemsToArgs items k0)) = true.

Lemma buildBundles_diverges (fuel : nat) :
  forall k, k0 <= k ->
            buildBundles env signerAddress bundleItemsToArgs encodeCallData fuel items k = None.
Proof.
  induction fuel as [|fuel IH]; intros k Hk; [reflexivity|].
  rewrite buildBundles_recurse by (rewrite buckets_stable by exact Hk; exact oversize).
  apply IH.
  rewrite (updatedNumBundles_max env signerAddress bundleItemsToArgs encodeCallData items)
    by (try apply buckets_bounded; lia).
  lia.
Qed.

End Divergence.

(** ** When the re-splitting ends *)

Section Termination.

Variable JsFloat : Type.
Variable env : Env JsFloat.
Context {T Args : Type}.
Variable signerAddress : string.
Variable bundleItemsToArgs : list T -> Z -> list (option Args).
Variable encodeCallData : Args -> Res string.
Variable items : list T.

(** The buckets of one item each. *)
Variable single : list (option Args).

Hypothesis ceiling_positive : 0 < MAX_GAS_LIMIT env.
Hypothesis buckets_bounded :
  forall k, 1 <= k -> (List.length (bundleItemsToArgs items k) <= Z.to_nat k)%nat.
Hypothesis buckets_single :
  forall k, 1 <= k -> Z.of_nat (List.length items) <= k -> bundleItemsToArgs items k = single.
Hypothesis single_fit :
  Forall (fun tx => gasLimit tx <= MAX_GAS_LIMIT env)
         (requestsOf env signerAddress encodeCallData single).

Lemma transactionsTooBig_fit (txs : list TransactionRequest) :
  Forall (fun tx => gasLimit tx <= MAX_GAS_LIMIT env) txs ->
  transactionsTooBig env txs = false.
Proof.
  unfold transactionsTooBig. induction 1 as [|tx txs Htx _ IH]; cbn [existsb].
  - reflexivity.
  - rewrite IH, orb_false_r. unfold tooBig. apply Z.ltb_ge. exact Htx.
Qed.

(** With a positive ceiling the estimate never exceeds the bundle count, so
    a re-split doubles it. *)
Lemma updatedNumBundles_doubles (k : Z) :
  1 <= k ->
  updatedNumBundles env
    (requestsOf env signerAddress encodeCallData (bundleItemsToArgs items k)) k
  = k * 2.
Proof.
  intros Hk.
  pose proof (updatedNumBundles_max env signerAddress bundleItemsToArgs encodeCallData
                items ceiling_positive Hk (buckets_bounded Hk)) as Hupd.
  cbv zeta in Hupd. rewrite Hupd.
  pose proof (requestsOf_length env signerAddress encodeCallData
                (bundleItemsToArgs items k)) as Hreq.
  pose proof (buckets_bounded Hk) as Hb.
  pose proof (@ceilDiv_le
                (Z.of_nat (List.length (requestsOf env signerAddress encodeCallData
                                          (bundleItemsToArgs items k))))
                (MAX_GAS_LIMIT env) ltac:(lia) ceiling_positive) as Hceil.
  lia.
Qed.

Lemma buildBundles_terminates (d : nat) :
  forall k, 1 <= k -> Z.of_nat (List.length items) <= k * 2 ^ Z.of_nat d ->
  exists resplits,
    (resplits <= d)%nat
    /\ (forall fuel, (fuel <= resplits)%nat ->
          buildBundles env signerAddress bundleItemsToArgs encodeCallData fuel items k = None)
    /\ (forall fuel, (resplits < fuel)%nat ->
          buildBundles env signerAddress bundleItemsToArgs encodeCallData fuel items k
          = Some (requestsOf env signerAddress encodeCallData
                    (bundleItemsToArgs items (k * 2 ^ Z.of_nat resplits)), []))
    /\ Forall (fun tx => gasLimit tx <= MAX_GAS_LIMIT env)
              (requestsOf env signerAddress encodeCallData
                 (bundleItemsToArgs items (k * 2 ^ Z.of_nat resplits))).
Proof.
  assert (Hstop : forall k,
            transactionsTooBig env
              (requestsOf env signerAddress encodeCallData (bundleItemsToArgs items k))
            = false ->
            exists resplits,
              resplits = 0%nat
              /\ (forall fuel, (fuel <= resplits)%nat ->
                    buildBundles env signerAddress bundleItemsToArgs encodeCallData
                      fuel items k = None)
              /\ (forall fuel, (resplits < fuel)%nat ->
                    buildBundles env signerAddress bundleItemsToArgs encodeCallData
                      fuel items k
                    = Some (requestsOf env signerAddress encodeCallData
                              (bundleItemsToArgs items (k * 2 ^ Z.of_nat resplits)), []))
              /\ Forall (fun tx => gasLimit tx <= MAX_GAS_LIMIT env)
                        (requestsOf env signerAddress encodeCallData
                           (bundleItemsToArgs items (k * 2 ^ Z.of_nat resplits)))).
  { intros k Hfit. exists 0%nat. cbn [Z.of_nat]. rewrite Z.pow_0_r, Z.mul_1_r.
    split; [reflexivity|]. split; [|split].
    - intros fuel Hfuel. replace fuel with 0%nat by lia. reflexivity.
    - intros [|fuel] Hfuel; [lia|]. now apply buildBundles_return.
    - now apply transactionsTooBig_false. }
  induction d as [|d IH]; intros k Hk Hn.
  - destruct (Hstop k) as (resplits & -> & Hrest).
    + rewrite buckets_single by (cbn in Hn; lia). now apply transactionsTooBig_fit.
    + exists 0%nat. split; [lia | exact Hrest].
  - destruct (transactionsTooBig env
                (requestsOf env signerAddress encodeCallData (bundleItemsToArgs items k)))
      eqn:Hbig.
    + destruct (IH (k * 2)) as (resplits & Hle & Hnone & Hsome & Hfit).
      * lia.
      * rewrite Nat2Z.inj_succ, Z.pow_succ_r in Hn by lia. lia.
      * assert (Hcount : k * 2 * 2 ^ Z.of_nat resplits = k * 2 ^ Z.of_nat (S resplits))
          by (rewrite Nat2Z.inj_succ, Z.pow_succ_r by lia; lia).
        rewrite Hcount in Hsome, Hfit.
        exists (S resplits). split; [lia|]. split; [|split; [|exact Hfit]].
        -- intros [|fuel] Hfuel; [reflexivity|].
           rewrite buildBundles_recurse by exact Hbig.
           rewrite updatedNumBundles_doubles by exact Hk. apply Hnone. lia.
        -- intros [|fuel] Hfuel; [lia|].
           rewrite buildBundles_recurse by exact Hbig.
           rewrite updatedNumBundles_doubles by exact Hk. apply Hsome. lia.
    + destruct (Hstop k Hbig) as (resplits & -> & Hrest).
      exists 0%nat. split; [lia | exact Hrest].
Qed.

Lemma buildBundles_from_one :
  exists resplits,
    (resplits <= Nat.log2_up (List.length items))%nat
    /\ (forall fuel, (fuel <= resplits)%nat ->
          buildBundles env signerAddress bundleItemsToArgs encodeCallData fuel items 1 = None)
    /\ (forall fuel, (resplits < fuel)%nat ->
          buildBundles env signerAddress bundleItemsToArgs encodeCallData fuel items 1
          = Some (requestsOf env signerAddress encodeCallData
                    (bundleItemsToArgs items (2 ^ Z.of_nat resplits)), []))
    /\ Forall (fun tx => gasLimit tx <= MAX_GAS_LIMIT env)
              (requestsOf env signerAddress encodeCallData
                 (bundleItemsToArgs items (2 ^ Z.of_nat resplits))).
Proof.
  destruct (buildBundles_terminates (Nat.log2_up (List.length items)) (k := 1))
    as (resplits & Hle & Hnone & Hsome & Hfit).
  - lia.
  - rewrite Z.mul_1_l.
    change 2 with (Z.of_nat 2). rewrite <- Nat2Z.inj_pow. apply Nat2Z.inj_le.
    destruct (Nat.le_gt_cases (List.length items) 1) as [Hsmall|Hbig].
    + rewrite (Nat.log2_up_eqn0 _ Hsmall). cbn. exact Hsmall.
    + apply (Nat.log2_up_spec _ Hbig).
  - exists resplits. rewrite !Z.mul_1_l in *. now repeat split.
Qed.

End Termination.

(** C2, as the code has it. With a positive ceiling, and for every list of
    items none of which alone makes a request over the ceiling, the
    re-splitting ends: called with one bundle, [buildBundles] doubles the
    bundle count [resplits] times, with [resplits <= ceil (log2 |items|)],
    and then returns the requests of that distribution, all of them with
    [gasLimit <= MAX_GAS_LIMIT], and an empty list of invalid items; it has
    not returned before. For any list, whatever it returns fits the ceiling
    and comes with an empty list of invalid items. This holds with either
    transformer. *)
Theorem buildBundles_returns_fitting_requests :
  forall (JsFloat : Type) (env : Env JsFloat) (signerAddress : string),
    0 < MAX_GAS_LIMIT env ->
    (forall items : list MatchOrdersBundleItem,
       (Forall (fun tx => gasLimit tx <= MAX_GAS_LIMIT env)
               (requestsOf env signerAddress (matchOrdersCallDataEncoder env)
                  (map (fun item => Some (matchOrdersArgsOf [item])) items)) ->
        exists resplits,
          (resplits <= Nat.log2_up (List.length items))%nat
          /\ (forall fuel, (fuel <= resplits)%nat ->
                buildBundles env signerAddress matchOrdersItemsToArgsTransformer
                  (matchOrdersCallDataEncoder env) fuel items 1 = None)
          /\ (forall fuel, (resplits < fuel)%nat ->
                buildBundles env signerAddress matchOrdersItemsToArgsTransformer
                  (matchOrdersCallDataEncoder env) fuel items 1
                = Some (requestsOf env signerAddress (matchOrdersCallDataEncoder env)
                          (matchOrdersItemsToArgsTransformer items
                             (2 ^ Z.of_nat resplits)), []))
          /\ Forall (fun tx => gasLimit tx <= MAX_GAS_LIMIT env)
                    (requestsOf env signerAddress (matchOrdersCallDataEncoder env)
                       (matchOrdersItemsToArgsTransformer items (2 ^ Z.of_nat resplits))))
       /\ (forall fuel numBundles txs invalid,
             buildBundles env signerAddress matchOrdersItemsToArgsTransformer
               (matchOrdersCallDataEncoder env) fuel items numBundles = Some (txs, invalid) ->
             Forall (fun tx => gasLimit tx <= MAX_GAS_LIMIT env) txs /\ invalid = []))
    /\ (forall items : list MatchOrdersOneToOneBundleItem,
          (Forall (fun tx => gasLimit tx <= MAX_GAS_LIMIT env)
                  (requestsOf env signerAddress (matchOrdersOneToOneCallDataEncoder env)
                     (map (fun item => Some (oneToOneArgsOf [item])) items)) ->
           exists resplits,
             (resplits <= Nat.log2_up (List.length items))%nat
             /\ (forall fuel, (fuel <= resplits)%nat ->
                   buildBundles env signerAddress matchOrdersOneToOneItemsToArgsTransformer
                     (matchOrdersOneToOneCallDataEncoder env) fuel items 1 = None)
             /\ (forall fuel, (resplits < fuel)%nat ->
                   buildBundles env signerAddress matchOrdersOneToOneItemsToArgsTransformer
                     (matchOrdersOneToOneCallDataEncoder env) fuel items 1
                   = Some (requestsOf env signerAddress
                             (matchOrdersOneToOneCallDataEncoder env)
                             (matchOrdersOneToOneItemsToArgsTransformer items
                                (2 ^ Z.of_nat resplits)), []))
             /\ Forall (fun tx => gasLimit tx <= MAX_GAS_LIMIT env)
                       (requestsOf env signerAddress (matchOrdersOneToOneCallDataEncoder env)
                          (matchOrdersOneToOneItemsToArgsTransformer items
                             (2 ^ Z.of_nat resplits))))
          /\ (forall fuel numBundles txs invalid,
                buildBundles env signerAddress matchOrdersOneToOneItemsToArgsTransformer
                  (matchOrdersOneToOneCallDataEncoder env) fuel items numBundles
                = Some (txs, invalid) ->
                Forall (fun tx => gasLimit tx <= MAX_GAS_LIMIT env) txs /\ invalid = [])).
Proof.
  intros JsFloat env signerAddress Hceiling. split; intros items; split.
  - intros Hfit.
    apply (@buildBundles_from_one JsFloat env MatchOrdersBundleItem MatchOrdersArgs
             signerAddress matchOrdersItemsToArgsTransformer
             (matchOrdersCallDataEncoder env) items
             (map (fun item => Some (matchOrdersArgsOf [item])) items) Hceiling).
    + intros k Hk. now apply matchOrders_transformer_length.
    + intros k Hk Hn. now apply matchOrders_transformer_singletons.
    + exact Hfit.
  - intros fuel numBundles txs invalid. apply buildBundles_sound.
  - intros Hfit.
    apply (@buildBundles_from_one JsFloat env MatchOrdersOneToOneBundleItem
             MatchOrdersOneToOneArgs
             signerAddress matchOrdersOneToOneItemsToArgsTransformer
             (matchOrdersOneToOneCallDataEncoder env) items
             (map (fun item => Some (oneToOneArgsOf [item])) items) Hceiling).
    + intros k Hk. now apply oneToOne_transformer_length.
    + intros k Hk Hn. now apply oneToOne_transformer_singletons.
    + exact Hfit.
  - intros fuel numBundles txs invalid. apply buildBundles_sound.
Qed.

(** Two items that fit the ceiling one by one, but not together: the first
    activation re-splits, the second returns one request for each. *)
Lemma buildBundles_returns_fitting_requests_witness :
  (exists resplits,
     (resplits <= Nat.log2_up 2)%nat
     /\ (forall fuel, (fuel <= resplits)%nat ->
           buildBundles SampleChain.crowded SampleChain.signerAddress
             matchOrdersItemsToArgsTransformer (matchOrdersCallDataEncoder SampleChain.crowded)
             fuel [SampleChain.item "m1" "0xab"; SampleChain.item "m2" "0xab"] 1 = None)
     /\ (forall fuel, (resplits < fuel)%nat ->
           buildBundles SampleChain.crowded SampleChain.signerAddress
             matchOrdersItemsToArgsTransformer (matchOrdersCallDataEncoder SampleChain.crowded)
             fuel [SampleChain.item "m1" "0xab"; SampleChain.item "m2" "0xab"] 1
           = Some (requestsOf SampleChain.crowded SampleChain.signerAddress
                     (matchOrdersCallDataEncoder SampleChain.crowded)
                     (matchOrdersItemsToArgsTransformer
                        [SampleChain.item "m1" "0xab"; SampleChain.item "m2" "0xab"]
                        (2 ^ Z.of_nat resplits)), []))
     /\ Forall (fun tx => gasLimit tx <= MAX_GAS_LIMIT SampleChain.crowded)
               (requestsOf SampleChain.crowded SampleChain.signerAddress
                  (matchOrdersCallDataEncoder SampleChain.crowded)
                  (matchOrdersItemsToArgsTransformer
                     [SampleChain.item "m1" "0xab"; SampleChain.item "m2" "0xab"]
                     (2 ^ Z.of_nat resplits))))
  /\ buildBundles SampleChain.crowded SampleChain.signerAddress
       matchOrdersItemsToArgsTransformer (matchOrdersCallDataEncoder SampleChain.crowded)
       1 [SampleChain.item "m1" "0xab"; SampleChain.item "m2" "0xab"] 1 = None
  /\ buildBundles SampleChain.crowded SampleChain.signerAddress
       matchOrdersItemsToArgsTransformer (matchOrdersCallDataEncoder SampleChain.crowded)
       2 [SampleChain.item "m1" "0xab"; SampleChain.item "m2" "0xab"] 1
     = Some ([SampleChain.request 240000; SampleChain.request 240000], []).
Proof.
  split; [|split; reflexivity].
  apply (proj1 (proj1 (@buildBundles_returns_fitting_requests Z SampleChain.crowded
                         SampleChain.signerAddress eq_refl)
                  [SampleChain.item "m1" "0xab"; SampleChain.item "m2" "0xab"])).
  repeat constructor; discriminate.
Defined.

(** X9. Once [numBundles] has reached the number of items, every item is
    alone in its bucket, and every larger [numBundles] gives the same buckets;
    so if one of these one-item buckets is estimated over the (positive)
    ceiling, [buildBundles] does not return, whatever the fuel: doubling
    [numBundles] can no longer make a bucket smaller. *)
Theorem single_item_buckets_are_final :
  forall (JsFloat : Type) (env : Env JsFloat) (signerAddress : string) (numBundles : Z),
    0 < MAX_GAS_LIMIT env ->
    1 <= numBundles ->
    (forall items : list MatchOrdersBundleItem,
       Z.of_nat (List.length items) <= numBundles ->
       matchOrdersItemsToArgsTransformer items numBundles
       = map (fun item => Some (matchOrdersArgsOf [item])) items
       /\ ((exists tx,
              In tx (requestsOf env signerAddress (matchOrdersCallDataEncoder env)
                       (map (fun item => Some (matchOrdersArgsOf [item])) items))
              /\ MAX_GAS_LIMIT env < gasLimit tx) ->
           forall fuel,
             buildBundles env signerAddress matchOrdersItemsToArgsTransformer
               (matchOrdersCallDataEncoder env) fuel items numBundles = None))
    /\ (forall items : list MatchOrdersOneToOneBundleItem,
          Z.of_nat (List.length items) <= numBundles ->
          matchOrdersOneToOneItemsToArgsTransformer items numBundles
          = map (fun item => Some (oneToOneArgsOf [item])) items
          /\ ((exists tx,
                 In tx (requestsOf env signerAddress (matchOrdersOneToOneCallDataEncoder env)
                          (map (fun item => Some (oneToOneArgsOf [item])) items))
                 /\ MAX_GAS_LIMIT env < gasLimit tx) ->
              forall fuel,
                buildBundles env signerAddress matchOrdersOneToOneItemsToArgsTransformer
                  (matchOrdersOneToOneCallDataEncoder env) fuel items numBundles = None)).
Proof.
  intros JsFloat env signerAddress numBundles Hmax Hk. split; intros items Hlen.
  - split; [now apply matchOrders_transformer_singletons|].
    intros Hbig fuel.
    apply (@buildBundles_diverges JsFloat env _ _ signerAddress
             matchOrdersItemsToArgsTransformer (matchOrdersCallDataEncoder env)
             items numBundles Hmax Hk).
    + intros k Hk'. now apply matchOrders_transformer_length.
    + intros k Hk'. rewrite !matchOrders_transformer_singletons by lia. reflexivity.
    + rewrite matchOrders_transformer_singletons by lia.
      now apply transactionsTooBig_true.
    + lia.
  - split; [now apply oneToOne_transformer_singletons|].
    intros Hbig fuel.
    apply (@buildBundles_diverges JsFloat env _ _ signerAddress
             matchOrdersOneToOneItemsToArgsTransformer (matchOrdersOneToOneCallDataEncoder env)
             items numBundles Hmax Hk).
    + intros k Hk'. now apply oneToOne_transformer_length.
    + intros k Hk'. rewrite !oneToOne_transformer_singletons by lia. reflexivity.
    + rewrite oneToOne_transformer_singletons by lia.
      now apply transactionsTooBig_true.
    + lia.
Qed.

(** Two items at [numBundles = 2] on the chain whose estimates are all over
    the ceiling. *)
Lemma single_item_buckets_are_final_witness :
  buildBundles SampleChain.oversize SampleChain.signerAddress
    matchOrdersItemsToArgsTransformer (matchOrdersCallDataEncoder SampleChain.oversize)
    1000%nat [SampleChain.item "m1" "0xab"; SampleChain.item "m2" "0xab"] 2 = None.
Proof.
  refine (proj2 (proj1 (@single_item_buckets_are_final Z SampleChain.oversize
                          SampleChain.signerAddress 2 _ _)
                   [SampleChain.item "m1" "0xab"; SampleChain.item "m2" "0xab"] _) _
            1000%nat).
  - reflexivity.
  - discriminate.
  - discriminate.
  - exists (SampleChain.request 60000000). split; [left; reflexivity | reflexivity].
Defined.

(** ** What the returned requests are *)

Section RequestProperties.

Variable JsFloat : Type.
Variable env : Env JsFloat.
Context {T Args : Type}.
Variable signerAddress : string.
Variable bundleItemsToArgs : list T -> Z -> list (option Args).
Variable encodeCallData : Args -> Res string.

Lemma requestOf_describes (args : Args) (tx : TransactionRequest) :
  requestOf env signerAddress encodeCallData args = Ok tx ->
  to tx = contractAddress env /\ tx_type tx = 2 /\ tx_chainId tx = env_chainId env
  /\ exists estimate,
       encodeCallData args = Ok (data tx)
       /\ estimateGas env (contractAddress env) signerAddress (data tx) = Fulfilled estimate
       /\ gasLimit tx = floorTimes1_2 env estimate.
Proof.
  unfold requestOf.
  destruct (encodeCallData args) as [calldata|]; cbn [bind]; [|discriminate].
  destruct (estimateGas env (contractAddress env) signerAddress calldata) as [estimate|] eqn:Ee;
    cbn [await bind]; [|discriminate].
  unfold BigNumber_toNumber.
  destruct ((estimate <=? MAX_SAFE_INTEGER) && (- MAX_SAFE_INTEGER <=? estimate))%bool;
    cbn [bind]; [|discriminate].
  intros [= <-]. cbn. repeat split. exists estimate. now repeat split.
Qed.

Lemma requestsOf_describe (bundleArgs : list (option Args)) :
  Forall (requestDescribes env signerAddress encodeCallData bundleArgs)
         (requestsOf env signerAddress encodeCallData bundleArgs).
Proof.
  assert (forall shown : list (option Args),
            (forall a, In a bundleArgs -> In a shown) ->
            Forall (requestDescribes env signerAddress encodeCallData shown)
                   (requestsOf env signerAddress encodeCallData bundleArgs)) as Hgen.
  { induction bundleArgs as [|[args|] rest IH]; intros shown Hsub; cbn [requestsOf].
    - constructor.
    - destruct (requestOf env signerAddress encodeCallData args) as [tx|] eqn:Er.
      + constructor.
        * destruct (requestOf_describes _ Er) as (Hto & Hty & Hch & estimate & He & Hg & Hl).
          repeat split; try assumption. exists args, estimate.
          repeat split; try assumption. apply Hsub. now left.
        * apply IH. intros a Ha. apply Hsub. now right.
      + apply IH. intros a Ha. apply Hsub. now right.
    - apply IH. intros a Ha. apply Hsub. now right. }
  apply Hgen. auto.
Qed.

(** The bundle count stays positive along the recursion, and what is
    returned is the list of requests of the last count tried. *)
Lemma buildBundles_final_count (fuel : nat) :
  forall (items : list T) (numBundles : Z) txs invalid,
    1 <= numBundles ->
    buildBundles env signerAddress bundleItemsToArgs encodeCallData fuel items numBundles
    = Some (txs, invalid) ->
    exists finalCount,
      1 <= finalCount
      /\ txs = requestsOf env signerAddress encodeCallData (bundleItemsToArgs items finalCount)
      /\ transactionsTooBig env txs = false.
Proof.
  induction fuel as [|fuel IH]; intros items numBundles txs invalid Hk; cbn [buildBundles].
  - discriminate.
  - unfold buildBundles_body.
    destruct (transactionsTooBig env _) eqn:Hbig.
    + apply IH. unfold updatedNumBundles.
      destruct (Z.geb_spec numBundles
                  (estimatedNumBundles env
                     (requestsOf env signerAddress encodeCallData
                        (bundleItemsToArgs items numBundles)))); lia.
    + intros [= <- <-]. exists numBundles. now repeat split.
Qed.

(** X10. Whatever [buildBundles] returns, when called with a positive bundle
    count, is the list of requests of one positive final bundle count; each
    request is addressed to the exchange contract, has type 2 and the chain's
    id, carries as [data] the encoding of one bucket of that final
    distribution, and has the gas limit computed from the estimate for that
    very data; and there are at most as many requests as buckets (a bucket
    whose encoding or estimation fails gives none). *)
Theorem returned_requests_describe_buckets :
  forall (fuel : nat) (items : list T) (numBundles : Z) txs invalid,
    1 <= numBundles ->
    buildBundles env signerAddress bundleItemsToArgs encodeCallData fuel items numBundles
    = Some (txs, invalid) ->
    exists finalCount,
      1 <= finalCount
      /\ txs = requestsOf env signerAddress encodeCallData (bundleItemsToArgs items finalCount)
      /\ Forall (requestDescribes env signerAddress encodeCallData
                   (bundleItemsToArgs items finalCount)) txs
      /\ (List.length txs <= List.length (bundleItemsToArgs items finalCount))%nat.
Proof.
  intros fuel items numBundles txs invalid Hk Hret.
  apply buildBundles_final_count in Hret; [|exact Hk].
  destruct Hret as (finalCount & Hpos & -> & _).
  exists finalCount. split; [exact Hpos|]. split; [reflexivity|].
  split; [apply requestsOf_describe | apply requestsOf_length].
Qed.

End RequestProperties.

(** Two items in one bucket on the healthy chain. *)
Lemma returned_requests_describe_buckets_witness :
  exists finalCount,
    1 <= finalCount
    /\ [SampleChain.request 240000]
       = requestsOf SampleChain.healthy SampleChain.signerAddress
           (matchOrdersCallDataEncoder SampleChain.healthy)
           (matchOrdersItemsToArgsTransformer
              [SampleChain.item "m1" "0xab"; SampleChain.item "m2" "0xab"] finalCount)
    /\ Forall (requestDescribes SampleChain.healthy SampleChain.signerAddress
                 (matchOrdersCallDataEncoder SampleChain.healthy)
                 (matchOrdersItemsToArgsTransformer
                    [SampleChain.item "m1" "0xab"; SampleChain.item "m2" "0xab"] finalCount))
              [SampleChain.request 240000]
    /\ (List.length [SampleChain.request 240000]
        <= List.length (matchOrdersItemsToArgsTransformer
                          [SampleChain.item "m1" "0xab"; SampleChain.item "m2" "0xab"]
                          finalCount))%nat.
Proof.
  apply (@returned_requests_describe_buckets Z SampleChain.healthy
           MatchOrdersBundleItem MatchOrdersArgs SampleChain.signerAddress
           matchOrdersItemsToArgsTransformer (matchOrdersCallDataEncoder SampleChain.healthy)
           1%nat [SampleChain.item "m1" "0xab"; SampleChain.item "m2" "0xab"] 1
           [SampleChain.request 240000] []).
  - discriminate.
  - reflexivity.
Defined.

(** ** The two verifiers *)

Lemma mapM_map_ok {A B : Type} (f : A -> Res B) (g : B -> A) (P : B -> Prop)
    (l : list A) (l' : list B) :
  (forall x y, f x = Ok y -> g y = x /\ P y) ->
  mapM f l = Ok l' -> map g l' = l /\ Forall P l'.
Proof.
  intros Hf. revert l'. induction l as [|x l IH]; intros l'; cbn [mapM].
  - intros [= <-]. split; [reflexivity | constructor].
  - destruct (f x) as [y|] eqn:Ey; cbn [bind]; [|discriminate].
    destruct (mapM f l) as [ys|]; cbn [bind]; [|discriminate].
    intros [= <-]. destruct (Hf _ _ Ey) as [Hg HP]. destruct (IH ys eq_refl) as [Hm HF].
    cbn [map]. rewrite Hg, Hm. split; [reflexivity | now constructor].
Qed.


Lemma oneToOne_verifier_priced (x : MatchOrdersOneToOneBundleItem)
    (y : WithCurrentPrice MatchOrdersOneToOneBundleItem) :
  (p <- BigNumber_from (constraint_at (sell (oneToOne_base x)) 1) ;;
   Ok {| bundleItem := x; currentPrice := p |}) = Ok y ->
  bundleItem y = x
  /\ BigNumber_from (constraint_at (sell (oneToOne_base (bundleItem y))) 1)
     = Ok (currentPrice y).
Proof.
  destruct (BigNumber_from (constraint_at (sell (oneToOne_base x)) 1)) as [p|] eqn:Ep;
    cbn [bind]; [|discriminate].
  intros [= <-]. cbn. now split.
Qed.

Lemma oneToOne_verifier_result (items : list MatchOrdersOneToOneBundleItem) valid invalid :
  matchOrdersOneToOneVerifier items = Ok (valid, invalid) ->
  invalid = []
  /\ map (@bundleItem _) valid = items
  /\ Forall (fun v => BigNumber_from (constraint_at (sell (oneToOne_base (bundleItem v))) 1)
                      = Ok (currentPrice v)) valid.
Proof.
  unfold matchOrdersOneToOneVerifier.
  destruct (mapM _ items) as [priced|] eqn:Em; cbn [bind]; [|discriminate].
  intros [= <- <-]. split; [reflexivity|].
  exact (mapM_map_ok _ (@bundleItem _) _ items oneToOne_verifier_priced Em).
Qed.



Section VerifierFurther.

Variable JsFloat : Type.
Variable env : Env JsFloat.

(** X12. The [MatchOrders] verifier is all or nothing. It computes the two
    current prices of every item, valid or not, so it returns exactly when the
    prices of every item of the batch can be computed; when it throws, the
    encoder rejects with the same error for the whole batch, whatever
    [minBundleSize], and no item is classified at all. *)
Theorem verifier_all_or_nothing : forall items : list MatchOrdersBundleItem,
  ((exists valid invalid, matchOrdersVerifier env items = Ok (valid, invalid))
   <-> allPriceable env items)
  /\ (forall message,
        matchOrdersVerifier env items = Throw message ->
        forall signerAddress fuel minBundleSize,
          matchOrdersEncoder env signerAddress fuel items minBundleSize
          = Some (Throw message)).
Proof.
  intros items. split; [split|].
  - intros (valid & invalid & Hok) index item E.
    exact (@matchOrdersReducer_ok _ env items 0%nat _ _ Hok index item E).
  - intros Hall.
    destruct (@matchOrdersReducer_fold _ env items 0%nat [] [] Hall)
      as (valid & invalid & Hfold & _).
    unfold matchOrdersVerifier. rewrite Hfold. eauto.
  - intros message Hthrow signerAddress fuel minBundleSize.
    unfold matchOrdersEncoder, encoder, validate. now rewrite Hthrow.
Qed.

End VerifierFurther.

(** A batch of a sound item and an item whose listing has no constraints. *)
Lemma verifier_all_or_nothing_witness :
  matchOrdersEncoder SampleChain.healthy SampleChain.signerAddress 5
    [ SampleChain.item "m1" "0xab";
      {| matchOrders_base :=
           {| id := "m2"; chainId := "1"; exchangeAddress := "0xe8c4a96e";
              sell := with_constraints (SampleChain.order true "0xab" "5" "0x5e11") [];
              buy := SampleChain.order false "0xbb" "9" "0xb0b";
              buyOrderHash := "hash:0xb0b"; sellOrderHash := "hash:0x5e11" |};
         constructed := constructed (SampleChain.item "m2" "0xab") |} ] 1
  = Some (Throw "invalid BigNumber value").
Proof.
  apply (proj2 (@verifier_all_or_nothing Z SampleChain.healthy _)). reflexivity.
Defined.

(** ** The passes lose nothing *)

Lemma splitResults_partition {T : Type} (check : WithCurrentPrice T -> Checked T)
    (items : list (WithCurrentPrice T)) :
  (forall b, checkedItem (check b) = b) ->
  fst (splitResults (map check items)) = filter (fun b => passed (check b)) items
  /\ map (@invalidItem _) (snd (splitResults (map check items)))
     = filter (fun b => negb (passed (check b))) items
  /\ Forall (fun r => check (invalidItem r) = IsInvalid (invalidItem r) (orderError r))
            (snd (splitResults (map check items))).
Proof.
  intros Hitem. rewrite splitResults_spec. cbn [fst snd].
  induction items as [|b items (IHv & IHi & IHe)]; cbn [map flat_map filter].
  - repeat split. constructor.
  - specialize (Hitem b). destruct (check b) as [item|item err] eqn:Eb;
      cbn [passed negb validOf invalidOf app map checkedItem] in *; subst item.
    + rewrite IHv. now repeat split.
    + rewrite IHi. repeat split; try assumption. constructor; [exact Eb | exact IHe].
Qed.

Section PassFurther.

Variable JsFloat : Type.
Variable env : Env JsFloat.

Lemma checkTokens_codes (signerAddress collectionAddress : string) (toks : list ChainNFTToken)
    (e : OrderError) :
  checkTokens env signerAddress collectionAddress toks = Ok (Some e) ->
  code e = InsufficientTokenBalance.
Proof.
  induction toks as [|t toks IH]; cbn [checkTokens]; [discriminate|].
  destruct (ownerOf env collectionAddress (tokenId t)) as [ownerOfToken|];
    cbn [await bind]; [|discriminate].
  destruct (negb (String.eqb signerAddress (toLowerCase ownerOfToken))); [|exact IH].
  now intros [= <-].
Qed.

Lemma checkCollections_codes (signerAddress : string) (ns : list ChainNFTs) (e : OrderError) :
  checkCollections env signerAddress ns = Ok (Some e) ->
  code e = NotApprovedToTransferToken \/ code e = InsufficientTokenBalance.
Proof.
  induction ns as [|n ns IH]; cbn [checkCollections]; [discriminate|].
  destruct (isApprovedForAll env (collection n) signerAddress (contractAddress env))
    as [isApproved|]; cbn [await bind]; [|discriminate].
  destruct isApproved; cbn [negb]; [|intros [= <-]; now left].
  destruct (checkTokens env signerAddress (collection n) (tokens n)) as [[e'|]|] eqn:Et;
    cbn [bind]; [|exact IH|discriminate].
  intros [= <-]. right. exact (checkTokens_codes _ _ _ Et).
Qed.

Lemma checkCurrencies_codes (buyer : string) (price : Z) (cs : list (option string))
    (e : OrderError) :
  checkCurrencies env buyer price cs = Ok (Some e) ->
  code e = InsufficientCurrencyAllowance \/ code e = InsufficientCurrencyBalance.
Proof.
  induction cs as [|[currency|] cs IH]; cbn [checkCurrencies]; [discriminate| |discriminate].
  destruct (allowance env currency buyer (contractAddress env)) as [allowed|];
    cbn [await bind]; [|discriminate].
  destruct (allowed <? expectedCostOf env price currency); [intros [= <-]; now left|].
  destruct (balanceOf env currency buyer) as [balance|]; cbn [await bind]; [|discriminate].
  destruct (balance <? expectedCostOf env price currency); [intros [= <-]; now right|].
  exact IH.
Qed.

Section Items.

Context {T : Type} `{ExtendsBundleItem T}.

Lemma checkSeller_item (b : WithCurrentPrice T) : checkedItem (checkSeller env b) = b.
Proof.
  unfold checkSeller.
  now destruct (checkCollections env _ _) as [[e|]|].
Qed.

Lemma checkBuyer_item (b : WithCurrentPrice T) : checkedItem (checkBuyer env b) = b.
Proof.
  unfold checkBuyer.
  now destruct (checkCurrencies env _ _ _) as [[e|]|].
Qed.

Lemma checkSeller_codes (b : WithCurrentPrice T) (e : OrderError) :
  checkSeller env b = IsInvalid b e -> sellerCode (code e).
Proof.
  unfold checkSeller, sellerCode.
  destruct (checkCollections env _ _) as [[e'|]|] eqn:Ec; [|discriminate|].
  - intros [= <-]. destruct (checkCollections_codes _ _ Ec); auto.
  - intros [= <-]. auto.
Qed.

Lemma checkBuyer_codes (b : WithCurrentPrice T) (e : OrderError) :
  checkBuyer env b = IsInvalid b e -> buyerCode (code e).
Proof.
  unfold checkBuyer, buyerCode.
  destruct (checkCurrencies env _ _ _) as [[e'|]|] eqn:Ec; [|discriminate|].
  - intros [= <-]. destruct (checkCurrencies_codes _ _ _ Ec); auto.
  - intros [= <-]. auto.
Qed.

(** X13. Each of the two asset passes splits its input without loss: the
    valid list is the sub-list of the items the pass accepts and the invalid
    list holds, in order, the items it rejects, each once and each with the
    rejection the pass computed for it; the seller pass attaches only
    [NotApprovedToTransferToken], [InsufficientTokenBalance] or
    [UnknownError], the buyer pass only [InsufficientCurrencyAllowance],
    [InsufficientCurrencyBalance] or [UnknownError]. *)
Theorem passes_partition : forall items : list (WithCurrentPrice T),
  (fst (checkNftSellerApprovalAndBalance env items)
   = filter (fun b => passed (checkSeller env b)) items
   /\ map (@invalidItem _) (snd (checkNftSellerApprovalAndBalance env items))
      = filter (fun b => negb (passed (checkSeller env b))) items
   /\ Forall (fun r => checkSeller env (invalidItem r)
                       = IsInvalid (invalidItem r) (orderError r)
                       /\ sellerCode (code (orderError r)))
             (snd (checkNftSellerApprovalAndBalance env items))
   /\ (List.length (fst (checkNftSellerApprovalAndBalance env items))
       + List.length (snd (checkNftSellerApprovalAndBalance env items))
       = List.length items)%nat)
  /\ (fst (checkNftBuyerApprovalAndBalance env items)
      = filter (fun b => passed (checkBuyer env b)) items
      /\ map (@invalidItem _) (snd (checkNftBuyerApprovalAndBalance env items))
         = filter (fun b => negb (passed (checkBuyer env b))) items
      /\ Forall (fun r => checkBuyer env (invalidItem r)
                          = IsInvalid (invalidItem r) (orderError r)
                          /\ buyerCode (code (orderError r)))
                (snd (checkNftBuyerApprovalAndBalance env items))
      /\ (List.length (fst (checkNftBuyerApprovalAndBalance env items))
          + List.length (snd (checkNftBuyerApprovalAndBalance env items))
          = List.length items)%nat).
Proof.
  intros items. split.
  - unfold checkNftSellerApprovalAndBalance.
    destruct (splitResults_partition (checkSeller env) items checkSeller_item)
      as (Hv & Hi & He).
    split; [exact Hv|]. split; [exact Hi|]. split.
    + eapply Forall_impl; [|exact He]. intros r Hr. split; [exact Hr|].
      apply checkSeller_codes with (b := invalidItem r). exact Hr.
    + rewrite Hv, <- (List.length_map (@invalidItem _)), Hi.
      rewrite <- (filter_length (fun b => passed (checkSeller env b)) items). reflexivity.
  - unfold checkNftBuyerApprovalAndBalance.
    destruct (splitResults_partition (checkBuyer env) items checkBuyer_item)
      as (Hv & Hi & He).
    split; [exact Hv|]. split; [exact Hi|]. split.
    + eapply Forall_impl; [|exact He]. intros r Hr. split; [exact Hr|].
      apply checkBuyer_codes with (b := invalidItem r). exact Hr.
    + rewrite Hv, <- (List.length_map (@invalidItem _)), Hi.
      rewrite <- (filter_length (fun b => passed (checkBuyer env b)) items). reflexivity.
Qed.

End Items.

End PassFurther.

(** ** What a valid item is, and what a failed call does *)

Section PassSoundness.

Variable JsFloat : Type.
Variable env : Env JsFloat.

Lemma checkTokens_none (signerAddress collectionAddress : string) (toks : list ChainNFTToken) :
  checkTokens env signerAddress collectionAddress toks = Ok None ->
  Forall (ownsToken env signerAddress collectionAddress) toks.
Proof.
  induction toks as [|t toks IH]; cbn [checkTokens]; [constructor|].
  destruct (ownerOf env collectionAddress (tokenId t)) as [ownerOfToken|] eqn:Eo;
    cbn [await bind]; [|discriminate].
  destruct (String.eqb_spec signerAddress (toLowerCase ownerOfToken)) as [Heq|_];
    cbn [negb]; [|discriminate].
  intros Hrest. constructor; [now exists ownerOfToken | now apply IH].
Qed.

Lemma checkCollections_none (signerAddress : string) (ns : list ChainNFTs) :
  checkCollections env signerAddress ns = Ok None ->
  Forall (passesCollection env signerAddress) ns.
Proof.
  induction ns as [|n ns IH]; cbn [checkCollections]; [constructor|].
  destruct (isApprovedForAll env (collection n) signerAddress (contractAddress env))
    as [[|]|] eqn:Ea; cbn [await bind negb]; [|discriminate|discriminate].
  destruct (checkTokens env signerAddress (collection n) (tokens n)) as [[e|]|] eqn:Et;
    cbn [bind]; [discriminate| |discriminate].
  intros Hrest. constructor; [|now apply IH].
  split; [exact Ea | now apply checkTokens_none].
Qed.

Lemma checkCurrencies_none (buyer : string) (price : Z) (cs : list string) :
  checkCurrencies env buyer price (map Some cs) = Ok None ->
  Forall (passesCurrency env buyer price) cs.
Proof.
  induction cs as [|currency cs IH]; cbn [map checkCurrencies]; [constructor|].
  destruct (allowance env currency buyer (contractAddress env)) as [allowed|] eqn:Ea;
    cbn [await bind]; [|discriminate].
  rewrite expectedCostOf_spec.
  destruct (Z.ltb_spec allowed (spec_expectedCost price)); [discriminate|].
  destruct (balanceOf env currency buyer) as [balance|] eqn:Eb; cbn [await bind]; [|discriminate].
  destruct (Z.ltb_spec balance (spec_expectedCost price)); [discriminate|].
  intros Hrest. constructor; [|now apply IH].
  exists allowed, balance. now repeat split.
Qed.

Lemma expectedCost_covers (price : Z) : 0 <= price -> price <= spec_expectedCost price.
Proof.
  intros Hp. unfold spec_expectedCost. rewrite Z.quot_div_nonneg by lia.
  apply Z.div_le_lower_bound; lia.
Qed.

Section Items.

Context {T : Type} `{ExtendsBundleItem T}.

(** X14. The seller pass accepts an item exactly when, for every collection
    of the NFT set it looks at, [isApprovedForAll(signer, exchange)] answers
    [true] and, for every token, [ownerOf] answers an address whose lower-case
    form is the signer as stored; in particular an item without NFTs is
    accepted without any call. *)
Theorem seller_valid_iff : forall b : WithCurrentPrice T,
  (checkSeller env b = IsValid b
   <-> Forall (passesCollection env (signer (sell (base (itemOf b))))) (sellerNfts (itemOf b)))
  /\ (sellerNfts (itemOf b) = [] -> checkSeller env b = IsValid b).
Proof.
  intros b.
  assert (Forall (passesCollection env (signer (sell (base (itemOf b)))))
                 (sellerNfts (itemOf b))
          -> checkSeller env b = IsValid b) as Hcomplete.
  { intros Hall. unfold checkSeller.
    rewrite <- (app_nil_r (sellerNfts (itemOf b))).
    now rewrite (checkCollections_passed _ Hall). }
  split; [split; [|exact Hcomplete]|].
  - unfold checkSeller.
    destruct (checkCollections env _ _) as [[e|]|] eqn:Ec; try discriminate.
    intros _. now apply checkCollections_none.
  - intros Hnil. apply Hcomplete. rewrite Hnil. constructor.
Qed.

(** X15. For an item whose buy order names a currency, the buyer pass accepts
    it exactly when, for the order currency and for the wrapped native
    currency, allowance and balance are both at least
    [currentPrice * 11 / 10]; so for a price that is not negative, an accepted
    item can pay the price itself in each of these currencies. *)
Theorem buyer_valid_iff : forall (b : WithCurrentPrice T) (orderCurrency : string),
  nth_error (execParams (buy (base (itemOf b)))) 1 = Some orderCurrency ->
  let buyer := signer (buy (base (itemOf b))) in
  let currencies :=
    if String.eqb orderCurrency (txnCurrencyAddress env)
    then [orderCurrency]
    else [orderCurrency; txnCurrencyAddress env] in
  (checkBuyer env b = IsValid b
   <-> Forall (passesCurrency env buyer (currentPrice b)) currencies)
  /\ (checkBuyer env b = IsValid b -> 0 <= currentPrice b ->
      Forall (coversPrice env buyer (currentPrice b)) currencies).
Proof.
  intros b orderCurrency Hc buyer currencies.
  pose proof (currenciesOf_dedup env b Hc) as Hcur. fold currencies in Hcur.
  assert (checkBuyer env b = IsValid b
          -> Forall (passesCurrency env buyer (currentPrice b)) currencies) as Hsound.
  { unfold checkBuyer. fold buyer. rewrite Hcur.
    destruct (checkCurrencies env buyer (currentPrice b) (map Some currencies))
      as [[e|]|] eqn:Ec; try discriminate.
    intros _. now apply checkCurrencies_none. }
  split; [split; [exact Hsound|]|].
  - intros Hall. unfold checkBuyer. fold buyer. rewrite Hcur.
    rewrite <- (app_nil_r (map Some currencies)).
    now rewrite (checkCurrencies_passed _ Hall).
  - intros Hvalid Hprice. eapply Forall_impl; [|exact (Hsound Hvalid)].
    intros currency (allowed & balance & Ha & Hallowed & Hb & Hbalance).
    pose proof (expectedCost_covers Hprice).
    exists allowed, balance. repeat split; try assumption; lia.
Qed.

(** X16. In the seller pass a failed call is neither an approval nor a
    refusal: when [isApprovedForAll] is rejected for the first collection not
    yet passed, or [ownerOf] for the first token not yet passed, the item is
    rejected with code [UnknownError] and the reason of the rejection as its
    message. *)
Theorem seller_call_failure :
  forall (b : WithCurrentPrice T) checked n rest (reason : string),
    sellerNfts (itemOf b) = checked ++ n :: rest ->
    Forall (passesCollection env (signer (sell (base (itemOf b))))) checked ->
    (isApprovedForAll env (collection n) (signer (sell (base (itemOf b)))) (contractAddress env)
     = Rejected reason ->
     checkSeller env b = IsInvalid b (unknownError reason))
    /\ (forall owned t others,
          isApprovedForAll env (collection n) (signer (sell (base (itemOf b))))
            (contractAddress env) = Fulfilled true ->
          tokens n = owned ++ t :: others ->
          Forall (ownsToken env (signer (sell (base (itemOf b)))) (collection n)) owned ->
          ownerOf env (collection n) (tokenId t) = Rejected reason ->
          checkSeller env b = IsInvalid b (unknownError reason)).
Proof.
  intros b checked n rest reason Hsplit Hchecked. split.
  - intros Hfail. unfold checkSeller. rewrite Hsplit.
    rewrite (checkCollections_passed _ Hchecked).
    cbn [checkCollections]. rewrite Hfail. reflexivity.
  - intros owned t others Hyes Htok Howned Hfail. unfold checkSeller. rewrite Hsplit.
    rewrite (checkCollections_passed _ Hchecked).
    cbn [checkCollections]. rewrite Hyes. cbn [await bind negb].
    rewrite Htok, (checkCollections_tokens_passed _ Howned).
    cbn [checkTokens]. rewrite Hfail. reflexivity.
Qed.

(** X17. In the buyer pass an item whose buy order has no [execParams[1]] is
    rejected with [UnknownError] before any call is made; and when
    [allowance], or [balanceOf] after a sufficient allowance, is rejected for
    the first currency not yet passed, the item is rejected with
    [UnknownError] and the reason of the rejection as its message. *)
Theorem buyer_call_failure : forall b : WithCurrentPrice T,
  (nth_error (execParams (buy (base (itemOf b)))) 1 = None ->
   exists message, checkBuyer env b = IsInvalid b (unknownError message))
  /\ (forall orderCurrency checked currency rest (reason : string),
        nth_error (execParams (buy (base (itemOf b)))) 1 = Some orderCurrency ->
        (if String.eqb orderCurrency (txnCurrencyAddress env)
         then [orderCurrency]
         else [orderCurrency; txnCurrencyAddress env]) = checked ++ currency :: rest ->
        Forall (passesCurrency env (signer (buy (base (itemOf b)))) (currentPrice b)) checked ->
        (allowance env currency (signer (buy (base (itemOf b)))) (contractAddress env)
         = Rejected reason ->
         checkBuyer env b = IsInvalid b (unknownError reason))
        /\ (forall allowed,
              allowance env currency (signer (buy (base (itemOf b)))) (contractAddress env)
              = Fulfilled allowed ->
              Z.quot (currentPrice b * 11) 10 <= allowed ->
              balanceOf env currency (signer (buy (base (itemOf b)))) = Rejected reason ->
              checkBuyer env b = IsInvalid b (unknownError reason))).
Proof.
  intros b. split.
  - intros Hnone. unfold checkBuyer, currenciesOf. rewrite Hnone.
    cbn [checkCurrencies]. eexists. reflexivity.
  - intros orderCurrency checked currency rest reason Hc Hsplit Hchecked.
    pose proof (currenciesOf_dedup env b Hc) as Hcur. rewrite Hsplit in Hcur. split.
    + intros Hfail. unfold checkBuyer. rewrite Hcur, map_app.
      rewrite (checkCurrencies_passed _ Hchecked).
      cbn [map checkCurrencies]. rewrite Hfail. reflexivity.
    + intros allowed Ha Hok Hfail. unfold checkBuyer. rewrite Hcur, map_app.
      rewrite (checkCurrencies_passed _ Hchecked).
      cbn [map checkCurrencies]. rewrite Ha. cbn [await bind].
      rewrite expectedCostOf_spec. unfold spec_expectedCost.
      destruct (Z.ltb_spec allowed (Z.quot (currentPrice b * 11) 10)); [lia|].
      rewrite Hfail. reflexivity.
Qed.

End Items.

End PassSoundness.

(** The sample item on the healthy chain: approved, and owned by "0xAB". *)
Lemma seller_valid_iff_witness :
  checkSeller SampleChain.healthy (SampleChain.priced (SampleChain.item "m1" "0xab"))
  = IsValid (SampleChain.priced (SampleChain.item "m1" "0xab")).
Proof.
  apply (proj1 (@seller_valid_iff Z SampleChain.healthy MatchOrdersBundleItem
                  MatchOrders_extends (SampleChain.priced (SampleChain.item "m1" "0xab")))).
  constructor; [|constructor]. split; [reflexivity|].
  constructor; [|constructor]. exists "0xAB". split; reflexivity.
Defined.

(** The sample item on the healthy chain: 2e18 of allowance and balance
    against a price of 1e18. *)
Lemma buyer_valid_iff_witness :
  Forall (coversPrice SampleChain.healthy "0xbb" 1000000000000000000) ["0xeeee"].
Proof.
  refine (proj2 (@buyer_valid_iff Z SampleChain.healthy MatchOrdersBundleItem
                   MatchOrders_extends (SampleChain.priced (SampleChain.item "m1" "0xab"))
                   "0xeeee" eq_refl) _ _).
  - reflexivity.
  - discriminate.
Defined.

(** [isApprovedForAll] times out; [ownerOf] times out. *)
Lemma seller_call_failure_witness :
  checkSeller SampleFailures.approvalFails (SampleChain.priced (SampleChain.item "m1" "0xab"))
  = IsInvalid (SampleChain.priced (SampleChain.item "m1" "0xab")) (unknownError "timeout")
  /\ checkSeller SampleFailures.ownerFails (SampleChain.priced (SampleChain.item "m1" "0xab"))
     = IsInvalid (SampleChain.priced (SampleChain.item "m1" "0xab")) (unknownError "timeout").
Proof.
  split.
  - refine (proj1 (@seller_call_failure Z SampleFailures.approvalFails MatchOrdersBundleItem
                     MatchOrders_extends (SampleChain.priced (SampleChain.item "m1" "0xab"))
                     [] Sample.nft [] "timeout" eq_refl (Forall_nil _)) eq_refl).
  - refine (proj2 (@seller_call_failure Z SampleFailures.ownerFails MatchOrdersBundleItem
                     MatchOrders_extends (SampleChain.priced (SampleChain.item "m1" "0xab"))
                     [] Sample.nft [] "timeout" eq_refl (Forall_nil _))
              [] {| tokenId := "7"; numTokens := 1 |} [] eq_refl eq_refl (Forall_nil _) eq_refl).
Defined.

(** A buy order without [execParams]; [allowance] times out; [balanceOf]
    times out. *)
Lemma buyer_call_failure_witness :
  (exists message,
     checkBuyer SampleChain.healthy (SampleChain.priced SampleFailures.noCurrency)
     = IsInvalid (SampleChain.priced SampleFailures.noCurrency) (unknownError message))
  /\ checkBuyer SampleFailures.allowanceFails
       (SampleChain.priced (SampleChain.item "m1" "0xab"))
     = IsInvalid (SampleChain.priced (SampleChain.item "m1" "0xab")) (unknownError "timeout")
  /\ checkBuyer SampleFailures.balanceFails
       (SampleChain.priced (SampleChain.item "m1" "0xab"))
     = IsInvalid (SampleChain.priced (SampleChain.item "m1" "0xab")) (unknownError "timeout").
Proof.
  split; [|split].
  - exact (proj1 (@buyer_call_failure Z SampleChain.healthy MatchOrdersOneToOneBundleItem
                    OneToOne_extends (SampleChain.priced SampleFailures.noCurrency)) eq_refl).
  - refine (proj1 (proj2 (@buyer_call_failure Z SampleFailures.allowanceFails
                            MatchOrdersBundleItem MatchOrders_extends
                            (SampleChain.priced (SampleChain.item "m1" "0xab")))
                     "0xeeee" [] "0xeeee" [] "timeout" eq_refl eq_refl (Forall_nil _)) eq_refl).
  - refine (proj2 (proj2 (@buyer_call_failure Z SampleFailures.balanceFails
                            MatchOrdersBundleItem MatchOrders_extends
                            (SampleChain.priced (SampleChain.item "m1" "0xab")))
                     "0xeeee" [] "0xeeee" [] "timeout" eq_refl eq_refl (Forall_nil _))
              2000000000000000000 eq_refl _ eq_refl).
    discriminate.
Defined.

(** ** The encoder's bookkeeping and what it returns *)

Lemma splitResults_length {T : Type} (results : list (Checked T)) :
  (List.length (fst (splitResults results)) + List.length (snd (splitResults results))
   = List.length results)%nat.
Proof.
  rewrite splitResults_spec. cbn [fst snd].
  induction results as [|[item|item err] results IH]; cbn [flat_map validOf invalidOf app List.length];
    lia.
Qed.

Section Bookkeeping.

Variable JsFloat : Type.
Variable env : Env JsFloat.
Context {T : Type} `{ExtendsBundleItem T}.
Variable verifyBundleItems : list T -> Res (list (WithCurrentPrice T) * list T).

Lemma validate_accounts (items : list T) (v : @Validation T) :
  validate env verifyBundleItems items = Ok v ->
  exists validAfterVerification,
    verifyBundleItems items = Ok (validAfterVerification, invalidBundleItemsFromVerify v)
    /\ (List.length (invalidBundleItemsAfterNftApproval v)
        + List.length (invalidBundleItemsFromCurrencyCheck v)
        + List.length (validBundleItems v) = List.length validAfterVerification)%nat
    /\ map (@invalidItem _) (invalidBundleItemsFromVerifyWithError v)
       = invalidBundleItemsFromVerify v
    /\ Forall (fun r => code (orderError r) = OrderInvalid)
              (invalidBundleItemsFromVerifyWithError v)
    /\ Forall (fun r => sellerCode (code (orderError r)))
              (invalidBundleItemsAfterNftApproval v)
    /\ Forall (fun r => buyerCode (code (orderError r)))
              (invalidBundleItemsFromCurrencyCheck v)
    /\ Forall (fun b => checkSeller env b = IsValid b /\ checkBuyer env b = IsValid b)
              (validBundleItems v).
Proof.
  unfold validate.
  destruct (verifyBundleItems items) as [[validV invalidV]|]; cbn [bind]; [|discriminate].
  pose proof (splitResults_length (map (checkSeller env) validV)) as Hls.
  destruct (splitResults_partition (checkSeller env) validV (checkSeller_item env))
    as (Hsv & _ & Hse).
  unfold checkNftSellerApprovalAndBalance.
  destruct (splitResults (map (checkSeller env) validV)) as [validS invalidS].
  pose proof (splitResults_length (map (checkBuyer env) validS)) as Hlb.
  destruct (splitResults_partition (checkBuyer env) validS (checkBuyer_item env))
    as (Hbv & _ & Hbe).
  unfold checkNftBuyerApprovalAndBalance.
  destruct (splitResults (map (checkBuyer env) validS)) as [validB invalidB].
  intros [= <-]. cbn [fst snd] in *. rewrite !List.length_map in *.
  exists validV. cbn.
  split; [reflexivity|]. split; [lia|]. split.
  { rewrite map_map. cbn. apply map_id. }
  split.
  { apply Forall_forall. intros r Hr. apply in_map_iff in Hr.
    destruct Hr as (item & <- & _). reflexivity. }
  split.
  { eapply Forall_impl; [|exact Hse]. intros r Hr.
    eapply checkSeller_codes. exact Hr. }
  split.
  { eapply Forall_impl; [|exact Hbe]. intros r Hr.
    eapply checkBuyer_codes. exact Hr. }
  apply Forall_forall. intros b Hb.
  rewrite Hbv in Hb. apply filter_In in Hb. destruct Hb as [Hb Hbuyer].
  rewrite Hsv in Hb. apply filter_In in Hb. destruct Hb as [_ Hseller].
  pose proof (checkSeller_item env b) as Hs. pose proof (checkBuyer_item env b) as Hbi.
  destruct (checkSeller env b); [|discriminate Hseller].
  destruct (checkBuyer env b); [|discriminate Hbuyer].
  cbn in Hs, Hbi. subst. now split.
Qed.

End Bookkeeping.

(** X18. Before packing, the encoder has accounted for every input item,
    for either bundle type: whenever the verifier returns, the items rejected
    by the verifier, by the seller pass and by the buyer pass and the items
    still valid are together as many as the input; the verifier's rejections
    carry [OrderInvalid], the seller's and the buyer's only the codes of their
    pass; and every item still valid has passed both passes. For the
    one-to-one type the verifier rejects nothing. *)
Theorem validation_accounts_for_every_item : forall (JsFloat : Type) (env : Env JsFloat),
  (forall (items : list MatchOrdersBundleItem) v,
     validate env (matchOrdersVerifier env) items = Ok v -> accountsFor env items v)
  /\ (forall (items : list MatchOrdersOneToOneBundleItem) v,
        validate env matchOrdersOneToOneVerifier items = Ok v ->
        accountsFor env items v /\ invalidBundleItemsFromVerify v = []).
Proof.
  intros JsFloat env. split.
  - intros items v Hv.
    destruct (validate_accounts _ _ _ Hv) as (validV & Hverify & Hlen & Hrest).
    split; [|exact Hrest].
    pose proof (@matchOrdersReducer_ok _ env items 0%nat _ _ Hverify) as Hall.
    destruct (@matchOrdersReducer_fold _ env items 0%nat [] [] Hall)
      as (valid & invalid & Hfold & Hvalid & Hinvalid & _).
    unfold matchOrdersVerifier in Hverify. rewrite Hfold in Hverify.
    rewrite !app_nil_l in Hverify. injection Hverify as <- <-.
    pose proof (filter_length (fun item => settledTrue (verifyResult env item)) items) as Hf.
    cbv beta in Hf. rewrite <- Hinvalid in Hf. rewrite <- Hvalid, List.length_map in Hf. lia.
  - intros items v Hv.
    destruct (validate_accounts _ _ _ Hv) as (validV & Hverify & Hlen & Hrest).
    destruct (oneToOne_verifier_result _ Hverify) as (Hnil & Hmap & _).
    split; [|exact Hnil]. split; [|exact Hrest].
    rewrite Hnil. rewrite <- Hmap. rewrite List.length_map. cbn [List.length]. lia.
Qed.

(** One item on the chain that has not approved the exchange: one seller
    rejection, nothing else. *)
Lemma validation_accounts_for_every_item_witness :
  accountsFor SampleChain.unapproved [SampleChain.item "m1" "0xab"]
    {| invalidBundleItemsFromVerify := [];
       invalidBundleItemsFromVerifyWithError := [];
       invalidBundleItemsAfterNftApproval :=
         [ {| invalidItem := SampleChain.priced (SampleChain.item "m1" "0xab");
              orderError := {| code := NotApprovedToTransferToken;
                               error := OperatorNotApproved "0xe8c4a96e" "0xc0ffee" |} |} ];
       invalidBundleItemsFromCurrencyCheck := [];
       validBundleItems := [] |}.
Proof.
  exact (proj1 (@validation_accounts_for_every_item Z SampleChain.unapproved)
           [SampleChain.item "m1" "0xab"] _ eq_refl).
Defined.

Section EncoderPost.

Variable JsFloat : Type.
Variable env : Env JsFloat.
Context {T Args : Type} `{ExtendsBundleItem T}.
Variable signerAddress : string.
Variable bundleItemsToArgs : list T -> Z -> list (option Args).
Variable encodeCallData : Args -> Res string.
Variable verifyBundleItems : list T -> Res (list (WithCurrentPrice T) * list T).

Hypothesis buckets_at_most_items :
  forall items k, 1 <= k -> (List.length (bundleItemsToArgs items k) <= List.length items)%nat.

Lemma encoder_post (fuel : nat) (items : list T) (minBundleSize : Z) (result : @Encoded T) :
  encoder env signerAddress bundleItemsToArgs encodeCallData verifyBundleItems
    fuel items minBundleSize = Some (Ok result) ->
  exists v,
    validate env verifyBundleItems items = Ok v
    /\ (Z.of_nat (List.length (validBundleItems v)) < minBundleSize -> txRequests result = [])
    /\ (List.length (txRequests result) <= List.length (validBundleItems v))%nat
    /\ Forall (wellFormedRequest env) (txRequests result).
Proof.
  unfold encoder.
  destruct (validate env verifyBundleItems items) as [v|]; [|discriminate].
  destruct (Z.ltb_spec (Z.of_nat (List.length (validBundleItems v))) minBundleSize) as [Hlt|Hge].
  - intros [= <-]. exists v. cbn. repeat split; [lia | constructor].
  - destruct (buildBundles env signerAddress bundleItemsToArgs encodeCallData fuel
                (map (@bundleItem T) (validBundleItems v)) 1)
      as [[txs invalidFromBuild]|] eqn:Hbuild; [|discriminate].
    intros [= <-]. exists v. cbn [txRequests].
    split; [reflexivity|]. split; [lia|].
    destruct (buildBundles_sound _ _ _ _ _ _ _ Hbuild) as [Hfit _].
    apply buildBundles_final_count in Hbuild; [|lia].
    destruct Hbuild as (finalCount & Hpos & -> & _).
    split.
    + pose proof (requestsOf_length env signerAddress encodeCallData
                    (bundleItemsToArgs (map (@bundleItem T) (validBundleItems v)) finalCount)).
      pose proof (buckets_at_most_items (map (@bundleItem T) (validBundleItems v)) Hpos) as Hb.
      rewrite List.length_map in Hb. lia.
    + pose proof (requestsOf_describe env signerAddress encodeCallData
                    (bundleItemsToArgs (map (@bundleItem T) (validBundleItems v)) finalCount))
        as Hdesc.
      rewrite Forall_forall in *. intros tx Htx.
      destruct (Hdesc tx Htx) as (Hto & Hty & Hch & _).
      split; [exact (Hfit tx Htx)|]. now repeat split.
Qed.

End EncoderPost.

Lemma matchOrders_buckets_at_most_items (items : list MatchOrdersBundleItem) (k : Z) :
  1 <= k ->
  (List.length (matchOrdersItemsToArgsTransformer items k) <= List.length items)%nat.
Proof.
  intros Hk. rewrite matchOrders_transformer_buckets by exact Hk.
  rewrite List.length_map, length_seq. lia.
Qed.

Lemma oneToOne_buckets_at_most_items (items : list MatchOrdersOneToOneBundleItem) (k : Z) :
  1 <= k ->
  (List.length (matchOrdersOneToOneItemsToArgsTransformer items k) <= List.length items)%nat.
Proof.
  intros Hk. rewrite oneToOne_transformer_buckets by exact Hk.
  rewrite List.length_map, length_seq. lia.
Qed.

(** X19. Whenever either encoder returns: if fewer than [minBundleSize]
    items survived the three stages it returns no transaction request at all;
    it never returns more requests than items survived; and every request it
    returns has [gasLimit <= MAX_GAS_LIMIT], is addressed to the exchange
    contract, has type 2 and carries the chain's id. *)
Theorem encoder_postconditions :
  forall (JsFloat : Type) (env : Env JsFloat) (signerAddress : string)
         (fuel : nat) (minBundleSize : Z),
    (forall (items : list MatchOrdersBundleItem) result,
       matchOrdersEncoder env signerAddress fuel items minBundleSize = Some (Ok result) ->
       exists v,
         validate env (matchOrdersVerifier env) items = Ok v
         /\ (Z.of_nat (List.length (validBundleItems v)) < minBundleSize ->
             txRequests result = [])
         /\ (List.length (txRequests result) <= List.length (validBundleItems v))%nat
         /\ Forall (wellFormedRequest env) (txRequests result))
    /\ (forall (items : list MatchOrdersOneToOneBundleItem) result,
          matchOrdersOneToOneEncoder env signerAddress fuel items minBundleSize
          = Some (Ok result) ->
          exists v,
            validate env matchOrdersOneToOneVerifier items = Ok v
            /\ (Z.of_nat (List.length (validBundleItems v)) < minBundleSize ->
                txRequests result = [])
            /\ (List.length (txRequests result) <= List.length (validBundleItems v))%nat
            /\ Forall (wellFormedRequest env) (txRequests result)).
Proof.
  intros JsFloat env signerAddress fuel minBundleSize. split; intros items result.
  - apply encoder_post. intros its k. apply matchOrders_buckets_at_most_items.
  - apply encoder_post. intros its k. apply oneToOne_buckets_at_most_items.
Qed.

(** Two healthy items with [minBundleSize = 3]: nothing is submitted. *)
Lemma encoder_postconditions_witness :
  exists v,
    validate SampleChain.healthy (matchOrdersVerifier SampleChain.healthy)
      [SampleChain.item "m1" "0xab"; SampleChain.item "m2" "0xab"] = Ok v
    /\ (Z.of_nat (List.length (validBundleItems v)) < 3 ->
        @txRequests MatchOrdersBundleItem {| txRequests := []; invalidBundleItems := [] |} = [])
    /\ (List.length
          (@txRequests MatchOrdersBundleItem {| txRequests := []; invalidBundleItems := [] |})
        <= List.length (validBundleItems v))%nat
    /\ Forall (wellFormedRequest SampleChain.healthy)
              (@txRequests MatchOrdersBundleItem
                 {| txRequests := []; invalidBundleItems := [] |}).
Proof.
  exact (proj1 (@encoder_postconditions Z SampleChain.healthy SampleChain.signerAddress
                  0%nat 3)
           [SampleChain.item "m1" "0xab"; SampleChain.item "m2" "0xab"]
           {| txRequests := []; invalidBundleItems := [] |} eq_refl).
Defined.

(** * Part VII. The exchange object *)

Lemma Map_set_fresh {V : Type} (m : InfinityExchange.JsMap V) (key : string) (value : V) :
  ~ In key (map fst m) -> InfinityExchange.Map_set m key value = m ++ [(key, value)].
Proof.
  induction m as [|[k v] m IH]; cbn [InfinityExchange.Map_set map fst In app]; intros Hfresh.
  - reflexivity.
  - destruct (String.eqb_spec k key) as [->|Hne].
    + exfalso. apply Hfresh. now left.
    + rewrite IH; [reflexivity|]. intros Hin. apply Hfresh. now right.
Qed.


Lemma entry_at_some {V : Type} (entries : list (string * V)) (key : string) :
  In key (map fst entries) -> exists v, InfinityExchange.entry_at entries key = Some v.
Proof.
  induction entries as [|[k v] entries IH]; cbn [map fst In InfinityExchange.entry_at]; [tauto|].
  intros [->|Hin].
  - rewrite String.eqb_refl. now exists v.
  - destruct (String.eqb k key); [now exists v | now apply IH].
Qed.


Lemma entry_at_none {V : Type} (entries : list (string * V)) (key : string) :
  ~ In key (map fst entries) -> InfinityExchange.entry_at entries key = None.
Proof.
  induction entries as [|[k v] entries IH]; cbn [map fst In InfinityExchange.entry_at]; [tauto|].
  intros Hnot. destruct (String.eqb_spec k key) as [->|_].
  - exfalso. apply Hnot. now left.
  - apply IH. tauto.
Qed.

Section ExchangeObject.

Import InfinityExchange.

Variable JsonRpcProvider : Type.
Variable lib_getExchangeAddress : string -> string.

#[local] Abbreviation hasAddress := (hasExchangeAddress lib_getExchangeAddress).
#[local] Abbreviation makeContract := (contractOf lib_getExchangeAddress).
#[local] Abbreviation add := (addContract lib_getExchangeAddress).

Lemma addContract_throw (entries : list (string * JsonRpcProvider)) (m : string) :
  fold_left add entries (Throw m) = Throw m.
Proof.
  induction entries as [|[chainId p] entries IH]; cbn [fold_left addContract bind].
  - reflexivity.
  - exact IH.
Qed.

Lemma addContract_all (entries : list (string * JsonRpcProvider)) :
  forall m0 : JsMap (Contract JsonRpcProvider),
    Forall hasAddress entries ->
    NoDup (map fst m0 ++ map fst entries) ->
    fold_left add entries (Ok m0) = Ok (m0 ++ map makeContract entries).
Proof.
  induction entries as [|[chainId p] entries IH]; intros m0 Hall Hnd.
  - cbn. now rewrite app_nil_r.
  - inversion Hall as [|? ? Hhas Hall']; subst.
    cbn [fold_left addContract bind]. unfold getExchangeAddress.
    unfold hasExchangeAddress in Hhas. cbn [fst] in Hhas.
    destruct (String.eqb_spec (lib_getExchangeAddress chainId) "") as [E|_]; [contradiction|].
    cbn [bind map fst] in *.
    rewrite Map_set_fresh.
    + rewrite IH; [|exact Hall'|].
      * rewrite <- app_assoc. reflexivity.
      * rewrite map_app. cbn [map fst]. rewrite <- app_assoc. exact Hnd.
    + apply NoDup_remove_2 in Hnd. intros Hin. apply Hnd. apply in_or_app. now left.
Qed.

Lemma addContract_first_missing (before after : list (string * JsonRpcProvider))
    (chainId : string) (p : JsonRpcProvider) :
  Forall hasAddress before ->
  lib_getExchangeAddress chainId = "" ->
  forall m0 : JsMap (Contract JsonRpcProvider),
    fold_left add (before ++ (chainId, p) :: after) (Ok m0)
    = Throw ("No exchange address for chainId: " ++ chainId)%string.
Proof.
  intros Hall Hmissing. induction Hall as [|[k q] before Hhas _ IH]; intros m0.
  - cbn [app fold_left addContract bind]. unfold getExchangeAddress.
    rewrite Hmissing. cbn [String.eqb bind]. apply addContract_throw.
  - cbn [app fold_left addContract bind]. unfold getExchangeAddress.
    unfold hasExchangeAddress in Hhas. cbn [fst] in Hhas.
    destruct (String.eqb_spec (lib_getExchangeAddress k) "") as [E|_]; [contradiction|].
    cbn [bind]. apply IH.
Qed.

Lemma entry_at_makeContract (entries : list (string * JsonRpcProvider)) (chainId : string) :
  entry_at (map makeContract entries) chainId
  = option_map (fun p => {| address := lib_getExchangeAddress chainId; provider := p |})
      (entry_at entries chainId).
Proof.
  induction entries as [|[k p] entries IH]; cbn [map entry_at contractOf fst snd option_map].
  - reflexivity.
  - destruct (String.eqb_spec k chainId) as [->|_]; [reflexivity | exact IH].
Qed.

Lemma new_contracts (providers : JsObject JsonRpcProvider) (this : t JsonRpcProvider) :
  NoDup (map fst providers) ->
  new lib_getExchangeAddress providers = Ok this ->
  this = {| InfinityExchange.providers := providers;
            contracts := map makeContract providers |}.
Proof.
  intros Hnd. unfold new, Object_entries.
  assert (Hcases : Forall hasAddress providers
                   \/ exists before chainId p after,
                        providers = before ++ (chainId, p) :: after
                        /\ Forall hasAddress before
                        /\ lib_getExchangeAddress chainId = "").
  { clear Hnd. induction providers as [|[k p] rest IH].
    - left. constructor.
    - destruct (String.eqb_spec (lib_getExchangeAddress k) "") as [E|Hne].
      + right. exists [], k, p, rest. repeat split; [constructor | exact E].
      + destruct IH as [Hall|(before & chainId & q & after & -> & Hall & E)].
        * left. constructor; [exact Hne | exact Hall].
        * right. exists ((k, p) :: before), chainId, q, after.
          repeat split; [constructor; [exact Hne | exact Hall] | exact E]. }
  destruct Hcases as [Hall|(before & chainId & p & after & -> & Hall & E)].
  - rewrite addContract_all; [|exact Hall|exact Hnd]. cbn [bind app]. now intros [= <-].
  - rewrite addContract_first_missing; [|exact Hall|exact E]. discriminate.
Qed.

End ExchangeObject.

(** X20. Constructing the exchange object over a record of providers with
    distinct chain ids: if the library knows an exchange address for every
    chain, the constructor returns, keeps the record, and [exchangeAddresses]
    lists the library's address of each chain in the order of the record; if
    some chain has none, it throws [No exchange address for chainId: <chain>]
    for the first such chain. *)
Theorem constructor_needs_every_address :
  forall (JsonRpcProvider : Type) (lib_getExchangeAddress : string -> string)
         (providers : JsObject JsonRpcProvider),
    NoDup (map fst providers) ->
    (Forall (InfinityExchange.hasExchangeAddress lib_getExchangeAddress) providers ->
     exists this,
       InfinityExchange.new lib_getExchangeAddress providers = Ok this
       /\ InfinityExchange.providers this = providers
       /\ InfinityExchange.exchangeAddresses this
          = map (fun entry => lib_getExchangeAddress (fst entry)) providers)
    /\ (forall before chainId provider after,
          providers = before ++ (chainId, provider) :: after ->
          Forall (InfinityExchange.hasExchangeAddress lib_getExchangeAddress) before ->
          lib_getExchangeAddress chainId = "" ->
          InfinityExchange.new lib_getExchangeAddress providers
          = Throw ("No exchange address for chainId: " ++ chainId)%string).
Proof.
  intros JsonRpcProvider lib providers Hnd. split.
  - intros Hall. unfold InfinityExchange.new, InfinityExchange.Object_entries.
    rewrite addContract_all; [|exact Hall|exact Hnd]. cbn [bind app].
    eexists. split; [reflexivity|]. split; [reflexivity|].
    unfold InfinityExchange.exchangeAddresses, InfinityExchange.Map_values. cbn.
    rewrite !map_map. reflexivity.
  - intros before chainId provider after -> Hall Hmissing.
    unfold InfinityExchange.new, InfinityExchange.Object_entries.
    rewrite addContract_first_missing; [reflexivity | exact Hall | exact Hmissing].
Qed.

(** Two chains, both with an exchange. *)
Lemma constructor_needs_every_address_witness :
  exists this,
    InfinityExchange.new SampleExchange.lib_getExchangeAddress SampleExchange.providers
    = Ok this
    /\ InfinityExchange.providers this = SampleExchange.providers
    /\ InfinityExchange.exchangeAddresses this
       = map (fun entry => SampleExchange.lib_getExchangeAddress (fst entry))
           SampleExchange.providers.
Proof.
  apply (@constructor_needs_every_address string SampleExchange.lib_getExchangeAddress
           SampleExchange.providers).
  - repeat constructor; cbn; intuition discriminate.
  - repeat constructor; cbv; discriminate.
Defined.

(** X21. On a constructed exchange object the two look-ups agree: for a
    chain of the providers record [getProvider] returns its provider and
    [getContract] the contract made of the library's address and that
    provider, so the first statements of [getEncoder] return both; for any
    other chain both throw, and [getEncoder], which asks for the contract
    first, throws [No exchange contract for chainId: <chain>]. *)
Theorem lookups_agree :
  forall (JsonRpcProvider : Type) (lib_getExchangeAddress : string -> string)
         (providers : JsObject JsonRpcProvider) (this : InfinityExchange.t JsonRpcProvider),
    NoDup (map fst providers) ->
    InfinityExchange.new lib_getExchangeAddress providers = Ok this ->
    forall chainId,
      (In chainId (map fst providers) ->
       exists provider,
         InfinityExchange.getProvider this chainId = Ok provider
         /\ InfinityExchange.getContract this chainId
            = Ok {| InfinityExchange.address := lib_getExchangeAddress chainId;
                    InfinityExchange.provider := provider |}
         /\ InfinityExchange.getEncoder_lookup this chainId
            = Ok ({| InfinityExchange.address := lib_getExchangeAddress chainId;
                     InfinityExchange.provider := provider |}, provider))
      /\ (~ In chainId (map fst providers) ->
          InfinityExchange.getProvider this chainId
          = Throw ("No provider for chainId: " ++ chainId)%string
          /\ InfinityExchange.getContract this chainId
             = Throw ("No exchange contract for chainId: " ++ chainId)%string
          /\ InfinityExchange.getEncoder_lookup this chainId
             = Throw ("No exchange contract for chainId: " ++ chainId)%string).
Proof.
  intros JsonRpcProvider lib providers this Hnd Hnew chainId.
  apply new_contracts in Hnew; [|exact Hnd]. subst this.
  unfold InfinityExchange.getEncoder_lookup, InfinityExchange.getProvider,
    InfinityExchange.getContract, InfinityExchange.Object_get, InfinityExchange.Map_get.
  cbn [InfinityExchange.providers InfinityExchange.contracts].
  rewrite entry_at_makeContract. split.
  - intros Hin. destruct (entry_at_some providers chainId Hin) as [p Hp].
    exists p. rewrite Hp. cbn. repeat split.
  - intros Hnot. rewrite (entry_at_none providers chainId Hnot). cbn. repeat split.
Qed.

(** Chain 5 of the sample record is found; chain 137 is not. *)
Lemma lookups_agree_witness :
  (In "5" (map fst SampleExchange.providers) ->
   exists provider,
     InfinityExchange.getProvider SampleExchange.exchange "5" = Ok provider
     /\ InfinityExchange.getContract SampleExchange.exchange "5"
        = Ok {| InfinityExchange.address := SampleExchange.lib_getExchangeAddress "5";
                InfinityExchange.provider := provider |}
     /\ InfinityExchange.getEncoder_lookup SampleExchange.exchange "5"
        = Ok ({| InfinityExchange.address := SampleExchange.lib_getExchangeAddress "5";
                 InfinityExchange.provider := provider |}, provider))
  /\ (~ In "5" (map fst SampleExchange.providers) ->
      InfinityExchange.getProvider SampleExchange.exchange "5"
      = Throw ("No provider for chainId: " ++ "5")%string
      /\ InfinityExchange.getContract SampleExchange.exchange "5"
         = Throw ("No exchange contract for chainId: " ++ "5")%string
      /\ InfinityExchange.getEncoder_lookup SampleExchange.exchange "5"
         = Throw ("No exchange contract for chainId: " ++ "5")%string).
Proof.
  apply (@lookups_agree string SampleExchange.lib_getExchangeAddress
           SampleExchange.providers SampleExchange.exchange).
  - repeat constructor; cbn; intuition discriminate.
  - reflexivity.
Defined.
